(** * The Manorama news scraper: extraction, scoring and merge pipeline

    A shallow embedding of [manorama_scraper.py] and [merge_data.py], and
    the properties of the specification that hold of it.

    - Python [str] values are Rocq [string]s.  The character classes used
      by the code ([str.isspace], [str.lower], and [\d], [\s], [\w] of
      the regular expressions) are modelled on the ASCII range; a
      statement that turns on them is made of texts in that range
      ([is_ascii]).
    - Python [int] is [Z]; [int(s)] has no limit on the number of digits,
      where Python raises beyond 4300 of them: a statement that turns on
      it bounds the length of the text ([max_str_digits]).
    - Python [float] is IEEE-754 binary64, modelled with the Standard
      Library's [spec_float] and its correctly rounded operations
      ([SFadd], [SFmul], [SFdiv]).  An operation that raises returns
      [None].
    - A parsed document ([BeautifulSoup]) is represented by the answers it
      gives to the queries the scraper makes ([select], [find_all]).
    - The outside world (network, random generator, clock) is an explicit
      state threaded through the effectful functions; the delay of
      [random_delay] is taken to be one that [time.sleep] accepts (a
      delay range that is not negative); [urljoin] is a
      parameter, and a total one, where the library raises on a
      reference with a bracket: a statement that turns on it is made of
      references without brackets ([joinable]).
    - Logging is not modelled.

    The file has three parts: the model, the vocabulary and sample values
    of the statements, and the proofs. *)

From Stdlib Require Import ZArith QArith List String Ascii Bool Lia SpecFloat.
From Stdlib Require Import Permutation DecimalString DecimalN.
Import ListNotations.

Open Scope bool_scope.
Open Scope string_scope.
Open Scope list_scope.
Open Scope Z_scope.

(* ================================================================== *)
(** * Python strings *)
(* ================================================================== *)

Module PyStr.

(** [str.isspace] on one ASCII character: tab, newline, vertical tab,
    form feed, carriage return, the separators 0x1c-0x1f and space. *)
Definition is_space (c : ascii) : bool :=
  let n := nat_of_ascii c in
  ((9 <=? n) && (n <=? 13) || (28 <=? n) && (n <=? 32))%nat.

(** [\d] on the ASCII range. *)
Definition is_digit (c : ascii) : bool :=
  let n := nat_of_ascii c in ((48 <=? n) && (n <=? 57))%nat.

Definition is_upper (c : ascii) : bool :=
  let n := nat_of_ascii c in ((65 <=? n) && (n <=? 90))%nat.

Definition is_lower (c : ascii) : bool :=
  let n := nat_of_ascii c in ((97 <=? n) && (n <=? 122))%nat.

(** [\w] on the ASCII range: letters, digits and the underscore. *)
Definition is_word (c : ascii) : bool :=
  is_upper c || is_lower c || is_digit c || Ascii.eqb c "_".

Definition to_lower (c : ascii) : ascii :=
  if is_upper c then ascii_of_nat (nat_of_ascii c + 32) else c.

(** [s.lower()] *)
Fixpoint lower (s : string) : string :=
  match s with
  | EmptyString => EmptyString
  | String c s' => String (to_lower c) (lower s')
  end.

Fixpoint lstrip (s : string) : string :=
  match s with
  | EmptyString => EmptyString
  | String c s' => if is_space c then lstrip s' else s
  end.

Fixpoint rstrip (s : string) : string :=
  match s with
  | EmptyString => EmptyString
  | String c s' =>
      let r := rstrip s' in
      if is_space c && (r =? "")%string then EmptyString else String c r
  end.

(** [s.strip()] *)
Definition strip (s : string) : string := rstrip (lstrip s).

(** Truth value of a string: non-empty. *)
Definition truthy (s : string) : bool := negb (s =? "")%string.

(** [s.startswith(p)] *)
Fixpoint starts_with (p s : string) : bool :=
  match p, s with
  | EmptyString, _ => true
  | String a p', String b s' => Ascii.eqb a b && starts_with p' s'
  | String _ _, EmptyString => false
  end.

(** [sub in s] *)
Fixpoint contains (sub s : string) : bool :=
  starts_with sub s ||
  match s with
  | EmptyString => false
  | String _ s' => contains sub s'
  end.

(** [s.replace(c, '')] for a one-character [c]. *)
Fixpoint remove_char (c : ascii) (s : string) : string :=
  match s with
  | EmptyString => EmptyString
  | String a s' => if Ascii.eqb a c then remove_char c s' else String a (remove_char c s')
  end.

(** The longest prefix of digits. *)
Fixpoint take_digits (s : string) : string :=
  match s with
  | EmptyString => EmptyString
  | String c s' => if is_digit c then String c (take_digits s') else EmptyString
  end.

(** [re.search(r'(\d+)', s)]: group 1 of the leftmost match, which is
    the first maximal run of digits; [None] when [s] has no digit. *)
Fixpoint search_digits (s : string) : option string :=
  match s with
  | EmptyString => None
  | String c s' => if is_digit c then Some (take_digits s) else search_digits s'
  end.

Definition digit_value (c : ascii) : Z := Z.of_nat (nat_of_ascii c) - 48.

Fixpoint int_of_digits_from (acc : Z) (s : string) : Z :=
  match s with
  | EmptyString => acc
  | String c s' => int_of_digits_from (10 * acc + digit_value c) s'
  end.

(** [int(s)] for a string of decimal digits. *)
Definition int_of_digits (s : string) : Z := int_of_digits_from 0 s.

Fixpoint split_from (cur : string) (s : string) : list string :=
  match s with
  | EmptyString => if (cur =? "")%string then [] else [cur]
  | String c s' =>
      if is_space c
      then (if (cur =? "")%string then split_from "" s' else cur :: split_from "" s')
      else split_from (cur ++ String c "") s'
  end.

(** [s.split()]: the maximal runs of non-whitespace characters. *)
Definition split (s : string) : list string := split_from "" s.

(** [sep.join(l)] *)
Fixpoint join (sep : string) (l : list string) : string :=
  match l with
  | [] => ""
  | [x] => x
  | x :: rest => x ++ sep ++ join sep rest
  end.

(** [d.get(k)] on a dictionary kept as an association list in insertion
    order with unique keys. *)
Fixpoint dict_get (d : list (string * string)) (k : string) : option string :=
  match d with
  | [] => None
  | (k', v) :: rest => if (k' =? k)%string then Some v else dict_get rest k
  end.

(** ** Regular expressions of the shape used by [parse_date_string]:
    a sequence of character classes, each with a repetition range. *)

Record atom := { cls : ascii -> bool; rmin : nat; rmax : option nat }.

(** [rep p lo hi k s]: some number of leading characters of [s] in class
    [p], between [lo] and [hi] of them, can be consumed so that the
    continuation [k] accepts the rest. *)
Fixpoint rep (p : ascii -> bool) (k : string -> bool) (lo : nat) (hi : option nat)
  (s : string) : bool :=
  (match lo with O => k s | S _ => false end) ||
  match s with
  | EmptyString => false
  | String c s' =>
      p c &&
      match hi with
      | Some O => false
      | Some (S h) => rep p k (pred lo) (Some h) s'
      | None => rep p k (pred lo) None s'
      end
  end.

Fixpoint match_here (r : list atom) : string -> bool :=
  match r with
  | [] => fun _ => true
  | a :: r' => rep (cls a) (match_here r') (rmin a) (rmax a)
  end.

(** [re.search(r, s) is not None] *)
Fixpoint re_search (r : list atom) (s : string) : bool :=
  match_here r s ||
  match s with
  | EmptyString => false
  | String _ s' => re_search r s'
  end.

End PyStr.

(* ================================================================== *)
(** * Python numbers *)
(* ================================================================== *)

Module PyNum.

(** binary64 *)
Definition prec : Z := 53.
Definition emax : Z := 1024.

Definition fadd : spec_float -> spec_float -> spec_float := SFadd prec emax.
Definition fmul : spec_float -> spec_float -> spec_float := SFmul prec emax.
Definition fdiv : spec_float -> spec_float -> spec_float := SFdiv prec emax.

(** The integer [z] as a mantissa with exponent 0 (exact, not
    normalised); the operations of [SpecFloat] round from the exact value
    of their arguments, so this is a valid operand for any [z]. *)
Definition exact_int (z : Z) : spec_float :=
  match z with
  | Z0 => S754_zero false
  | Zpos p => S754_finite false p 0
  | Zneg p => S754_finite true p 0
  end.

(** Conversion of an [int] operand of a float operation: the nearest
    double, ties to even; [None] is [OverflowError] (int too large to
    convert to float). *)
Definition float_of_int (z : Z) : option spec_float :=
  match binary_normalize prec emax z 0 false with
  | S754_infinity _ => None
  | x => Some x
  end.

(** [a / b] on two [int]s: the correctly rounded quotient; [None] is
    [ZeroDivisionError] or [OverflowError]. *)
Definition int_true_div (a b : Z) : option spec_float :=
  if b =? 0 then None
  else match fdiv (exact_int a) (exact_int b) with
       | S754_infinity _ | S754_nan => None
       | x => Some x
       end.

(** The float literal [d]e-[k], e.g. [0.4] is [decimal_literal 4 1]. *)
Definition decimal_literal (d : Z) (k : nat) : spec_float :=
  fdiv (exact_int d) (exact_int (10 ^ Z.of_nat k)).

Definition lit_0_4 : spec_float := Eval vm_compute in decimal_literal 4 1.
Definition lit_0_3 : spec_float := Eval vm_compute in decimal_literal 3 1.

(** The value of an expression that may be an [int] or a [float]. *)
Inductive number :=
| PyInt (z : Z)
| PyFloat (x : spec_float).

Definition signed (s : bool) (m : positive) : Z := if s then Zneg m else Zpos m.

(** The rational a finite float stands for. *)
Definition float_value (x : spec_float) : option Q :=
  match x with
  | S754_zero _ => Some 0%Q
  | S754_finite s m e => Some (inject_Z (signed s m) * Qpower 2 e)%Q
  | _ => None
  end.

Definition number_value (v : number) : option Q :=
  match v with
  | PyInt z => Some (inject_Z z)
  | PyFloat x => float_value x
  end.

(** [z < x] for an [int] [z] and a [float] [x]: Python compares the two
    exactly. *)
Definition int_lt_float (z : Z) (x : spec_float) : bool :=
  match x with
  | S754_nan => false
  | S754_infinity s => negb s
  | S754_zero _ => z <? 0
  | S754_finite s m e =>
      if 0 <=? e then z <? signed s m * 2 ^ e
      else z * 2 ^ (- e) <? signed s m
  end.

(** [min(x, z)] with a [float] first and an [int] second: the second
    argument replaces the first only when it is strictly smaller. *)
Definition min_float_int (x : spec_float) (z : Z) : number :=
  if int_lt_float z x then PyInt z else PyFloat x.

(** [a / b] rounded to the nearest integer, ties to even ([0 <= a], [0 < b]). *)
Definition round_half_even_div (a b : Z) : Z :=
  let q := a / b in
  match 2 * (a mod b) ?= b with
  | Lt => q
  | Gt => q + 1
  | Eq => if Z.even q then q else q + 1
  end.

(** The integer nearest to [m * 2^e * k], ties to even. *)
Definition round_scaled (m : positive) (e : Z) (k : Z) : Z :=
  if 0 <=? e then Zpos m * 2 ^ e * k
  else round_half_even_div (Zpos m * k) (2 ^ (- e)).

(** [round(x, ndigits)] on a [float], [ndigits >= 0]: the exact value is
    rounded to [ndigits] decimals (ties to even) and the resulting decimal
    is converted back to the nearest double. *)
Definition float_round (x : spec_float) (ndigits : nat) : spec_float :=
  match x with
  | S754_finite s m e =>
      match round_scaled m e (10 ^ Z.of_nat ndigits) with
      | Zpos n => fdiv (S754_finite s n 0) (exact_int (10 ^ Z.of_nat ndigits))
      | _ => S754_zero s
      end
  | _ => x
  end.

(** [round(v, ndigits)]; an [int] is returned unchanged. *)
Definition round_ndigits (v : number) (ndigits : nat) : number :=
  match v with
  | PyInt z => PyInt z
  | PyFloat x => PyFloat (float_round x ndigits)
  end.

(** [round(x)] on a [float]: an [int], ties to even; [None] on
    infinities and NaN, where Python raises. *)
Definition float_round_int (x : spec_float) : option Z :=
  match x with
  | S754_zero _ => Some 0
  | S754_finite s m e =>
      let n := round_scaled m e 1 in Some (if s then - n else n)
  | _ => None
  end.

End PyNum.

(* ================================================================== *)
(** * Parsed documents and the outside world *)
(* ================================================================== *)

Module Html.

(** An element of a parsed page: its text content ([get_text()]) and its
    attributes. *)
Record Tag := { get_text : string; attrs : list (string * string) }.

(** [tag.get(name)] *)
Definition get (t : Tag) (name : string) : option string :=
  PyStr.dict_get (attrs t) name.

(** [tag.get(name, '')] *)
Definition get_or_empty (t : Tag) (name : string) : string :=
  match get t name with Some v => v | None => "" end.

(** A parsed page, through the two queries the scraper uses:
    [soup.select(css)] and [soup.find_all(name)], both in document
    order. *)
Record BeautifulSoup := {
  select : string -> list Tag;
  find_all : string -> list Tag
}.

(** [soup.select_one(css)]: the first element [select] finds. *)
Definition select_one (soup : BeautifulSoup) (css : string) : option Tag :=
  hd_error (select soup css).

End Html.

Module Env.

(** The state of everything outside the program.  [web url n] is the
    outcome of the [n]-th request of the run when it asks for [url]:
    the parsed page, or [None] when the request raises (connection
    error, HTTP error status).  [entropy] is the stream the random
    generator draws from, [clock] the successive readings of
    [datetime.now().isoformat()]. *)
Record World := {
  web : string -> nat -> option Html.BeautifulSoup;
  requests : nat;
  entropy : nat -> Z;
  draws : nat;
  clock : nat -> string;
  ticks : nat
}.

Definition State (A : Type) : Type := World -> A * World.

Definition ret {A} (a : A) : State A := fun w => (a, w).

Definition bind {A B} (m : State A) (k : A -> State B) : State B :=
  fun w => let '(a, w') := m w in k a w'.

(** [session.get(url)] followed by [raise_for_status()] and parsing. *)
Definition http_get (url : string) : State (option Html.BeautifulSoup) :=
  fun w =>
    (web w url (requests w),
     {| web := web w; requests := S (requests w); entropy := entropy w;
        draws := draws w; clock := clock w; ticks := ticks w |}).

Definition next_draw : State Z :=
  fun w =>
    (entropy w (draws w),
     {| web := web w; requests := requests w; entropy := entropy w;
        draws := S (draws w); clock := clock w; ticks := ticks w |}).

(** [random.randint(a, b)]: an integer of [a..b]. *)
Definition randint (a b : Z) : State Z :=
  bind next_draw (fun r => ret (a + r mod (b - a + 1))).

(** [random_delay()]: one draw ([random.uniform]) and a sleep. *)
Definition random_delay : State unit :=
  bind next_draw (fun _ => ret tt).

(** [datetime.now().isoformat()] *)
Definition now_isoformat : State string :=
  fun w =>
    (clock w (ticks w),
     {| web := web w; requests := requests w; entropy := entropy w;
        draws := draws w; clock := clock w; ticks := S (ticks w) |}).

End Env.

Notation "x <- m ;; k" := (Env.bind m (fun x => k))
  (at level 61, m at next level, right associativity).

(* ================================================================== *)
(** * The scraper *)
(* ================================================================== *)

Module Scraper.
Import PyStr PyNum Html Env.

Record NewsArticle := {
  headline : string;
  date : string;
  location : string;
  views : Z;
  comments : Z;
  likes : Z;
  shares : Z;
  engagement_score : number;
  read_minutes : Z;
  category : string;
  url : string;
  content_length : Z
}.

(** The attributes of a [ManoramaScraper] instance the pipeline reads. *)
Record ManoramaScraper := {
  base_url : string;
  max_articles : Z;
  categories : list (string * string);
  location_mapping : list (string * string)
}.

(** [ManoramaScraper.__init__] *)
Definition init (base_url : string) (max_articles_per_run : Z) : ManoramaScraper :=
  {| base_url := base_url;
     max_articles := max_articles_per_run;
     categories :=
       [ ("kerala", "/news/kerala.html");
         ("india", "/news/india.html");
         ("world", "/news/world.html");
         ("sports", "/sports.html");
         ("movies", "/movies.html");
         ("business", "/business.html");
         ("health", "/health.html");
         ("technology", "/tech.html");
         ("lifestyle", "/life.html") ];
     location_mapping :=
       [ ("thiruvananthapuram", "Kerala/Thiruvananthapuram");
         ("kochi", "Kerala/Ernakulam");
         ("kozhikode", "Kerala/Kozhikode");
         ("thrissur", "Kerala/Thrissur");
         ("kollam", "Kerala/Kollam");
         ("alappuzha", "Kerala/Alappuzha");
         ("palakkad", "Kerala/Palakkad");
         ("malappuram", "Kerala/Malappuram");
         ("kannur", "Kerala/Kannur");
         ("kasargod", "Kerala/Kasargod");
         ("kerala", "Kerala/General");
         ("india", "India/National");
         ("world", "International");
         ("gulf", "International/Gulf") ] |}.

Definition default_base_url : string := "https://www.manoramaonline.com".

(** ** [is_valid_article_url] *)

Definition invalid_patterns : list string :=
  [ "javascript:"; "mailto:"; "tel:"; "#";
    "facebook.com"; "twitter.com"; "instagram.com";
    "youtube.com"; "whatsapp.com" ].

Definition is_valid_article_url (url : string) : bool :=
  negb (existsb (fun pattern => contains pattern (lower url)) invalid_patterns).

(** ** [extract_headline] *)

Definition headline_selectors : list string :=
  [ "h1.article-title"; "h1.headline"; "h1"; ".title h1"; ".article-headline"; "title" ].

Fixpoint first_headline (soup : BeautifulSoup) (selectors : list string) : string :=
  match selectors with
  | [] => ""
  | selector :: rest =>
      match select_one soup selector with
      | Some element =>
          if truthy (strip (get_text element)) then strip (get_text element)
          else first_headline soup rest
      | None => first_headline soup rest
      end
  end.

Definition extract_headline (soup : BeautifulSoup) : string :=
  first_headline soup headline_selectors.

(** ** [parse_date_string] and [extract_date] *)

Definition digits (lo hi : nat) : atom := {| cls := is_digit; rmin := lo; rmax := Some hi |}.
Definition separator : atom :=
  {| cls := fun c => Ascii.eqb c "/" || Ascii.eqb c "-"; rmin := 1; rmax := Some 1%nat |}.
Definition spaces : atom := {| cls := is_space; rmin := 1; rmax := None |}.
Definition word : atom := {| cls := is_word; rmin := 1; rmax := None |}.

Definition date_patterns : list (list atom) :=
  [ [ digits 1 2; separator; digits 1 2; separator; digits 4 4 ];
    [ digits 4 4; separator; digits 1 2; separator; digits 1 2 ];
    [ digits 1 2; spaces; word; spaces; digits 4 4 ] ].

Fixpoint parse_with (patterns : list (list atom)) (date_str : string) : State string :=
  match patterns with
  | [] => now_isoformat
  | pattern :: rest =>
      if re_search pattern date_str then now_isoformat
      else parse_with rest date_str
  end.

Definition parse_date_string (date_str : string) : State string :=
  parse_with date_patterns date_str.

Definition date_selectors : list string :=
  [ "time[datetime]"; ".date"; ".publish-date"; ".article-date"; "[data-date]" ].

Fixpoint first_date (soup : BeautifulSoup) (selectors : list string) : State string :=
  match selectors with
  | [] => now_isoformat
  | selector :: rest =>
      match select_one soup selector with
      | None => first_date soup rest
      | Some element =>
          if truthy (get_or_empty element "datetime") then ret (get_or_empty element "datetime")
          else if truthy (get_or_empty element "data-date")
          then ret (get_or_empty element "data-date")
          else if truthy (strip (get_text element))
          then parse_date_string (strip (get_text element))
          else first_date soup rest
      end
  end.

Definition extract_date (soup : BeautifulSoup) : State string :=
  first_date soup date_selectors.

(** ** [extract_location] *)

Definition location_selectors : list string :=
  [ ".location"; ".region"; ".dateline"; ".article-location" ].

(** The inner loop over [location_mapping.items()]. *)
Fixpoint first_keyword (mapping : list (string * string)) (location_text : string)
  : option string :=
  match mapping with
  | [] => None
  | (key, value) :: rest =>
      if contains key location_text then Some value
      else first_keyword rest location_text
  end.

Fixpoint first_location (mapping : list (string * string)) (soup : BeautifulSoup)
  (selectors : list string) : option string :=
  match selectors with
  | [] => None
  | selector :: rest =>
      match select_one soup selector with
      | None => first_location mapping soup rest
      | Some element =>
          match first_keyword mapping (lower (strip (get_text element))) with
          | Some value => Some value
          | None => first_location mapping soup rest
          end
      end
  end.

Definition extract_location (self : ManoramaScraper) (soup : BeautifulSoup)
  (category : string) : string :=
  match first_location (location_mapping self) soup location_selectors with
  | Some value => value
  | None =>
      match dict_get (location_mapping self) category with
      | Some value => value
      | None => "Kerala/General"
      end
  end.

(** ** [extract_views], [extract_comments], [extract_likes],
    [extract_shares]

    The four functions have the same body up to their selectors, their
    attribute and the range of the simulated value. *)

Inductive count_field := Views | Comments | Likes | Shares.

Definition count_selectors (f : count_field) : list string :=
  match f with
  | Views => [ ".view-count"; ".views"; "[data-views]" ]
  | Comments => [ ".comment-count"; ".comments-count"; "[data-comments]" ]
  | Likes => [ ".like-count"; ".likes"; "[data-likes]" ]
  | Shares => [ ".share-count"; ".shares"; "[data-shares]" ]
  end.

Definition count_attribute (f : count_field) : string :=
  match f with
  | Views => "data-views"
  | Comments => "data-comments"
  | Likes => "data-likes"
  | Shares => "data-shares"
  end.

Definition simulated_range (f : count_field) : Z * Z :=
  match f with
  | Views => (100, 50000)
  | Comments => (0, 200)
  | Likes => (0, 1000)
  | Shares => (0, 500)
  end.

(** [element.get_text() or element.get(attribute, '')] *)
Definition count_text (attribute : string) (element : Tag) : string :=
  if truthy (get_text element) then get_text element
  else get_or_empty element attribute.

(** [re.search(r'(\d+)', text.replace(',', ''))] and [int(m.group(1))] *)
Definition parse_count (text : string) : option Z :=
  option_map int_of_digits (search_digits (remove_char "," text)).

Fixpoint first_count (attribute : string) (soup : BeautifulSoup)
  (selectors : list string) : option Z :=
  match selectors with
  | [] => None
  | selector :: rest =>
      match select_one soup selector with
      | None => first_count attribute soup rest
      | Some element =>
          match parse_count (count_text attribute element) with
          | Some n => Some n
          | None => first_count attribute soup rest
          end
      end
  end.

Definition extract_count (f : count_field) (soup : BeautifulSoup) : State Z :=
  match first_count (count_attribute f) soup (count_selectors f) with
  | Some n => ret n
  | None => randint (fst (simulated_range f)) (snd (simulated_range f))
  end.

Definition extract_views : BeautifulSoup -> State Z := extract_count Views.
Definition extract_comments : BeautifulSoup -> State Z := extract_count Comments.
Definition extract_likes : BeautifulSoup -> State Z := extract_count Likes.
Definition extract_shares : BeautifulSoup -> State Z := extract_count Shares.

(** ** [extract_content_length] *)

Definition content_selectors : list string :=
  [ ".article-content"; ".content"; ".article-body"; ".post-content" ].

(** The loop that stops ([break]) at the first selector with a match. *)
Fixpoint first_content (soup : BeautifulSoup) (selectors : list string) : string :=
  match selectors with
  | [] => ""
  | selector :: rest =>
      match select_one soup selector with
      | Some element => get_text element
      | None => first_content soup rest
      end
  end.

Definition extract_content_length (soup : BeautifulSoup) : Z :=
  let content_text := first_content soup content_selectors in
  let content_text :=
    if truthy content_text then content_text
    else join " " (map get_text (find_all soup "p")) in
  Z.of_nat (List.length (split content_text)).

(** ** [calculate_read_time] and [calculate_engagement_score] *)

(** [calculate_read_time(word_count, wpm)]:
    [max(1, round(word_count / wpm))]. *)
Definition calculate_read_time (word_count wpm : Z) : option Z :=
  match int_true_div word_count wpm with
  | None => None
  | Some q =>
      match float_round_int q with
      | None => None
      | Some r => Some (Z.max 1 r)
      end
  end.

Definition default_wpm : Z := 200.

(** The weighted sum of [calculate_engagement_score], in the order in
    which Python evaluates it. *)
Definition engagement (views comments likes shares : Z) : option spec_float :=
  match float_of_int comments with None => None | Some c =>
  match float_of_int likes with None => None | Some l =>
  match float_of_int shares with None => None | Some s =>
  match float_of_int views with None => None | Some v =>
  match float_of_int 100 with None => None | Some hundred =>
    Some (fmul (fdiv (fadd (fadd (fmul c lit_0_4) (fmul l lit_0_3)) (fmul s lit_0_3)) v) hundred)
  end end end end end.

(** [calculate_engagement_score(views, comments, likes, shares)] *)
Definition calculate_engagement_score (views comments likes shares : Z) : option number :=
  if views =? 0 then Some (PyFloat (S754_zero false))
  else
    match engagement views comments likes shares with
    | None => None
    | Some e => Some (round_ndigits (min_float_int e 100) 2)
    end.

(** ** [extract_article_data] *)

(** What the body of a [try] block did. *)
Inductive outcome (A : Type) :=
| Raised
| Returned (a : A).
Arguments Raised {A}.
Arguments Returned {A} a.

(** The part of the [try] of [extract_article_data] that follows the
    parsing of the page. *)
Definition article_of_soup (self : ManoramaScraper) (soup : BeautifulSoup)
  (url category : string) : State (outcome (option NewsArticle)) :=
  let headline := extract_headline soup in
  if negb (truthy headline) then ret (Returned None)
  else
    article_date <- extract_date soup ;;
    let location := extract_location self soup category in
    views <- extract_views soup ;;
    comments <- extract_comments soup ;;
    likes <- extract_likes soup ;;
    shares <- extract_shares soup ;;
    let content_length := extract_content_length soup in
    match calculate_read_time content_length default_wpm with
    | None => ret Raised
    | Some read_minutes =>
        match calculate_engagement_score views comments likes shares with
        | None => ret Raised
        | Some engagement_score =>
            ret (Returned (Some
              {| headline := headline;
                 date := article_date;
                 location := location;
                 views := views;
                 comments := comments;
                 likes := likes;
                 shares := shares;
                 engagement_score := engagement_score;
                 read_minutes := read_minutes;
                 category := category;
                 url := url;
                 content_length := content_length |}))
        end
    end.

(** The body of the [try] of [extract_article_data]: the delay, the
    request (which may raise) and the extraction. *)
Definition article_of_page (self : ManoramaScraper) (url category : string)
  : State (outcome (option NewsArticle)) :=
  _ <- random_delay ;;
  page <- http_get url ;;
  match page with
  | None => ret Raised
  | Some soup => article_of_soup self soup url category
  end.

(** [extract_article_data]: an exception is logged and turned into
    [None]. *)
Definition extract_article_data (self : ManoramaScraper) (url category : string)
  : State (option NewsArticle) :=
  r <- article_of_page self url category ;;
  match r with
  | Raised => ret None
  | Returned article => ret article
  end.

(** ** [extract_article_links] and [scrape_all_categories]

    [urljoin] of [urllib.parse] is a parameter of this part. *)

(** [l[:k]] *)
Definition slice_to {A : Type} (l : list A) (k : Z) : list A :=
  if 0 <=? k then firstn (Z.to_nat k) l
  else firstn (Z.to_nat (Z.of_nat (List.length l) + k)) l.

(** The double-quote character. *)
Definition dquote : string := String (ascii_of_nat 34) EmptyString.

Definition link_selectors : list string :=
  [ "a[href*=" ++ dquote ++ "/news/" ++ dquote ++ "]";
    "a[href*=" ++ dquote ++ "/article/" ++ dquote ++ "]";
    ".news-item a"; ".article-link"; "h2 a, h3 a, h4 a" ]%string.

(** What the run did, in order: the links kept for a category, and each
    call of [extract_article_data] with the number of collected records
    before and after it.  The trace is not a value of the program. *)
Inductive event :=
| LinksExtracted (category : string) (links : list string)
| ArticleExtracted (link category : string) (before after : nat).

Section Links.

Variable urljoin : string -> string -> string.

(** The body of the inner loop over [links]. *)
Definition add_link (self : ManoramaScraper) (article_links : list string) (link : Tag)
  : list string :=
  match get link "href" with
  | None => article_links
  | Some href =>
      if truthy href && is_valid_article_url href then
        let full_link := urljoin (base_url self) href in
        if existsb (String.eqb full_link) article_links then article_links
        else article_links ++ [full_link]
      else article_links
  end.

Definition collect_links (self : ManoramaScraper) (soup : BeautifulSoup) : list string :=
  fold_left
    (fun article_links selector => fold_left (add_link self) (select soup selector) article_links)
    link_selectors [].

(** Any exception of the body (a failed request, a division by zero)
    makes the function return the empty list. *)
Definition extract_article_links (self : ManoramaScraper) (category_url : string)
  : State (list string) :=
  page <- http_get (urljoin (base_url self) category_url) ;;
  match page with
  | None => ret []
  | Some soup =>
      let article_links := collect_links self soup in
      match categories self with
      | [] => ret []
      | _ :: _ =>
          ret (slice_to article_links
                 (max_articles self / Z.of_nat (List.length (categories self))))
      end
  end.

(** The inner loop of [scrape_all_categories] over the links of one
    category, with its [break]. *)
Fixpoint scrape_links (self : ManoramaScraper) (category : string) (links : list string)
  (all_articles : list NewsArticle) : State (list NewsArticle * list event) :=
  match links with
  | [] => ret (all_articles, [])
  | link :: rest =>
      article <- extract_article_data self link category ;;
      let all_articles' :=
        match article with
        | Some a => all_articles ++ [a]
        | None => all_articles
        end in
      let e := ArticleExtracted link category (List.length all_articles)
                 (List.length all_articles') in
      if Z.of_nat (List.length all_articles') >=? max_articles self
      then ret (all_articles', [e])
      else
        r <- scrape_links self category rest all_articles' ;;
        ret (fst r, e :: snd r)
  end.

(** The outer loop over [self.categories.items()]. *)
Fixpoint scrape_categories (self : ManoramaScraper) (cats : list (string * string))
  (all_articles : list NewsArticle) : State (list NewsArticle * list event) :=
  match cats with
  | [] => ret (all_articles, [])
  | (category, category_url) :: rest =>
      article_links <- extract_article_links self category_url ;;
      r1 <- scrape_links self category article_links all_articles ;;
      r2 <- scrape_categories self rest (fst r1) ;;
      ret (fst r2, LinksExtracted category article_links :: snd r1 ++ snd r2)
  end.

Definition scrape_all_categories_traced (self : ManoramaScraper)
  : State (list NewsArticle * list event) :=
  scrape_categories self (categories self) [].

(** [scrape_all_categories] *)
Definition scrape_all_categories (self : ManoramaScraper) : State (list NewsArticle) :=
  r <- scrape_all_categories_traced self ;;
  ret (fst r).

End Links.

End Scraper.

(* ================================================================== *)
(** * [merge_data.py] *)
(* ================================================================== *)

Module Merge.

(** A row of a scraped CSV file as [read_csv] returns it: the two columns
    of the deduplication key, and the other columns. *)
Record Row := {
  headline : string;
  date : string;
  columns : list (string * string)
}.

(** A row of the merged frame: the row with its [source_file] column. *)
Record MergedRow := {
  row : Row;
  source_file : string
}.

Definition key (r : MergedRow) : string * string :=
  (headline (row r), date (row r)).

Definition key_eqb (k1 k2 : string * string) : bool :=
  (fst k1 =? fst k2)%string && (snd k1 =? snd k2)%string.

(** [df['source_file'] = os.path.basename(file)] *)
Definition tag (file : string) (df : list Row) : list MergedRow :=
  map (fun r => {| row := r; source_file := file |}) df.

(** The loop that loads the files: a file that cannot be read is
    reported and skipped. *)
Fixpoint load (csv_files : list (string * option (list Row))) : list (list MergedRow) :=
  match csv_files with
  | [] => []
  | (file, Some df) :: rest => tag file df :: load rest
  | (_, None) :: rest => load rest
  end.

(** [drop_duplicates(subset=['headline', 'date'], keep='first')]: [seen]
    holds the keys of the rows already passed. *)
Fixpoint drop_duplicates_from (seen : list (string * string)) (df : list MergedRow)
  : list MergedRow :=
  match df with
  | [] => []
  | r :: rest =>
      if existsb (key_eqb (key r)) seen then drop_duplicates_from seen rest
      else r :: drop_duplicates_from (key r :: seen) rest
  end.

Definition drop_duplicates (df : list MergedRow) : list MergedRow :=
  drop_duplicates_from [] df.

(** [merge_csv_files]: the frame written to the output file, or [None]
    when the function returns early (no file, or no file could be
    loaded).  [csv_files] pairs the base name of each file found with its
    content, in the order of [glob.glob]. *)
Definition merge_csv_files (csv_files : list (string * option (list Row)))
  : option (list MergedRow) :=
  match csv_files with
  | [] => None
  | _ :: _ =>
      match load csv_files with
      | [] => None
      | dfs => Some (drop_duplicates (List.concat dfs))
      end
  end.

End Merge.

(* ================================================================== *)
(** * Vocabulary of the statements *)
(* ================================================================== *)

Module Props.
Import PyStr PyNum Html Env Scraper.

(** ** Floats *)

(** Not negative: a zero, a finite float or an infinity with a clear sign
    bit; a NaN is excluded. *)
Definition nonneg_float (x : spec_float) : Prop :=
  match x with
  | S754_zero false | S754_infinity false | S754_finite false _ _ => True
  | _ => False
  end.

(** Zero or finite, of either sign. *)
Definition is_finite (x : spec_float) : Prop :=
  match x with
  | S754_zero _ | S754_finite _ _ _ => True
  | _ => False
  end.

Definition nonzero_float (x : spec_float) : Prop :=
  match x with S754_zero _ => False | _ => True end.

(** A zero or a finite float with a clear sign bit. *)
Definition finite_nonneg (x : spec_float) : Prop :=
  match x with
  | S754_zero false | S754_finite false _ _ => True
  | _ => False
  end.

(** [0.0 <= v <= 100.0], on the exact value of [v]. *)
Definition in_range (v : number) : Prop :=
  exists q, number_value v = Some q /\ (0 <= q <= 100)%Q.

Definition in_rangeb (v : number) : bool :=
  match number_value v with
  | Some q => Qle_bool 0 q && Qle_bool q 100
  | None => false
  end.

(** The double nearest to [n / 100]. *)
Definition hundredths (n : positive) : spec_float :=
  fdiv (S754_finite false n 0) (exact_int 100).

(** A score with two decimals: the [int] 100 that the cap returns, 0.0,
    or the double nearest to [n / 100] for an integer [n] of 1..10000. *)
Definition two_decimals (v : number) : Prop :=
  v = PyInt 100 \/ v = PyFloat (S754_zero false) \/
  exists n, Z.pos n <= 10000 /\ v = PyFloat (hundredths n).

(** ** Extraction *)

(** The location normaliser as the specification words it: the value of
    the first keyword of the mapping that occurs in the lower-cased text,
    else the entry of the category, else ["Kerala/General"]. *)
Definition normalize (mapping : list (string * string)) (free_text category : string)
  : string :=
  match find (fun kv => contains (fst kv) (lower free_text)) mapping with
  | Some kv => snd kv
  | None =>
      match find (fun kv => (fst kv =? category)%string) mapping with
      | Some kv => snd kv
      | None => "Kerala/General"
      end
  end.

(** A page on which only the headline selectors find something. *)
Definition only_headline (soup : BeautifulSoup) : Prop :=
  (forall css, ~ In css headline_selectors -> select soup css = []) /\
  find_all soup "p" = [].

(** The world once the delay has drawn and the request is made. *)
Definition after_fetch (w : World) : World :=
  {| web := web w; requests := S (requests w); entropy := entropy w;
     draws := S (draws w); clock := clock w; ticks := ticks w |}.

(** What is known of a link that was kept from [soup]. *)
Definition kept_from (urljoin : string -> string -> string) (self : ManoramaScraper)
  (soup : BeautifulSoup) (u : string) : Prop :=
  exists selector tag href,
    In selector link_selectors /\ In tag (select soup selector) /\
    get tag "href" = Some href /\ href <> "" /\
    is_valid_article_url href = true /\
    u = urljoin (base_url self) href.

(** What the loops of [extract_article_links] maintain. *)
Definition links_invariant (urljoin : string -> string -> string) (self : ManoramaScraper)
  (soup : BeautifulSoup) (article_links : list string) : Prop :=
  NoDup article_links /\ forall u, In u article_links -> kept_from urljoin self soup u.

(** ** The collection cycle *)

(** After a call of [extract_article_data] that brings the count to the
    cap, the trace is over. *)
Fixpoint quiet_after_cap (cap : Z) (trace : list event) : Prop :=
  match trace with
  | [] => True
  | e :: post =>
      match e with
      | ArticleExtracted _ _ _ after => cap <= Z.of_nat after -> post = []
      | LinksExtracted _ _ => True
      end /\ quiet_after_cap cap post
  end.

(** Every call of [extract_article_data] was made below the cap and left
    the count at least [room] below it. *)
Definition below_cap (cap room : Z) (trace : list event) : Prop :=
  forall link category before after,
    In (ArticleExtracted link category before after) trace ->
    Z.of_nat before < cap /\ Z.of_nat after + room <= cap.

(** ** Merge *)

(** [k] is one of the keys already passed. *)
Definition seen_key (k : string * string) (seen : list (string * string)) : bool :=
  existsb (Merge.key_eqb k) seen.

(** The first row with key [k]. *)
Definition first_with_key (k : string * string) (df : list Merge.MergedRow)
  : option Merge.MergedRow :=
  find (fun r => Merge.key_eqb (Merge.key r) k) df.

(** ** Texts *)

(** [str(n)] for an [int] that is not negative. *)
Definition str_of_int (n : Z) : string := NilZero.string_of_uint (N.to_uint (Z.to_N n)).

(** No character of [s] is a digit. *)
Fixpoint no_digit (s : string) : bool :=
  match s with
  | EmptyString => true
  | String c s' => negb (is_digit c) && no_digit s'
  end.

(** Every character of [s] is a digit. *)
Fixpoint all_digits (s : string) : bool :=
  match s with
  | EmptyString => true
  | String c s' => is_digit c && all_digits s'
  end.

(** [s] does not start with a digit. *)
Definition no_leading_digit (s : string) : bool :=
  match s with
  | EmptyString => true
  | String c _ => negb (is_digit c)
  end.

(** The number of words of a text: [len(text.split())]. *)
Definition count_words (text : string) : nat := List.length (split text).

(** ** Pages and records *)

(** The selector finds nothing, or its first element has blank text. *)
Definition blank_at (soup : BeautifulSoup) (selector : string) : Prop :=
  match select_one soup selector with
  | Some element => strip (get_text element) = ""
  | None => True
  end.

(** The numbers of the page can be converted to [float]: every count the
    page shows and the number of its words are below [2 ^ 1023]. *)
Definition within_float_range (soup : BeautifulSoup) : Prop :=
  (forall f n,
      first_count (count_attribute f) soup (count_selectors f) = Some n -> n < 2 ^ 1023) /\
  extract_content_length soup < 2 ^ 1023.

(** What every record has, whatever the page. *)
Definition well_formed (self : ManoramaScraper) (a : NewsArticle) : Prop :=
  headline a <> "" /\ strip (headline a) = headline a /\
  In (location a) ("Kerala/General" :: map snd (location_mapping self)) /\
  0 <= views a /\ 0 <= comments a /\ 0 <= likes a /\ 0 <= shares a /\
  0 <= content_length a /\
  calculate_read_time (content_length a) default_wpm = Some (read_minutes a) /\
  1 <= read_minutes a /\
  calculate_engagement_score (views a) (comments a) (likes a) (shares a)
    = Some (engagement_score a) /\
  in_range (engagement_score a) /\ two_decimals (engagement_score a).

(** The category and the address of a record. *)
Definition cat_url (a : NewsArticle) : string * string := (category a, url a).

(** ** Worlds *)

(** [w'] is [w] after the program consumed some of it: the site, the
    generator and the clock are the same. *)
Definition same_outside (w w' : World) : Prop :=
  web w' = web w /\ entropy w' = entropy w /\ clock w' = clock w.

(** From [w] to [w']: no request, [d] draws at most and [t] readings of
    the clock at most. *)
Definition spent (d t : nat) (w w' : World) : Prop :=
  same_outside w w' /\ requests w' = requests w /\
  (draws w <= draws w' <= draws w + d)%nat /\ (ticks w <= ticks w' <= ticks w + t)%nat.

(** ** Links *)



(** The links a category may keep: [max_articles // len(categories)]. *)
Definition share (self : ManoramaScraper) : Z :=
  max_articles self / Z.of_nat (List.length (categories self)).

(** ** Runs *)

(** [l1] is [l2] with some of its elements left out. *)
Inductive subsequence {A : Type} : list A -> list A -> Prop :=
| subsequence_nil : subsequence [] []
| subsequence_keep x l1 l2 : subsequence l1 l2 -> subsequence (x :: l1) (x :: l2)
| subsequence_skip x l1 l2 : subsequence l1 l2 -> subsequence l1 (x :: l2).

(** The calls of [extract_article_data] of a run, in order: the category
    and the link of each. *)
Fixpoint visited (trace : list event) : list (string * string) :=
  match trace with
  | [] => []
  | ArticleExtracted link category _ _ :: rest => (category, link) :: visited rest
  | LinksExtracted _ _ :: rest => visited rest
  end.

(** The links that [extract_article_links] returned in a run, in order,
    each with its category. *)
Fixpoint listed (trace : list event) : list (string * string) :=
  match trace with
  | [] => []
  | LinksExtracted category links :: rest => map (pair category) links ++ listed rest
  | ArticleExtracted _ _ _ _ :: rest => listed rest
  end.

(** The categories whose page was requested in a run, in order. *)
Fixpoint fetched (trace : list event) : list string :=
  match trace with
  | [] => []
  | LinksExtracted category _ :: rest => category :: fetched rest
  | ArticleExtracted _ _ _ _ :: rest => fetched rest
  end.


(** ** Where the model and Python agree *)

(** Every character of [s] is in the ASCII range.  On such a text
    [str.strip], [str.split], [str.lower] and the class [\d] are the
    functions of [PyStr]. *)
Fixpoint is_ascii (s : string) : bool :=
  match s with
  | EmptyString => true
  | String c s' => (nat_of_ascii c <? 128)%nat && is_ascii s'
  end.

(** [int(s)] raises [ValueError] on a text of more digits than this. *)
Definition max_str_digits : nat := 4300.

(** A text on which [int(re.search(...).group(1))] is what [parse_count]
    computes: in the ASCII range and not longer than [max_str_digits]. *)
Definition plain_text (s : string) : Prop :=
  is_ascii s = true /\ (String.length s <= max_str_digits)%nat.

(** A reference on which [urljoin] returns: in the ASCII range and
    without a bracket ([urllib.parse] raises only on the network location
    of a reference, when it is outside the ASCII range or holds a
    bracket). *)
Definition joinable (url : string) : bool :=
  is_ascii url && negb (contains "[" url) && negb (contains "]" url).

(** Every [href] of the anchors the link selectors find is joinable. *)
Definition joinable_page (soup : BeautifulSoup) : Prop :=
  forall selector tag href,
    In selector link_selectors -> In tag (select soup selector) ->
    get tag "href" = Some href -> joinable href = true.

(** The texts the headline selectors find are in the ASCII range, and
    the texts the count selectors find are plain. *)
Definition plain_page (soup : BeautifulSoup) : Prop :=
  (forall selector element,
      In selector headline_selectors -> select_one soup selector = Some element ->
      is_ascii (get_text element) = true) /\
  (forall f selector element,
      In selector (count_selectors f) -> select_one soup selector = Some element ->
      plain_text (count_text (count_attribute f) element)).

(** ** The check of the cap *)

(** The trace does not start with a call of [extract_article_data]. *)
Definition starts_with_links (trace : list event) : Prop :=
  match trace with
  | ArticleExtracted _ _ _ _ :: _ => False
  | _ => True
  end.

(** A call of [extract_article_data] that is followed by another one,
    with no category page in between, left the count below the cap. *)
Fixpoint break_respected (cap : Z) (trace : list event) : Prop :=
  match trace with
  | [] => True
  | e :: post =>
      match e, post with
      | ArticleExtracted _ _ _ after, ArticleExtracted _ _ _ _ :: _ => Z.of_nat after < cap
      | _, _ => True
      end /\ break_respected cap post
  end.

End Props.

(* ================================================================== *)
(** * Sample pages, worlds and files *)
(* ================================================================== *)

Module Fixtures.
Import PyStr PyNum Html Env Scraper.

(** A page whose only elements are those [t] lists under the selector
    [css]. *)
Definition soup_with (css : string) (t : list Tag) : BeautifulSoup :=
  {| select := fun s => if (s =? css)%string then t else []; find_all := fun _ => [] |}.

Definition text_tag (text : string) : Tag := {| get_text := text; attrs := [] |}.

(** A world in which every request fails, the generator returns 7 and the
    clock reads noon. *)
Definition still_world : World :=
  {| web := fun _ _ => None; requests := 0; entropy := fun _ => 7; draws := 0;
     clock := fun _ => "2024-01-01T12:00:00"; ticks := 0 |}.

Definition scraper : ManoramaScraper := init default_base_url 100.

(** An element shown as "1,234 views" that also carries
    [data-views="9999"]; the attribute selector of [extract_views] finds
    it. *)
Definition counter_tag : Tag :=
  {| get_text := "1,234 views"; attrs := [("data-views", "9999")] |}.

Definition counter_soup : BeautifulSoup := soup_with "[data-views]" [counter_tag].

(** [urljoin] on a base without a path and a reference that starts with
    a slash: the concatenation. *)
Definition plain_urljoin (base url : string) : string := (base ++ url)%string.

(** An article page with a headline and nothing else. *)
Definition article_page : BeautifulSoup :=
  soup_with "h1" [text_tag "Monsoon arrives early"].

(** An anchor with the given [href]. *)
Definition anchor (href : string) : Tag :=
  {| get_text := "Monsoon arrives early"; attrs := [("href", href)] |}.

(** A category page that links to one story four times: plainly, with a
    fragment, through a share button, and plainly again. *)
Definition category_page : BeautifulSoup :=
  soup_with (hd "" link_selectors)
    [ anchor "/news/story.html";
      anchor "/news/story.html#comments";
      anchor "https://www.FACEBOOK.com/sharer?u=/news/story.html";
      anchor "/news/story.html" ].

(** A site on which every category page lists the same story. *)
Definition site_world : World :=
  {| web := fun url _ => if contains "story" url then Some article_page else Some category_page;
     requests := 0; entropy := fun n => Z.of_nat n * 7919; draws := 0;
     clock := fun _ => "2024-01-01T12:00:00"; ticks := 0 |}.

(** [urljoin] on the same kind of arguments when the reference holds tab
    or newline characters: [urllib.parse] removes them before it joins. *)
Definition stripping_urljoin (base url : string) : string :=
  (base ++ remove_char (ascii_of_nat 9) (remove_char (ascii_of_nat 10)
             (remove_char (ascii_of_nat 13) url)))%string.

(** A reference with a tab between the [e] and the [l] of [tel:]. *)
Definition tabbed_href : string :=
  ("/news/te" ++ String (ascii_of_nat 9) "l:1.html")%string.

(** A site whose pages link to [tabbed_href]. *)
Definition tabbed_world : World :=
  {| web := fun _ _ => Some (soup_with (hd "" link_selectors) [anchor tabbed_href]);
     requests := 0; entropy := fun _ => 7; draws := 0;
     clock := fun _ => "2024-01-01T12:00:00"; ticks := 0 |}.

(** Two runs that scraped the same story. *)
Definition monsoon : Merge.Row :=
  {| Merge.headline := "Monsoon arrives early"; Merge.date := "2024-06-01T08:00:00";
     Merge.columns := [("views", "1200")] |}.

Definition monsoon_again : Merge.Row :=
  {| Merge.headline := "Monsoon arrives early"; Merge.date := "2024-06-01T08:00:00";
     Merge.columns := [("views", "5400")] |}.

(** A page with two headings under [h1], the first of them blank, and a
    title. *)
Definition blank_heading_page : BeautifulSoup :=
  {| select := fun css =>
       if (css =? "h1")%string then [text_tag "   "; text_tag "Hidden"]
       else if (css =? "title")%string then [text_tag " Rain at last "]
       else [];
     find_all := fun _ => [] |}.

(** A page whose [time] element carries a [datetime] attribute that is
    not an ISO date. *)
Definition dated_page : BeautifulSoup :=
  soup_with "time[datetime]"
    [ {| get_text := "2 days ago"; attrs := [("datetime", "1 June 2024")] |} ].

(** A page whose first location element names no known place and whose
    dateline does. *)
Definition dateline_page : BeautifulSoup :=
  {| select := fun css =>
       if (css =? ".location")%string then [text_tag "From our desk"]
       else if (css =? ".dateline")%string then [text_tag " KOCHI, Friday "]
       else [];
     find_all := fun _ => [] |}.

(** A page whose body container is empty and that has two paragraphs. *)
Definition paragraphs_page : BeautifulSoup :=
  {| select := fun css => if (css =? ".content")%string then [text_tag ""] else [];
     find_all := fun name =>
       if (name =? "p")%string
       then [text_tag "Rain reached the coast"; text_tag " on Monday. "]
       else [] |}.

(** A category page with three stories. *)
Definition busy_page : BeautifulSoup :=
  soup_with (hd "" link_selectors)
    [ anchor "/news/story-1.html"; anchor "/news/story-2.html"; anchor "/news/story-3.html" ].

(** A site on which every category page is [busy_page]. *)
Definition busy_world : World :=
  {| web := fun url _ => if contains "story" url then Some article_page else Some busy_page;
     requests := 0; entropy := fun n => Z.of_nat n * 7919; draws := 0;
     clock := fun _ => "2024-01-01T12:00:00"; ticks := 0 |}.


(** Two more rows: another story, and the first story on a later date. *)
Definition harvest : Merge.Row :=
  {| Merge.headline := "Harvest festival opens"; Merge.date := "2024-06-02T09:30:00";
     Merge.columns := [("views", "800")] |}.

Definition monsoon_later : Merge.Row :=
  {| Merge.headline := "Monsoon arrives early"; Merge.date := "2024-06-03T08:00:00";
     Merge.columns := [("views", "300")] |}.

End Fixtures.

(* ================================================================== *)
(** * Binary64 arithmetic and the two calculators *)
(* ================================================================== *)

Module PyNumFacts.

Import PyNum Scraper Props.

Lemma fexp_eq e : fexp prec emax e = Z.max (e - 53) (-1074).
Proof. reflexivity. Qed.

Lemma digits2_size p : digits2_pos p = Pos.size p.
Proof. induction p; simpl; congruence. Qed.

Lemma Zdigits2_nonneg m : 0 <= Zdigits2 m.
Proof. destruct m; simpl; lia. Qed.

Lemma Zdigits2_gt m : 0 <= m -> m < 2 ^ Zdigits2 m.
Proof.
  destruct m as [|p|p]; simpl; try lia.
  intros _. rewrite digits2_size.
  pose proof (Pos.size_gt p) as H.
  apply Pos2Z.pos_lt_pos in H. rewrite Pos2Z.inj_pow in H. exact H.
Qed.

Lemma Zdigits2_le m k : 0 <= m -> 0 <= k -> m < 2 ^ k -> Zdigits2 m <= k.
Proof.
  destruct m as [|p|p]; simpl; try lia.
  intros _ Hk Hlt. rewrite digits2_size.
  pose proof (Pos.size_le p) as H.
  apply Pos2Z.pos_le_pos in H. rewrite Pos2Z.inj_pow in H.
  destruct (Z_lt_le_dec k (Z.pos (Pos.size p))) as [Hgt|]; [|assumption].
  exfalso.
  assert (2 ^ (k + 1) <= 2 ^ Z.pos (Pos.size p)) by (apply Z.pow_le_mono_r; lia).
  rewrite Z.pow_add_r in H0 by lia. change (2 ^ 1) with 2 in H0.
  change (Z.pos p~0) with (2 * Z.pos p) in H. lia.
Qed.

Lemma digits2_shift p n :
  Z.pos (digits2_pos (Pos.iter xO p n)) = Z.pos (digits2_pos p) + Z.pos n.
Proof.
  revert p. induction n using Pos.peano_ind; intros p.
  - simpl. lia.
  - rewrite Pos.iter_succ. simpl. rewrite Pos2Z.inj_succ, IHn. lia.
Qed.

Lemma shr_1_half mrs : 0 <= shr_m mrs -> shr_m (shr_1 mrs) = shr_m mrs / 2.
Proof.
  destruct mrs as [m r s]; simpl. intros Hm.
  destruct m as [|[q|q|]|q]; simpl; try lia; try reflexivity.
  - change (Z.pos q~1) with (2 * Z.pos q + 1). Z.div_mod_to_equations. lia.
  - change (Z.pos q~0) with (2 * Z.pos q). Z.div_mod_to_equations. lia.
Qed.

Lemma shr_iter_div p : forall mrs,
  0 <= shr_m mrs -> shr_m (iter_pos shr_1 p mrs) = shr_m mrs / 2 ^ Z.pos p.
Proof.
  induction p; intros mrs Hm; simpl iter_pos.
  - assert (H1 : 0 <= shr_m (shr_1 mrs))
      by (rewrite shr_1_half by assumption; apply Z.div_pos; lia).
    assert (H2 : 0 <= shr_m (iter_pos shr_1 p (shr_1 mrs))).
    { rewrite IHp by assumption. apply Z.div_pos; [assumption|]. apply Z.pow_pos_nonneg; lia. }
    rewrite IHp, IHp, shr_1_half by assumption.
    assert (Hp : 0 < 2 ^ Z.pos p) by (apply Z.pow_pos_nonneg; lia).
    rewrite !Z.div_div by lia.
    f_equal. change (Z.pos p~1) with (2 * Z.pos p + 1).
    replace (2 * Z.pos p + 1) with (1 + Z.pos p + Z.pos p) by lia.
    rewrite !Z.pow_add_r by lia. change (2 ^ 1) with 2. lia.
  - assert (H2 : 0 <= shr_m (iter_pos shr_1 p mrs)).
    { rewrite IHp by assumption. apply Z.div_pos; [assumption|]. apply Z.pow_pos_nonneg; lia. }
    rewrite IHp, IHp by assumption.
    assert (Hp : 0 < 2 ^ Z.pos p) by (apply Z.pow_pos_nonneg; lia).
    rewrite !Z.div_div by lia.
    f_equal. change (Z.pos p~0) with (2 * Z.pos p).
    replace (2 * Z.pos p) with (Z.pos p + Z.pos p) by lia.
    rewrite !Z.pow_add_r by lia. lia.
  - rewrite shr_1_half by assumption. reflexivity.
Qed.

Lemma shr_record_of_loc_m m l : shr_m (shr_record_of_loc m l) = m.
Proof. destruct l as [|[]]; reflexivity. Qed.

(** One normalisation step of [binary_round_aux]: the mantissa stays
    non-negative, keeps the bit bound, and the exponent is known. *)
Lemma shr_fexp_bounds m e l d :
  0 <= m -> 0 <= d -> m < 2 ^ d ->
  let '(mrs, e') := shr_fexp prec emax m e l in
  0 <= shr_m mrs /\
  e' = Z.max e (fexp prec emax (Zdigits2 m + e)) /\
  exists d', 0 <= d' /\ shr_m mrs < 2 ^ d' /\ d' + e' <= Z.max (d + e) e'.
Proof.
  intros Hm Hd Hlt. unfold shr_fexp, shr.
  destruct (fexp prec emax (Zdigits2 m + e) - e) as [|s|s] eqn:Hs.
  - rewrite shr_record_of_loc_m. split; [assumption|]. split; [lia|].
    exists d. lia.
  - assert (Hpow : 0 < 2 ^ Z.pos s) by (apply Z.pow_pos_nonneg; lia).
    rewrite shr_iter_div by (rewrite shr_record_of_loc_m; assumption).
    rewrite shr_record_of_loc_m.
    split; [apply Z.div_pos; lia|]. split; [lia|].
    destruct (Z_le_gt_dec (Z.pos s) d) as [Hsd|Hsd].
    + exists (d - Z.pos s). split; [lia|]. split; [|lia].
      apply Z.div_lt_upper_bound; [lia|].
      rewrite <- Z.pow_add_r by lia. replace (Z.pos s + (d - Z.pos s)) with d by lia.
      assumption.
    + exists 0. split; [lia|]. split; [|lia].
      rewrite Z.div_small; [simpl; lia|]. split; [assumption|].
      apply Z.lt_le_trans with (1 := Hlt). apply Z.pow_le_mono_r; lia.
  - rewrite shr_record_of_loc_m. split; [assumption|]. split; [lia|].
    exists d. lia.
Qed.

Lemma round_nearest_even_bounds m l :
  0 <= m -> m <= round_nearest_even m l <= m + 1.
Proof. intros Hm. destruct l as [|[]]; simpl; try lia. destruct (Z.even m); lia. Qed.

Lemma binary_round_aux_nonneg m e l :
  0 <= m -> nonneg_float (binary_round_aux prec emax false m e l).
Proof.
  intros Hm. unfold binary_round_aux.
  pose proof (shr_fexp_bounds m e l (Zdigits2 m) Hm (Zdigits2_nonneg m)
                (Zdigits2_gt m Hm)) as H1.
  destruct (shr_fexp prec emax m e l) as [mrs1 e1].
  destruct H1 as (Hm1 & _ & _).
  pose proof (round_nearest_even_bounds (shr_m mrs1) (loc_of_shr_record mrs1) Hm1) as Hr.
  set (m2 := round_nearest_even (shr_m mrs1) (loc_of_shr_record mrs1)) in *.
  assert (Hm2 : 0 <= m2) by lia.
  pose proof (shr_fexp_bounds m2 e1 loc_Exact (Zdigits2 m2) Hm2 (Zdigits2_nonneg m2)
                (Zdigits2_gt m2 Hm2)) as H2.
  destruct (shr_fexp prec emax m2 e1 loc_Exact) as [mrs2 e2].
  destruct H2 as (Hm3 & _ & _).
  destruct (shr_m mrs2); [exact I| |lia].
  destruct (_ <=? _); exact I.
Qed.

Lemma binary_round_aux_finite s m e l :
  0 <= m -> Zdigits2 m + e <= 1023 -> e <= 971 ->
  is_finite (binary_round_aux prec emax s m e l).
Proof.
  intros Hm Hd He. unfold binary_round_aux.
  pose proof (shr_fexp_bounds m e l (Zdigits2 m) Hm (Zdigits2_nonneg m)
                (Zdigits2_gt m Hm)) as H1.
  destruct (shr_fexp prec emax m e l) as [mrs1 e1].
  destruct H1 as (Hm1 & He1 & d1 & Hd1 & Hlt1 & Hsum1).
  rewrite fexp_eq in He1.
  pose proof (round_nearest_even_bounds (shr_m mrs1) (loc_of_shr_record mrs1) Hm1) as Hr.
  set (m2 := round_nearest_even (shr_m mrs1) (loc_of_shr_record mrs1)) in *.
  assert (Hm2 : 0 <= m2) by lia.
  assert (Hlt2 : m2 < 2 ^ (d1 + 1)).
  { rewrite Z.pow_add_r by lia. change (2 ^ 1) with 2. lia. }
  pose proof (Zdigits2_le m2 (d1 + 1) Hm2 ltac:(lia) Hlt2) as Hdig2.
  pose proof (shr_fexp_bounds m2 e1 loc_Exact (Zdigits2 m2) Hm2 (Zdigits2_nonneg m2)
                (Zdigits2_gt m2 Hm2)) as H2.
  destruct (shr_fexp prec emax m2 e1 loc_Exact) as [mrs2 e2].
  destruct H2 as (Hm3 & He2 & _).
  rewrite fexp_eq in He2.
  destruct (shr_m mrs2) as [|p|p]; try lia; [exact I|].
  replace (e2 <=? emax - prec) with true; [exact I|].
  symmetry. apply Z.leb_le. unfold emax, prec. lia.
Qed.

Lemma Zdigits2_lower m : 0 < m -> 2 ^ (Zdigits2 m - 1) <= m.
Proof.
  destruct m as [|p|p]; try lia. intros _.
  change (Zdigits2 (Z.pos p)) with (Z.pos (digits2_pos p)). rewrite digits2_size.
  pose proof (Pos.size_le p) as H.
  apply Pos2Z.pos_le_pos in H. rewrite Pos2Z.inj_pow in H.
  change (Z.pos p~0) with (2 * Z.pos p) in H.
  replace (Z.pos (Pos.size p)) with (1 + (Z.pos (Pos.size p) - 1)) in H by lia.
  rewrite Z.pow_add_r in H by lia. change (2 ^ 1) with 2 in H. lia.
Qed.

(** A normalisation step does not lose a mantissa whose value is above
    the smallest subnormal. *)
Lemma shr_fexp_pos m e l :
  0 < m -> -1074 < Zdigits2 m + e ->
  0 < shr_m (fst (shr_fexp prec emax m e l)).
Proof.
  intros Hm Hd. unfold shr_fexp, shr. rewrite fexp_eq.
  pose proof (Zdigits2_lower m Hm) as Hlow.
  destruct (Z.max (Zdigits2 m + e - 53) (-1074) - e) as [|s|s] eqn:Hs; simpl fst;
    try (rewrite shr_record_of_loc_m; assumption).
  rewrite shr_iter_div by (rewrite shr_record_of_loc_m; lia).
  rewrite shr_record_of_loc_m.
  apply Z.div_str_pos. split; [apply Z.pow_pos_nonneg; lia|].
  apply Z.le_trans with (2 := Hlow). apply Z.pow_le_mono_r; lia.
Qed.

Lemma binary_round_aux_nonzero s m e l :
  0 < m -> -1074 < Zdigits2 m + e ->
  nonzero_float (binary_round_aux prec emax s m e l).
Proof.
  intros Hm Hd. unfold binary_round_aux.
  pose proof (shr_fexp_pos m e l Hm Hd) as Hpos.
  pose proof (shr_fexp_bounds m e l (Zdigits2 m) ltac:(lia) (Zdigits2_nonneg m)
                (Zdigits2_gt m ltac:(lia))) as H1.
  destruct (shr_fexp prec emax m e l) as [mrs1 e1]. simpl fst in Hpos.
  destruct H1 as (Hm1 & He1 & _). rewrite fexp_eq in He1.
  pose proof (round_nearest_even_bounds (shr_m mrs1) (loc_of_shr_record mrs1) Hm1) as Hr.
  set (m2 := round_nearest_even (shr_m mrs1) (loc_of_shr_record mrs1)) in *.
  assert (Hm2 : 0 < m2) by lia.
  assert (Hd2 : 1 <= Zdigits2 m2).
  { destruct m2; simpl; lia. }
  pose proof (shr_fexp_pos m2 e1 loc_Exact Hm2 ltac:(lia)) as Hpos2.
  destruct (shr_fexp prec emax m2 e1 loc_Exact) as [mrs2 e2]. simpl fst in Hpos2.
  destruct (shr_m mrs2); [lia| |exact I].
  destruct (_ <=? _); exact I.
Qed.

Lemma shl_align_digits mx ex ex' :
  Z.pos (digits2_pos (fst (shl_align mx ex ex'))) + snd (shl_align mx ex ex')
    = Z.pos (digits2_pos mx) + ex
  /\ snd (shl_align mx ex ex') <= ex.
Proof.
  unfold shl_align. destruct (ex' - ex) as [|d|d] eqn:Hd; simpl fst; simpl snd; try lia.
  rewrite digits2_shift. lia.
Qed.

Lemma binary_round_nonneg p e : nonneg_float (binary_round prec emax false p e).
Proof.
  unfold binary_round. destruct (shl_align _ _ _) as [mz ez].
  apply binary_round_aux_nonneg. lia.
Qed.

(** An [int] operand that is not negative converts to a float that is not
    negative. *)
Lemma float_of_int_nonneg z x :
  0 <= z -> float_of_int z = Some x -> finite_nonneg x.
Proof.
  unfold float_of_int. intros Hz.
  destruct z as [|p|p]; try lia; simpl binary_normalize.
  - intros [= <-]. exact I.
  - pose proof (binary_round_nonneg p 0) as H.
    destruct (binary_round prec emax false p 0) as [[]|[]| |[] m e]; simpl in H;
      try contradiction; try discriminate; intros [= <-]; exact I.
Qed.

(** A positive [int] converts to a positive float. *)
Lemma float_of_int_pos z x :
  0 < z -> float_of_int z = Some x -> exists m e, x = S754_finite false m e.
Proof.
  intros Hz Hx. pose proof (float_of_int_nonneg z x ltac:(lia) Hx) as Hn.
  unfold float_of_int in Hx. destruct z as [|p|p]; try lia. simpl binary_normalize in Hx.
  assert (Hnz : nonzero_float (binary_round prec emax false p 0)).
  { unfold binary_round.
    pose proof (shl_align_digits p 0 (fexp prec emax (Z.pos (digits2_pos p) + 0))) as [Hd _].
    destruct (shl_align _ _ _) as [mz ez]. simpl fst in Hd; simpl snd in Hd.
    apply binary_round_aux_nonzero; [lia|]. simpl Zdigits2. lia. }
  destruct (binary_round prec emax false p 0) as [[]|[]| |[] m e]; simpl in Hnz;
    try contradiction; try discriminate; injection Hx as <-; simpl in Hn;
    try contradiction; eauto.
Qed.

(** Conversion raises only beyond the range of binary64. *)
Lemma float_of_int_total z :
  0 <= z < 2 ^ 1023 -> exists x, float_of_int z = Some x.
Proof.
  intros [Hz Hlt]. unfold float_of_int.
  destruct z as [|p|p]; try lia; simpl binary_normalize; [eauto|].
  assert (Hf : is_finite (binary_round prec emax false p 0)).
  { unfold binary_round.
    pose proof (shl_align_digits p 0 (fexp prec emax (Z.pos (digits2_pos p) + 0))) as [Hd He].
    destruct (shl_align _ _ _) as [mz ez]. simpl fst in Hd; simpl snd in Hd, He.
    pose proof (Zdigits2_le (Z.pos p) 1023 ltac:(lia) ltac:(lia) Hlt) as Hdp.
    simpl Zdigits2 in Hdp.
    apply binary_round_aux_finite; [lia| simpl Zdigits2; lia | lia]. }
  destruct (binary_round prec emax false p 0); simpl in Hf; try contradiction; eauto.
Qed.

Lemma finite_nonneg_nonneg x : finite_nonneg x -> nonneg_float x.
Proof. destruct x as [[]|[]| |[] m e]; simpl; auto. Qed.

Lemma fmul_nonneg x my ey :
  nonneg_float x -> nonneg_float (fmul x (S754_finite false my ey)).
Proof.
  unfold fmul, SFmul.
  destruct x as [[]|[]| |[] mx ex]; simpl nonneg_float; try contradiction; intros _;
    try exact I.
  apply binary_round_aux_nonneg. lia.
Qed.

Lemma fadd_nonneg x y :
  nonneg_float x -> nonneg_float y -> nonneg_float (fadd x y).
Proof.
  unfold fadd, SFadd.
  destruct x as [[]|[]| |[] mx ex]; simpl nonneg_float; try contradiction; intros _;
    destruct y as [[]|[]| |[] my ey]; simpl nonneg_float; try contradiction; intros _;
    try exact I.
  unfold cond_Zopp.
  destruct (shl_align mx ex (Z.min ex ey)) as [a ea].
  destruct (shl_align my ey (Z.min ex ey)) as [b eb]. simpl fst.
  change (Z.pos a + Z.pos b) with (Z.pos (a + b)).
  apply binary_round_nonneg.
Qed.

(** The quotient and exponent handed to the rounding step of a division
    of two positive mantissas. *)
Lemma SFdiv_core_binary_bounds m1 e1 m2 e2 :
  0 < m1 -> 0 < m2 ->
  let '(q, e', _) := SFdiv_core_binary prec emax m1 e1 m2 e2 in
  0 <= q /\ e' <= e1 - e2 /\ Zdigits2 q + e' <= Zdigits2 m1 + (e1 - e2).
Proof.
  intros H1 H2. unfold SFdiv_core_binary.
  set (e' := Z.min _ (e1 - e2)).
  assert (He' : e' <= e1 - e2) by (subst e'; lia).
  set (m' := match e1 - e2 - e' with
             | Z0 => m1
             | Z.pos _ => Z.shiftl m1 (e1 - e2 - e')
             | Z.neg _ => 0
             end).
  assert (Hm' : m' = m1 * 2 ^ (e1 - e2 - e')).
  { subst m'. destruct (e1 - e2 - e') as [|s|s] eqn:Hs;
      [rewrite Z.pow_0_r; lia | apply Z.shiftl_mul_pow2; lia | lia]. }
  pose proof (Z.pow_pos_nonneg 2 (e1 - e2 - e') ltac:(lia) ltac:(lia)) as Hpow.
  assert (Hq : Z.div_eucl m' m2 = (m' / m2, m' mod m2)).
  { unfold Z.div, Z.modulo. destruct (Z.div_eucl m' m2). reflexivity. }
  rewrite Hq.
  assert (Hq0 : 0 <= m' / m2) by (apply Z.div_pos; nia).
  split; [assumption|]. split; [assumption|].
  assert (Hle : m' / m2 <= m').
  { apply Z.div_le_upper_bound; nia. }
  pose proof (Zdigits2_gt m1 ltac:(lia)) as Hd1.
  assert (Hlt : m' / m2 < 2 ^ (Zdigits2 m1 + (e1 - e2 - e'))).
  { rewrite Z.pow_add_r by (pose proof (Zdigits2_nonneg m1); lia). nia. }
  pose proof (Zdigits2_le (m' / m2) (Zdigits2 m1 + (e1 - e2 - e')) Hq0
                ltac:(pose proof (Zdigits2_nonneg m1); lia) Hlt).
  lia.
Qed.

Lemma fdiv_nonneg x my ey :
  nonneg_float x -> nonneg_float (fdiv x (S754_finite false my ey)).
Proof.
  unfold fdiv, SFdiv.
  destruct x as [[]|[]| |[] mx ex]; simpl nonneg_float; try contradiction; intros _;
    try exact I.
  pose proof (SFdiv_core_binary_bounds (Z.pos mx) ex (Z.pos my) ey ltac:(lia) ltac:(lia)) as H.
  destruct (SFdiv_core_binary prec emax (Z.pos mx) ex (Z.pos my) ey) as [[q e'] l].
  apply binary_round_aux_nonneg. lia.
Qed.

(** The quotient of two integers is a finite float unless the divisor is
    zero or the dividend is beyond the range of binary64. *)
Lemma int_true_div_total a b :
  0 <= a < 2 ^ 1023 -> b <> 0 -> exists q, int_true_div a b = Some q /\ is_finite q.
Proof.
  intros [Ha Hlt] Hb. unfold int_true_div.
  replace (b =? 0) with false by (symmetry; apply Z.eqb_neq; lia).
  assert (Hb' : exists sb pb, exact_int b = S754_finite sb pb 0).
  { destruct b as [|pb|pb]; [lia| |]; simpl; eauto. }
  destruct Hb' as (sb & pb & ->).
  destruct a as [|pa|pa]; try lia.
  - simpl. eexists; split; [reflexivity|exact I].
  - unfold exact_int, fdiv, SFdiv.
    pose proof (SFdiv_core_binary_bounds (Z.pos pa) 0 (Z.pos pb) 0 ltac:(lia) ltac:(lia)) as H.
    destruct (SFdiv_core_binary prec emax (Z.pos pa) 0 (Z.pos pb) 0) as [[q e'] l].
    destruct H as (Hq & He & Hd).
    pose proof (Zdigits2_le (Z.pos pa) 1023 ltac:(lia) ltac:(lia) Hlt) as Hda.
    pose proof (binary_round_aux_finite (xorb false sb) q e' l Hq ltac:(lia) ltac:(lia)) as Hfin.
    destruct (binary_round_aux prec emax (xorb false sb) q e' l);
      simpl in Hfin; try contradiction; eexists; split; try reflexivity; exact I.
Qed.

Lemma float_of_int_100 : float_of_int 100 = Some (S754_finite false 7036874417766400 (-46)).
Proof. vm_compute. reflexivity. Qed.

(** The weighted sum is never negative and never NaN. *)
Lemma engagement_nonneg views comments likes shares e :
  0 < views -> 0 <= comments -> 0 <= likes -> 0 <= shares ->
  engagement views comments likes shares = Some e -> nonneg_float e.
Proof.
  intros Hv Hc Hl Hs. unfold engagement.
  destruct (float_of_int comments) as [c|] eqn:Ec; [|discriminate].
  destruct (float_of_int likes) as [l|] eqn:El; [|discriminate].
  destruct (float_of_int shares) as [s|] eqn:Es; [|discriminate].
  destruct (float_of_int views) as [v|] eqn:Ev; [|discriminate].
  rewrite float_of_int_100. intros [= <-].
  apply float_of_int_nonneg in Ec, El, Es; try assumption.
  apply finite_nonneg_nonneg in Ec, El, Es.
  destruct (float_of_int_pos views v Hv Ev) as (mv & ev & ->).
  apply fmul_nonneg, fdiv_nonneg.
  unfold lit_0_4, lit_0_3.
  repeat apply fadd_nonneg; apply fmul_nonneg; assumption.
Qed.

Lemma engagement_total views comments likes shares :
  0 <= views < 2 ^ 1023 -> 0 <= comments < 2 ^ 1023 ->
  0 <= likes < 2 ^ 1023 -> 0 <= shares < 2 ^ 1023 ->
  exists e, engagement views comments likes shares = Some e.
Proof.
  intros Hv Hc Hl Hs. unfold engagement.
  destruct (float_of_int_total comments Hc) as [c ->].
  destruct (float_of_int_total likes Hl) as [l ->].
  destruct (float_of_int_total shares Hs) as [s ->].
  destruct (float_of_int_total views Hv) as [v ->].
  rewrite float_of_int_100. eauto.
Qed.

(** ** The range of the score *)

Lemma in_rangeb_sound v : in_rangeb v = true -> in_range v.
Proof.
  unfold in_rangeb, in_range. destruct (number_value v) as [q|]; [|discriminate].
  intros H. apply andb_prop in H as [H1 H2].
  apply Qle_bool_iff in H1, H2. exists q. auto.
Qed.

Lemma hundredths_table :
  forallb (fun k => in_rangeb (PyFloat (hundredths (Pos.of_nat k))))
    (seq 1 (Pos.to_nat 10000)) = true.
Proof. vm_compute. reflexivity. Qed.

Lemma hundredths_in_range n :
  Z.pos n <= 10000 -> in_range (PyFloat (hundredths n)).
Proof.
  intros Hn. apply in_rangeb_sound.
  pose proof hundredths_table as H. rewrite forallb_forall in H.
  specialize (H (Pos.to_nat n)). rewrite Pos2Nat.id in H. apply H.
  apply in_seq. lia.
Qed.

Lemma round_half_even_div_bounds a b k :
  0 <= a -> 0 < b -> a <= k * b ->
  0 <= round_half_even_div a b <= k.
Proof.
  intros Ha Hb Hk. unfold round_half_even_div.
  pose proof (Z.div_mod a b ltac:(lia)) as Hdm.
  pose proof (Z.mod_pos_bound a b Hb) as Hr.
  pose proof (Z.div_pos a b Ha Hb) as Hq.
  assert (Hqk : a / b <= k) by nia.
  assert (Hstrict : a / b = k -> a mod b = 0) by nia.
  destruct (Z.compare_spec (2 * (a mod b)) b) as [Heq|Hlt|Hgt].
  - destruct (Z.even (a / b)); [lia|].
    assert (a / b <> k) by (intros E; apply Hstrict in E; lia). lia.
  - lia.
  - assert (a / b <> k) by (intros E; apply Hstrict in E; lia). lia.
Qed.

Lemma round_scaled_capped m e :
  int_lt_float 100 (S754_finite false m e) = false ->
  0 <= round_scaled m e 100 <= 10000.
Proof.
  unfold int_lt_float, round_scaled, signed.
  destruct (Z.leb_spec 0 e) as [He|He]; intros H; apply Z.ltb_ge in H.
  - pose proof (Z.pow_pos_nonneg 2 e ltac:(lia) He). nia.
  - pose proof (Z.pow_pos_nonneg 2 (- e) ltac:(lia) ltac:(lia)).
    apply round_half_even_div_bounds; lia.
Qed.

(** Capping at 100 and rounding gives a number of two decimals. *)
Lemma capped_score_two_decimals e :
  nonneg_float e -> two_decimals (round_ndigits (min_float_int e 100) 2).
Proof.
  intros He. unfold min_float_int, two_decimals.
  destruct (int_lt_float 100 e) eqn:Hlt; [left; reflexivity|right].
  destruct e as [[]|[]| |[] m ex]; simpl in He; try contradiction; try discriminate.
  - left. reflexivity.
  - unfold round_ndigits, float_round.
    change (10 ^ Z.of_nat 2) with 100.
    pose proof (round_scaled_capped m ex Hlt) as Hn.
    destruct (round_scaled m ex 100) as [|n|n]; try lia.
    + left. reflexivity.
    + right. exists n. split; [lia|reflexivity].
Qed.

(** A number of two decimals lies in [0, 100]. *)
Lemma two_decimals_in_range v : two_decimals v -> in_range v.
Proof.
  intros [->|[->|(n & Hn & ->)]].
  - exists (inject_Z 100). split; [reflexivity|]. split; discriminate.
  - exists 0%Q. split; [reflexivity|]. split; discriminate.
  - apply hundredths_in_range. assumption.
Qed.

(** ** The two calculators *)

(** The two literals are the doubles 0x3FD999999999999A and
    0x3FD3333333333333. *)
Lemma literal_values :
  lit_0_4 = S754_finite false 7205759403792794 (-54) /\
  lit_0_3 = S754_finite false 5404319552844595 (-54).
Proof. split; reflexivity. Qed.

(** Some scores: 1.9, the cap (the [int] 100 that [min] returns), 1.47,
    and a count that does not fit a float. *)
Lemma engagement_score_examples :
  calculate_engagement_score 1000 10 20 30 = Some (PyFloat (decimal_literal 19 1)) /\
  calculate_engagement_score 100 200 1000 500 = Some (PyInt 100) /\
  calculate_engagement_score 1234 17 33 5 = Some (PyFloat (decimal_literal 147 2)) /\
  calculate_engagement_score 1 (2 ^ 1024) 0 0 = None.
Proof. vm_compute. repeat split; reflexivity. Qed.

(** Some read times: 2.5 and 3.5 minutes round to the even neighbour, and
    a quotient beyond the range of binary64 raises. *)
Lemma read_time_examples :
  calculate_read_time 500 default_wpm = Some 2 /\
  calculate_read_time 700 default_wpm = Some 4 /\
  calculate_read_time 99 default_wpm = Some 1 /\
  calculate_read_time (2 ^ 1024 * 200) default_wpm = None /\
  calculate_read_time 400 0 = None.
Proof. vm_compute. repeat split; reflexivity. Qed.

(** C1. For non-negative counts, [calculate_engagement_score] returns
    exactly 0.0 when [views] is 0 whatever the other counts are; the score
    it returns lies between 0 and 100 and has two decimals, and for
    [views] other than 0 it is
    [(comments*0.4 + likes*0.3 + shares*0.3) / views * 100], capped at 100
    and rounded to two decimals.  The call raises ([None]) only when a
    count is too large to be converted to a float. *)
Theorem engagement_score_in_range views comments likes shares :
  0 <= views -> 0 <= comments -> 0 <= likes -> 0 <= shares ->
  calculate_engagement_score 0 comments likes shares = Some (PyFloat (S754_zero false)) /\
  match calculate_engagement_score views comments likes shares with
  | Some score =>
      in_range score /\ two_decimals score /\
      (views <> 0 ->
       exists c l s v h,
         float_of_int comments = Some c /\ float_of_int likes = Some l /\
         float_of_int shares = Some s /\ float_of_int views = Some v /\
         float_of_int 100 = Some h /\
         score =
           round_ndigits
             (min_float_int
                (fmul (fdiv (fadd (fadd (fmul c lit_0_4) (fmul l lit_0_3)) (fmul s lit_0_3)) v) h)
                100)
             2)
  | None => 2 ^ 1023 <= Z.max (Z.max views comments) (Z.max likes shares)
  end.
Proof.
  intros Hv Hc Hl Hs. split; [reflexivity|].
  unfold calculate_engagement_score.
  destruct (Z.eqb_spec views 0) as [->|Hne].
  - assert (H0 : two_decimals (PyFloat (S754_zero false))) by (right; left; reflexivity).
    split; [apply two_decimals_in_range; assumption|].
    split; [assumption|intros H; contradiction].
  - destruct (engagement views comments likes shares) as [e|] eqn:He.
    + assert (H2 : two_decimals (round_ndigits (min_float_int e 100) 2)).
      { apply capped_score_two_decimals.
        apply (engagement_nonneg views comments likes shares); auto; lia. }
      split; [apply two_decimals_in_range; assumption|]. split; [assumption|].
      * intros _. unfold engagement in He.
        destruct (float_of_int comments) as [c|]; [|discriminate].
        destruct (float_of_int likes) as [l|]; [|discriminate].
        destruct (float_of_int shares) as [s|]; [|discriminate].
        destruct (float_of_int views) as [v|]; [|discriminate].
        destruct (float_of_int 100) as [h|]; [|discriminate].
        injection He as <-. exists c, l, s, v, h. repeat split; reflexivity.
    + destruct (Z_lt_le_dec (Z.max (Z.max views comments) (Z.max likes shares)) (2 ^ 1023))
        as [Hsmall|]; [exfalso|assumption].
      destruct (engagement_total views comments likes shares) as [e He']; try lia.
      congruence.
Qed.

Lemma engagement_score_in_range_witness :
  exists score,
    calculate_engagement_score 1000 10 20 30 = Some score /\ in_range score.
Proof.
  pose proof (engagement_score_in_range 1000 10 20 30
                ltac:(discriminate) ltac:(discriminate) ltac:(discriminate) ltac:(discriminate))
    as [_ H].
  destruct (calculate_engagement_score 1000 10 20 30) as [score|] eqn:E.
  - exists score. split; [reflexivity|apply H].
  - discriminate E.
Defined.

(** The read time of the first ten thousand word counts, computed with
    exact rational arithmetic. *)
Lemma read_time_table :
  forallb
    (fun k =>
       match calculate_read_time (Z.of_nat k) default_wpm with
       | Some minutes => minutes =? Z.max 1 (round_half_even_div (Z.of_nat k) default_wpm)
       | None => false
       end)
    (seq 0 (Pos.to_nat 10001)) = true.
Proof. vm_compute. reflexivity. Qed.

(** C9. For a word count that is not negative, [calculate_read_time] is
    [max(1, round(word_count / wpm))], hence at least 1; it is 1 for an
    empty text and 2 for 400 words at the default 200 words per minute.
    Up to ten thousand words the float quotient rounds as the exact
    quotient does.  The call raises only for a zero [wpm] or a word count
    beyond the range of binary64. *)
Theorem read_time_at_least_one word_count wpm :
  0 <= word_count ->
  match calculate_read_time word_count wpm with
  | Some minutes =>
      1 <= minutes /\
      exists q r, int_true_div word_count wpm = Some q /\
                  float_round_int q = Some r /\ minutes = Z.max 1 r
  | None => wpm = 0 \/ 2 ^ 1023 <= word_count
  end /\
  (word_count <= 10000 ->
   calculate_read_time word_count default_wpm
     = Some (Z.max 1 (round_half_even_div word_count default_wpm))) /\
  calculate_read_time 0 default_wpm = Some 1 /\
  calculate_read_time 400 default_wpm = Some 2.
Proof.
  intros Hw. split; [|split; [|split; reflexivity]].
  - unfold calculate_read_time.
    destruct (int_true_div word_count wpm) as [q|] eqn:Hq.
    + destruct (float_round_int q) as [r|] eqn:Hr.
      * split; [lia|]. exists q, r. auto.
      * exfalso. unfold int_true_div in Hq.
        destruct (wpm =? 0); [discriminate|].
        destruct (fdiv (exact_int word_count) (exact_int wpm)); try discriminate;
          injection Hq as <-; discriminate.
    + destruct (Z.eq_dec wpm 0) as [|Hne]; [left; assumption|right].
      destruct (Z_lt_le_dec word_count (2 ^ 1023)) as [Hsmall|]; [exfalso|assumption].
      destruct (int_true_div_total word_count wpm ltac:(lia) Hne) as (q & Hq' & _).
      congruence.
  - intros Hle.
    pose proof read_time_table as H. rewrite forallb_forall in H.
    specialize (H (Z.to_nat word_count)). rewrite Z2Nat.id in H by assumption.
    assert (Hin : In (Z.to_nat word_count) (seq 0 (Pos.to_nat 10001))) by (apply in_seq; lia).
    apply H in Hin.
    destruct (calculate_read_time word_count default_wpm) as [m|]; [|discriminate].
    apply Z.eqb_eq in Hin. congruence.
Qed.

Lemma read_time_at_least_one_witness :
  calculate_read_time 1234 default_wpm = Some 6.
Proof.
  pose proof (read_time_at_least_one 1234 default_wpm ltac:(discriminate)) as (_ & H & _).
  rewrite H; [reflexivity | discriminate].
Defined.

End PyNumFacts.

(* ================================================================== *)
(** * Extraction, link filtering and the collection cycle *)
(* ================================================================== *)

Module ScraperFacts.
Import PyStr PyNum Html Env Scraper Props Fixtures.

(** ** Dates *)

Lemma parse_with_now patterns date_str w :
  parse_with patterns date_str w = now_isoformat w.
Proof.
  induction patterns as [|pattern rest IH]; simpl; [reflexivity|].
  destruct (re_search pattern date_str); [reflexivity|apply IH].
Qed.

(** C8. Whatever the text, [parse_date_string] returns the reading of the
    clock: a text in one of the three supported formats is recognised,
    and the result still does not depend on it. *)
Theorem parse_date_string_is_now :
  (forall date_str w, parse_date_string date_str w = now_isoformat w) /\
  (forall s1 s2 w, parse_date_string s1 w = parse_date_string s2 w) /\
  map (fun pattern_text => re_search (fst pattern_text) (snd pattern_text))
    (combine date_patterns ["25/12/2023"; "2023-12-25"; "25 December 2023"])
  = [true; true; true].
Proof.
  split; [|split].
  - intros. apply parse_with_now.
  - intros. unfold parse_date_string. now rewrite !parse_with_now.
  - vm_compute. reflexivity.
Qed.

(** ** Locations *)

Lemma first_keyword_find mapping text :
  first_keyword mapping text
  = option_map snd (find (fun kv => contains (fst kv) text) mapping).
Proof.
  induction mapping as [|[k v] rest IH]; simpl; [reflexivity|].
  destruct (contains k text); [reflexivity|apply IH].
Qed.

Lemma dict_get_find mapping k :
  dict_get mapping k = option_map snd (find (fun kv => (fst kv =? k)%string) mapping).
Proof.
  induction mapping as [|[k' v] rest IH]; simpl; [reflexivity|].
  destruct (k' =? k)%string; [reflexivity|apply IH].
Qed.

Lemma first_location_single mapping css text selectors :
  In css selectors ->
  first_location mapping (soup_with css [text_tag text]) selectors
  = first_keyword mapping (lower (strip text)).
Proof.
  induction selectors as [|s rest IH]; simpl; [contradiction|].
  intros Hin. unfold select_one. simpl.
  destruct (String.eqb_spec s css) as [->|Hne].
  - simpl. destruct (first_keyword mapping (lower (strip text))) eqn:E; [reflexivity|].
    clear IH Hin. induction rest as [|s' rest' IH']; simpl; [reflexivity|].
    unfold select_one. simpl. destruct (s' =? css)%string; simpl; [rewrite E|]; apply IH'.
  - simpl. apply IH. destruct Hin; [congruence|assumption].
Qed.

(** C4. On a page whose dateline (under any of the location selectors)
    reads [text], [extract_location] is the normaliser of the
    specification applied to the trimmed text; the three examples of the
    specification evaluate as stated. *)
Theorem extract_location_normalizes :
  (forall self css text category,
      In css location_selectors ->
      extract_location self (soup_with css [text_tag text]) category
      = normalize (location_mapping self) (strip text) category) /\
  extract_location scraper (soup_with ".dateline" [text_tag "Kochi city report"]) "kerala"
    = "Kerala/Ernakulam" /\
  extract_location scraper (soup_with ".dateline" [text_tag "no-location-text"]) "world"
    = "International" /\
  extract_location scraper (soup_with ".dateline" [text_tag "nonsense"]) "unknown-category"
    = "Kerala/General" /\
  normalize (location_mapping scraper) "Kochi city report" "kerala" = "Kerala/Ernakulam" /\
  normalize (location_mapping scraper) "no-location-text" "world" = "International" /\
  normalize (location_mapping scraper) "nonsense" "unknown-category" = "Kerala/General".
Proof.
  split; [|repeat split; reflexivity].
  intros self css text category Hin.
  unfold extract_location, normalize.
  rewrite (first_location_single _ _ _ _ Hin), first_keyword_find, dict_get_find.
  destruct (find _ (location_mapping self)); simpl; [reflexivity|].
  destruct (find _ (location_mapping self)); reflexivity.
Qed.

(** ** Counts *)

Lemma first_count_app attribute soup pre rest :
  first_count attribute soup pre = None ->
  first_count attribute soup (pre ++ rest) = first_count attribute soup rest.
Proof.
  induction pre as [|s pre IH]; simpl; [reflexivity|].
  destruct (select_one soup s) as [element|]; [|exact IH].
  destruct (parse_count (count_text attribute element)); [discriminate|exact IH].
Qed.

(** C3, as the code has it.  For each of the four count fields: when the
    first candidate selector that yields a count matches an element whose
    text is not empty, the count is read from the text, whatever the
    structured attribute holds; the attribute is read only when the text
    is empty, and an element whose text has no digit is passed over
    without a look at its attribute. *)
Theorem extract_count_prefers_text (f : count_field) soup w pre selector post element :
  count_selectors f = pre ++ selector :: post ->
  first_count (count_attribute f) soup pre = None ->
  select_one soup selector = Some element ->
  (forall n, get_text element <> "" ->
             parse_count (get_text element) = Some n ->
             extract_count f soup w = (n, w)) /\
  (forall n, get_text element = "" ->
             parse_count (get_or_empty element (count_attribute f)) = Some n ->
             extract_count f soup w = (n, w)) /\
  (get_text element <> "" ->
   parse_count (get_text element) = None ->
   first_count (count_attribute f) soup (count_selectors f)
   = first_count (count_attribute f) soup post).
Proof.
  intros Hsel Hpre Hel.
  assert (Hloop : first_count (count_attribute f) soup (count_selectors f)
                  = match parse_count (count_text (count_attribute f) element) with
                    | Some n => Some n
                    | None => first_count (count_attribute f) soup post
                    end).
  { rewrite Hsel, (first_count_app _ _ _ _ Hpre). simpl. rewrite Hel. reflexivity. }
  assert (Htext : get_text element <> "" ->
                  count_text (count_attribute f) element = get_text element).
  { intros Hne. unfold count_text, truthy.
    destruct (String.eqb_spec (get_text element) ""); [contradiction|reflexivity]. }
  assert (Hattr : get_text element = "" ->
                  count_text (count_attribute f) element
                  = get_or_empty element (count_attribute f)).
  { intros He. unfold count_text, truthy. rewrite He. reflexivity. }
  repeat split.
  - intros n Hne Hn. unfold extract_count. rewrite Hloop, (Htext Hne), Hn. reflexivity.
  - intros n He Hn. unfold extract_count. rewrite Hloop, (Hattr He), Hn. reflexivity.
  - intros Hne Hn. rewrite Hloop, (Htext Hne), Hn. reflexivity.
Qed.

Lemma extract_count_prefers_text_witness :
  extract_count Views counter_soup still_world = (1234, still_world).
Proof.
  refine (proj1 (extract_count_prefers_text Views counter_soup still_world
                   [".view-count"; ".views"] "[data-views]" [] counter_tag
                   eq_refl eq_refl eq_refl) 1234 _ eq_refl).
  discriminate.
Defined.

(** C3 fails as stated: the element that the selector [[data-views]]
    finds carries the attribute (9999) and a text ("1,234 views"), and
    [extract_views] returns the number of the text. *)
Lemma extract_views_ignores_attribute :
  first_count "data-views" counter_soup [".view-count"; ".views"] = None /\
  select_one counter_soup "[data-views]" = Some counter_tag /\
  get counter_tag "data-views" = Some "9999" /\
  parse_count "9999" = Some 9999 /\
  get_text counter_tag = "1,234 views" /\
  fst (extract_views counter_soup still_world) = 1234 /\
  fst (extract_views counter_soup still_world) <> 9999.
Proof. repeat split; try reflexivity. discriminate. Qed.

(** ** Assembling a record *)

Lemma randint_range a b w : a <= b -> a <= fst (randint a b w) <= b.
Proof.
  intros Hab. unfold randint, bind, next_draw, ret. simpl.
  pose proof (Z.mod_pos_bound (entropy w (draws w)) (b - a + 1) ltac:(lia)). lia.
Qed.

Lemma first_date_none soup selectors w :
  (forall css, In css selectors -> select soup css = []) ->
  first_date soup selectors w = now_isoformat w.
Proof.
  induction selectors as [|s rest IH]; intros H; simpl; [reflexivity|].
  unfold select_one. rewrite (H s) by (left; reflexivity). simpl.
  apply IH. intros css Hin. apply H. right. assumption.
Qed.

Lemma first_location_none mapping soup selectors :
  (forall css, In css selectors -> select soup css = []) ->
  first_location mapping soup selectors = None.
Proof.
  induction selectors as [|s rest IH]; intros H; simpl; [reflexivity|].
  unfold select_one. rewrite (H s) by (left; reflexivity). simpl.
  apply IH. intros css Hin. apply H. right. assumption.
Qed.

Lemma first_count_none attribute soup selectors :
  (forall css, In css selectors -> select soup css = []) ->
  first_count attribute soup selectors = None.
Proof.
  induction selectors as [|s rest IH]; intros H; simpl; [reflexivity|].
  unfold select_one. rewrite (H s) by (left; reflexivity). simpl.
  apply IH. intros css Hin. apply H. right. assumption.
Qed.

Lemma first_content_none soup selectors :
  (forall css, In css selectors -> select soup css = []) ->
  first_content soup selectors = "".
Proof.
  induction selectors as [|s rest IH]; intros H; simpl; [reflexivity|].
  unfold select_one. rewrite (H s) by (left; reflexivity). simpl.
  apply IH. intros css Hin. apply H. right. assumption.
Qed.

Ltac not_a_headline_selector :=
  let H := fresh in
  intros ? H; match goal with Hb : forall css, _ -> select _ css = [] |- _ => apply Hb end;
  simpl in H; unfold headline_selectors; simpl;
  intuition (subst; discriminate).

Lemma extract_count_simulated f soup w :
  (forall css, ~ In css headline_selectors -> select soup css = []) ->
  extract_count f soup w = randint (fst (simulated_range f)) (snd (simulated_range f)) w.
Proof.
  intros Hb. unfold extract_count. rewrite first_count_none; [reflexivity|].
  destruct f; not_a_headline_selector.
Qed.

Lemma calculate_engagement_score_total views comments likes shares :
  0 <= views < 2 ^ 1023 -> 0 <= comments < 2 ^ 1023 ->
  0 <= likes < 2 ^ 1023 -> 0 <= shares < 2 ^ 1023 ->
  exists score, calculate_engagement_score views comments likes shares = Some score.
Proof.
  intros Hv Hc Hl Hs. unfold calculate_engagement_score.
  destruct (views =? 0); [eauto|].
  destruct (PyNumFacts.engagement_total views comments likes shares Hv Hc Hl Hs) as [e ->].
  eauto.
Qed.

Lemma small_count n : 0 <= n <= 50000 -> 0 <= n < 2 ^ 1023.
Proof.
  intros H. split; [lia|].
  apply Z.le_lt_trans with (m := 2 ^ 16); [change (2 ^ 16) with 65536; lia|].
  apply Z.pow_lt_mono_r; lia.
Qed.

Lemma truthy_false s : truthy s = false <-> s = "".
Proof.
  unfold truthy. destruct (String.eqb_spec s ""); simpl; split; intros; congruence.
Qed.

Lemma extract_content_length_none soup :
  only_headline soup -> extract_content_length soup = 0.
Proof.
  intros [Hb Hp]. unfold extract_content_length.
  rewrite first_content_none by not_a_headline_selector.
  rewrite Hp. reflexivity.
Qed.

Lemma article_of_page_fetched self url category w soup :
  web w url (requests w) = Some soup ->
  article_of_page self url category w = article_of_soup self soup url category (after_fetch w).
Proof.
  intros Hweb. unfold article_of_page, bind, random_delay, bind, next_draw, ret, http_get.
  cbn [web requests entropy draws clock ticks]. rewrite Hweb. reflexivity.
Qed.

(** C7. A page that was fetched yields no record exactly when its
    headline resolves to the empty string, unless the extraction raises;
    a page that has a headline and none of the other fields still yields
    a record, with the fallback value of each missing field. *)
Theorem extract_article_data_rejects_only_empty_headline self url category w soup :
  web w url (requests w) = Some soup ->
  (forall r w', article_of_page self url category w = (Returned r, w') ->
                extract_article_data self url category w = (r, w') /\
                (r = None <-> extract_headline soup = "")) /\
  (extract_headline soup = "" ->
   fst (extract_article_data self url category w) = None) /\
  (extract_headline soup <> "" -> only_headline soup ->
   exists a,
     fst (extract_article_data self url category w) = Some a /\
     headline a = extract_headline soup /\
     date a = clock w (ticks w) /\
     location a = match dict_get (location_mapping self) category with
                  | Some value => value
                  | None => "Kerala/General"
                  end /\
     100 <= views a <= 50000 /\ 0 <= comments a <= 200 /\
     0 <= likes a <= 1000 /\ 0 <= shares a <= 500 /\
     content_length a = 0 /\ read_minutes a = 1 /\
     calculate_engagement_score (views a) (comments a) (likes a) (shares a)
       = Some (engagement_score a)).
Proof.
  intros Hweb.
  pose proof (article_of_page_fetched self url category w soup Hweb) as Hpage.
  unfold extract_article_data.
  split; [|split].
  - intros r w' Hrun. split.
    { unfold bind. rewrite Hrun. reflexivity. }
    revert Hrun. rewrite Hpage. unfold article_of_soup, bind, ret.
    destruct (truthy (extract_headline soup)) eqn:Hh; cbn [negb].
    + destruct (extract_date soup _) as [d w3].
      destruct (extract_views soup w3) as [v w4].
      destruct (extract_comments soup w4) as [c w5].
      destruct (extract_likes soup w5) as [l w6].
      destruct (extract_shares soup w6) as [s w7].
      destruct (calculate_read_time _ _); [|discriminate].
      destruct (calculate_engagement_score _ _ _ _); [|discriminate].
      intros [= <- _]. split; [discriminate|].
      intros E. apply truthy_false in E. congruence.
    + intros [= <- _]. split; [intros _; apply truthy_false; assumption|reflexivity].
  - intros E. unfold bind at 1. rewrite Hpage. unfold article_of_soup.
    rewrite E. reflexivity.
  - intros Hne [Hb Hp].
    assert (Hh : truthy (extract_headline soup) = true).
    { destruct (truthy (extract_headline soup)) eqn:E; [reflexivity|].
      apply truthy_false in E. contradiction. }
    unfold bind at 1. rewrite Hpage. unfold article_of_soup.
    rewrite Hh. cbn [negb].
    unfold bind at 1. unfold extract_date.
    rewrite first_date_none by not_a_headline_selector.
    unfold now_isoformat, after_fetch. cbn [web requests entropy draws clock ticks].
    unfold extract_views, extract_comments, extract_likes, extract_shares.
    unfold bind.
    rewrite (extract_count_simulated Views) by assumption.
    pose proof (randint_range 100 50000 (snd (now_isoformat (after_fetch w))) ltac:(lia))
      as Hv.
    unfold now_isoformat, after_fetch in Hv.
    cbn [web requests entropy draws clock ticks snd] in Hv.
    cbn [simulated_range fst snd].
    match goal with
    | |- context [randint 100 50000 ?w3] => destruct (randint 100 50000 w3) as [v w4]
    end.
    rewrite (extract_count_simulated Comments) by assumption. cbn [simulated_range fst snd].
    pose proof (randint_range 0 200 w4 ltac:(lia)) as Hc.
    destruct (randint 0 200 w4) as [c w5].
    rewrite (extract_count_simulated Likes) by assumption. cbn [simulated_range fst snd].
    pose proof (randint_range 0 1000 w5 ltac:(lia)) as Hl.
    destruct (randint 0 1000 w5) as [l w6].
    rewrite (extract_count_simulated Shares) by assumption. cbn [simulated_range fst snd].
    pose proof (randint_range 0 500 w6 ltac:(lia)) as Hs.
    destruct (randint 0 500 w6) as [s w7].
    cbn [fst] in Hv, Hc, Hl, Hs.
    rewrite (extract_content_length_none soup (conj Hb Hp)).
    change (calculate_read_time 0 default_wpm) with (Some 1).
    destruct (calculate_engagement_score_total v c l s) as [score Hscore];
      try (apply small_count; lia).
    rewrite Hscore. unfold ret. cbn [fst].
    eexists. split; [reflexivity|]. cbn [headline date location views comments likes shares
      content_length read_minutes engagement_score].
    unfold extract_location.
    rewrite first_location_none by not_a_headline_selector.
    repeat split; try lia; try reflexivity. exact Hscore.
Qed.

(** ** Links *)

Lemma eqb_hash_to_lower c : Ascii.eqb "#" (to_lower c) = Ascii.eqb "#" c.
Proof. destruct c as [[] [] [] [] [] [] [] []]; reflexivity. Qed.

Lemma contains_hash_cons c s :
  contains "#" (String c s) = Ascii.eqb "#" c || contains "#" s.
Proof.
  change (contains "#" (String c s))
    with (Ascii.eqb "#" c && starts_with "" s || contains "#" s).
  destruct s; rewrite andb_true_r; reflexivity.
Qed.

Lemma contains_hash_lower s : contains "#" (lower s) = contains "#" s.
Proof.
  induction s as [|c s IH]; [reflexivity|].
  change (lower (String c s)) with (String (to_lower c) (lower s)).
  rewrite !contains_hash_cons, eqb_hash_to_lower, IH. reflexivity.
Qed.

Lemma is_valid_article_url_spec href :
  is_valid_article_url href = true <->
  forall pattern, In pattern invalid_patterns -> contains pattern (lower href) = false.
Proof.
  unfold is_valid_article_url. rewrite negb_true_iff. split.
  - intros H pattern Hin.
    destruct (contains pattern (lower href)) eqn:E; [|reflexivity].
    assert (existsb (fun p => contains p (lower href)) invalid_patterns = true)
      by (apply existsb_exists; eauto).
    congruence.
  - intros H. destruct (existsb _ invalid_patterns) eqn:E; [|reflexivity].
    apply existsb_exists in E as (pattern & Hin & Hc). rewrite (H _ Hin) in Hc. discriminate.
Qed.

Lemma existsb_eqb_false x l : existsb (String.eqb x) l = false -> ~ In x l.
Proof.
  intros H Hin.
  assert (existsb (String.eqb x) l = true)
    by (apply existsb_exists; exists x; split; [assumption|apply String.eqb_refl]).
  congruence.
Qed.

Lemma NoDup_snoc {A} (l : list A) x : NoDup l -> ~ In x l -> NoDup (l ++ [x]).
Proof.
  induction 1 as [|y l Hy Hl IH]; intros Hx; simpl.
  - constructor; [intros []|constructor].
  - constructor.
    + rewrite in_app_iff. simpl. intros [H|[H|[]]]; [contradiction|].
      subst. apply Hx. left. reflexivity.
    + apply IH. intros H. apply Hx. right. assumption.
Qed.

Lemma NoDup_firstn {A} n (l : list A) : NoDup l -> NoDup (firstn n l).
Proof.
  revert l. induction n as [|n IH]; intros l Hl; simpl; [constructor|].
  destruct l as [|x l]; [constructor|].
  inversion Hl as [|? ? Hx Hl']; subst. constructor; [|apply IH; assumption].
  intros H. apply Hx. revert H. clear. revert l.
  induction n as [|n IH]; intros [|y l]; simpl; try contradiction.
  intros [->|H]; [left; reflexivity|right; apply IH; assumption].
Qed.

Lemma In_firstn {A} n (l : list A) x : In x (firstn n l) -> In x l.
Proof.
  revert l. induction n as [|n IH]; intros [|y l]; simpl; try contradiction.
  intros [->|H]; [left; reflexivity|right; apply IH; assumption].
Qed.

Lemma slice_to_length {A} (l : list A) k :
  0 <= k -> Z.of_nat (List.length (slice_to l k)) <= k.
Proof.
  intros Hk. unfold slice_to. destruct (Z.leb_spec 0 k); [|lia].
  rewrite length_firstn. lia.
Qed.

Section LinkFacts.

Variable urljoin : string -> string -> string.

Lemma add_link_invariant self soup selector tag article_links :
  In selector link_selectors -> In tag (select soup selector) ->
  links_invariant urljoin self soup article_links ->
  links_invariant urljoin self soup (add_link urljoin self article_links tag).
Proof.
  intros Hsel Htag [Hnd Hall]. unfold add_link.
  destruct (get tag "href") as [href|] eqn:Hhref; [|split; assumption].
  destruct (truthy href) eqn:Ht; simpl; [|split; assumption].
  destruct (is_valid_article_url href) eqn:Hv; [|split; assumption].
  destruct (existsb _ article_links) eqn:Hex; [split; assumption|].
  split.
  - apply NoDup_snoc; [assumption|]. apply existsb_eqb_false. assumption.
  - intros u Hin. apply in_app_iff in Hin as [Hin|[<-|[]]]; [auto|].
    exists selector, tag, href. repeat split; try assumption.
    intros ->. discriminate.
Qed.

Lemma collect_links_invariant self soup :
  links_invariant urljoin self soup (collect_links urljoin self soup).
Proof.
  unfold collect_links.
  assert (Hgen : forall selectors acc,
             (forall s, In s selectors -> In s link_selectors) ->
             links_invariant urljoin self soup acc ->
             links_invariant urljoin self soup
               (fold_left (fun article_links selector =>
                             fold_left (add_link urljoin self) (select soup selector) article_links)
                          selectors acc)).
  { induction selectors as [|s rest IH]; intros acc Hsub Hacc; simpl; [assumption|].
    apply IH; [intros s' H'; apply Hsub; right; assumption|].
    assert (Htags : forall tags acc',
               (forall t, In t tags -> In t (select soup s)) ->
               links_invariant urljoin self soup acc' ->
               links_invariant urljoin self soup (fold_left (add_link urljoin self) tags acc')).
    { induction tags as [|t tags IHt]; intros acc' Ht Hacc'; simpl; [assumption|].
      apply IHt; [intros t' H'; apply Ht; right; assumption|].
      apply (add_link_invariant self soup s); auto.
      - apply Hsub. left. reflexivity.
      - apply Ht. left. reflexivity. }
    apply Htags; auto. }
  apply Hgen; [auto|]. split; [constructor|intros u []].
Qed.

(** C10, as the code has it.  The links returned for a category are
    pairwise distinct, and each is [urljoin(base_url, href)] for a
    non-empty [href] of the page that contains none of the blocked
    substrings, case-insensitively; in particular an [href] with a [#] is
    never kept.  The filter reads the [href], not the joined URL. *)
Theorem extract_article_links_distinct_and_filtered self category_url w :
  NoDup (fst (extract_article_links urljoin self category_url w)) /\
  (forall u, In u (fst (extract_article_links urljoin self category_url w)) ->
     exists soup selector tag href,
       web w (urljoin (base_url self) category_url) (requests w) = Some soup /\
       In selector link_selectors /\ In tag (select soup selector) /\
       get tag "href" = Some href /\ href <> "" /\
       u = urljoin (base_url self) href /\
       forall pattern, In pattern invalid_patterns ->
                       contains pattern (lower href) = false) /\
  (forall href, contains "#" href = true -> is_valid_article_url href = false).
Proof.
  split; [|split].
  - unfold extract_article_links, bind, http_get, ret. cbn [web requests].
    destruct (web w _ _) as [soup|]; [|constructor].
    destruct (categories self); [constructor|]. cbn [fst].
    unfold slice_to. destruct (_ <=? _); apply NoDup_firstn, collect_links_invariant.
  - unfold extract_article_links, bind, http_get, ret. cbn [web requests].
    destruct (web w _ _) as [soup|]; [|intros u []].
    destruct (categories self); [intros u []|]. cbn [fst].
    intros u Hin.
    assert (Hin' : In u (collect_links urljoin self soup)).
    { unfold slice_to in Hin. destruct (_ <=? _); apply In_firstn in Hin; assumption. }
    destruct (collect_links_invariant self soup) as [_ Hall].
    destruct (Hall u Hin') as (selector & tag & href & H1 & H2 & H3 & H4 & H5 & H6).
    exists soup, selector, tag, href. repeat split; try assumption.
    apply is_valid_article_url_spec. assumption.
  - intros href Hc. destruct (is_valid_article_url href) eqn:E; [|reflexivity].
    rewrite is_valid_article_url_spec in E.
    rewrite <- contains_hash_lower, (E "#") in Hc; [discriminate|].
    simpl. auto.
Qed.

(** ** The collection cycle *)

Lemma quiet_after_cap_split cap trace pre link category before after post :
  quiet_after_cap cap trace ->
  trace = pre ++ ArticleExtracted link category before after :: post ->
  cap <= Z.of_nat after -> post = [].
Proof.
  revert trace. induction pre as [|e pre IH]; intros trace Hq -> Hcap; simpl in Hq.
  - destruct Hq as [H _]. auto.
  - destruct Hq as [_ Hq]. eapply IH; eauto.
Qed.

Lemma quiet_after_cap_app cap room t1 t2 :
  quiet_after_cap cap t1 -> quiet_after_cap cap t2 ->
  below_cap cap room t1 -> (t2 <> [] -> 0 < room) ->
  quiet_after_cap cap (t1 ++ t2).
Proof.
  intros H1 H2 Hb Hroom. induction t1 as [|e t1 IH]; simpl; [assumption|].
  destruct H1 as [He H1]. split.
  - destruct e as [|link category before after]; [exact I|].
    intros Hcap. destruct t2 as [|e2 t2]; [rewrite app_nil_r; auto|].
    exfalso. specialize (Hroom ltac:(discriminate)).
    destruct (Hb link category before after ltac:(left; reflexivity)). lia.
  - apply IH; [assumption|].
    intros l c b a Hin. apply (Hb l c b a). right. assumption.
Qed.

Lemma scrape_links_capped self category links :
  forall all_articles room w all_articles' trace w',
    0 <= room ->
    Z.of_nat (List.length all_articles) + Z.of_nat (List.length links) + room
      <= max_articles self ->
    scrape_links self category links all_articles w = (all_articles', trace, w') ->
    Z.of_nat (List.length all_articles') + room <= max_articles self /\
    quiet_after_cap (max_articles self) trace /\
    below_cap (max_articles self) room trace /\
    (links = [] -> trace = []).
Proof.
  induction links as [|link rest IH]; intros all_articles room w all2 trace w' Hroom Hcap Hrun;
    simpl in Hrun.
  - unfold ret in Hrun. injection Hrun as <- <- <-. simpl in Hcap.
    split; [lia|split; [exact I|split; [intros l c b a []|reflexivity]]].
  - unfold bind at 1 in Hrun.
    destruct (extract_article_data self link category w) as [article w1].
    set (all' := match article with Some a => all_articles ++ [a] | None => all_articles end) in *.
    assert (Hlen : (List.length all_articles <= List.length all'
                    <= S (List.length all_articles))%nat).
    { subst all'. destruct article; [rewrite length_app; simpl|]; lia. }
    simpl List.length in Hcap.
    destruct (Z.of_nat (List.length all') >=? max_articles self) eqn:Hge.
    + unfold ret in Hrun. injection Hrun as <- <- <-.
      split; [lia|]. split; [split; [intros _; reflexivity|exact I]|].
      split; [|discriminate].
      intros l c b a [[= <- <- <- <-]|[]]. lia.
    + unfold bind, ret in Hrun.
      destruct (scrape_links self category rest all' w1) as [[all3 tr] w2] eqn:Hrest.
      cbn [fst snd] in Hrun. injection Hrun as <- <- <-.
      destruct (IH all' room w1 all3 tr w2 Hroom ltac:(lia) Hrest) as (H1 & H2 & H3 & H4).
      assert (Hlt : Z.of_nat (List.length all') < max_articles self).
      { rewrite Z.geb_leb in Hge. apply Z.leb_gt in Hge. exact Hge. }
      split; [assumption|]. split; [|split; [|discriminate]].
      * simpl. split; [lia|assumption].
      * intros l c b a [[= <- <- <- <-]|Hin]; [lia|]. apply (H3 _ _ _ _ Hin).
Qed.

Lemma extract_article_links_length self category_url w :
  0 <= max_articles self ->
  Z.of_nat (List.length (fst (extract_article_links urljoin self category_url w)))
    <= max_articles self / Z.of_nat (List.length (categories self)).
Proof.
  intros Hmax. unfold extract_article_links, bind, http_get, ret. cbn [web requests].
  assert (Hk : 0 <= max_articles self / Z.of_nat (List.length (categories self))).
  { destruct (categories self) as [|c cs]; [simpl; rewrite Z.div_0_r; lia|].
    apply Z.div_pos; [assumption|]. simpl List.length. lia. }
  destruct (web w _ _) as [soup|]; [|exact Hk].
  destruct (categories self) as [|c cs] eqn:Hc; [exact Hk|].
  cbn [fst]. apply slice_to_length. assumption.
Qed.

Lemma scrape_categories_capped self cats :
  forall all_articles w all_articles' trace w',
    0 <= max_articles self ->
    Z.of_nat (List.length all_articles)
      + max_articles self / Z.of_nat (List.length (categories self))
        * Z.of_nat (List.length cats)
      <= max_articles self ->
    scrape_categories urljoin self cats all_articles w = (all_articles', trace, w') ->
    Z.of_nat (List.length all_articles') <= max_articles self /\
    quiet_after_cap (max_articles self) trace /\
    below_cap (max_articles self) 0 trace.
Proof.
  set (k := max_articles self / Z.of_nat (List.length (categories self))).
  induction cats as [|[category category_url] rest IH];
    intros all_articles w all2 trace w' Hmax Hcap Hrun; simpl in Hrun.
  - unfold ret in Hrun. injection Hrun as <- <- <-. simpl in Hcap.
    split; [lia|split; [exact I|intros l c b a []]].
  - unfold bind at 1 in Hrun.
    pose proof (extract_article_links_length self category_url w Hmax) as Hlinks.
    fold k in Hlinks.
    destruct (extract_article_links urljoin self category_url w) as [links w1].
    cbn [fst] in Hlinks.
    unfold bind at 1 in Hrun.
    destruct (scrape_links self category links all_articles w1) as [[all1 tr1] w2] eqn:Hin.
    unfold bind, ret in Hrun. cbn [fst snd] in Hrun.
    destruct (scrape_categories urljoin self rest all1 w2) as [[all3 tr2] w3] eqn:Hout.
    cbn [fst snd] in Hrun. injection Hrun as <- <- <-.
    simpl List.length in Hcap.
    assert (Hk : 0 <= k) by (pose proof (Zle_0_nat (List.length links)); lia).
    assert (Hroom : 0 <= k * Z.of_nat (List.length rest)) by nia.
    destruct (scrape_links_capped self category links all_articles
                (k * Z.of_nat (List.length rest)) w1 all1 tr1 w2 Hroom ltac:(nia) Hin)
      as (H1 & H2 & H3 & H4).
    destruct (IH all1 w2 all3 tr2 w3 Hmax H1 Hout) as (G1 & G2 & G3).
    split; [assumption|]. split.
    + simpl. split; [exact I|].
      destruct links as [|l' links'].
      * rewrite (H4 eq_refl). exact G2.
      * apply (quiet_after_cap_app _ (k * Z.of_nat (List.length rest))); try assumption.
        intros Hne.
        destruct rest as [|c' rest']; [simpl in Hout; unfold ret in Hout; congruence|].
        simpl List.length in *. nia.
    + intros l c b a [Heq|Hin']; [discriminate|].
      apply in_app_iff in Hin' as [Hin'|Hin'].
      * destruct (H3 _ _ _ _ Hin'). lia.
      * apply (G3 _ _ _ _ Hin').
Qed.

End LinkFacts.

(** ** Instances *)

Lemma site_world_article_only_headline : only_headline article_page.
Proof.
  split; [|reflexivity]. intros css Hnot. unfold article_page, soup_with. simpl.
  destruct (String.eqb_spec css "h1") as [->|]; [|reflexivity].
  exfalso. apply Hnot. simpl. auto.
Qed.

Lemma extract_article_data_rejects_only_empty_headline_witness :
  exists a,
    fst (extract_article_data scraper "https://www.manoramaonline.com/news/story.html"
           "kerala" site_world) = Some a /\
    headline a = "Monsoon arrives early" /\ read_minutes a = 1.
Proof.
  destruct (extract_article_data_rejects_only_empty_headline scraper
              "https://www.manoramaonline.com/news/story.html" "kerala" site_world
              article_page eq_refl) as (_ & _ & H).
  destruct H as (a & Ha & Hh & _ & _ & _ & _ & _ & _ & _ & Hr & _).
  - discriminate.
  - exact site_world_article_only_headline.
  - exists a. split; [exact Ha|]. split; [exact Hh|exact Hr].
Defined.

(** On [site_world] a cap of 9 is reached, by the article of the ninth
    category. *)
Lemma site_world_reaches_cap :
  List.length (fst (scrape_all_categories plain_urljoin (init default_base_url 9) site_world))
  = 9%nat.
Proof. vm_compute. reflexivity. Qed.

Lemma extract_article_links_distinct_and_filtered_witness :
  NoDup (fst (extract_article_links plain_urljoin scraper "/news/kerala.html" site_world)).
Proof.
  exact (proj1 (extract_article_links_distinct_and_filtered plain_urljoin scraper
                  "/news/kerala.html" site_world)).
Defined.

(** Of the four anchors of the category page one link is kept. *)
Lemma site_world_links :
  fst (extract_article_links plain_urljoin scraper "/news/kerala.html" site_world)
  = ["https://www.manoramaonline.com/news/story.html"].
Proof. vm_compute. reflexivity. Qed.

(** C10 fails as stated: with a base URL that contains a blocked
    substring, a link that passed the filter is returned with that
    substring in it. *)
Lemma extract_article_links_returns_blocked_substring :
  fst (extract_article_links plain_urljoin (init "https://www.youtube.com" 100)
         "/news/kerala.html" site_world)
    = ["https://www.youtube.com/news/story.html"] /\
  In "youtube.com" invalid_patterns /\
  contains "youtube.com" (lower "https://www.youtube.com/news/story.html") = true.
Proof. vm_compute. repeat split; auto 10. Qed.

(** The same happens with the default base URL when the joined URL
    differs from the [href] that was filtered: the tab that hides [tel:]
    from the filter is gone from the URL returned. *)
Lemma extract_article_links_joins_after_filter :
  is_valid_article_url tabbed_href = true /\
  fst (extract_article_links stripping_urljoin scraper "/news/kerala.html" tabbed_world)
    = ["https://www.manoramaonline.com/news/tel:1.html"] /\
  contains "tel:" (lower "https://www.manoramaonline.com/news/tel:1.html") = true.
Proof. vm_compute. repeat split; reflexivity. Qed.

End ScraperFacts.

(* ================================================================== *)
(** * Merge *)
(* ================================================================== *)

Module MergeFacts.
Import Merge Props Fixtures.

Lemma key_eqb_eq k1 k2 : key_eqb k1 k2 = true <-> k1 = k2.
Proof.
  destruct k1 as [h1 d1], k2 as [h2 d2]. unfold key_eqb. simpl.
  rewrite andb_true_iff, !String.eqb_eq. split; [intros [-> ->]; reflexivity|].
  intros [= -> ->]. auto.
Qed.

Lemma key_eqb_refl k : key_eqb k k = true.
Proof. apply key_eqb_eq. reflexivity. Qed.

Lemma key_eqb_sym k1 k2 : key_eqb k1 k2 = key_eqb k2 k1.
Proof.
  destruct (key_eqb k1 k2) eqn:E1, (key_eqb k2 k1) eqn:E2; try reflexivity.
  - apply key_eqb_eq in E1. subst. rewrite key_eqb_refl in E2. discriminate.
  - apply key_eqb_eq in E2. subst. rewrite key_eqb_refl in E1. discriminate.
Qed.

Lemma seen_key_In k seen : seen_key k seen = true <-> In k seen.
Proof.
  unfold seen_key. rewrite existsb_exists. split.
  - intros (x & Hin & Heq). apply key_eqb_eq in Heq. subst. assumption.
  - intros Hin. exists k. split; [assumption|apply key_eqb_refl].
Qed.

Lemma drop_duplicates_from_first k : forall df seen,
  first_with_key k (drop_duplicates_from seen df)
  = if seen_key k seen then None else first_with_key k df.
Proof.
  induction df as [|r rest IH]; intros seen; simpl.
  - destruct (seen_key k seen); reflexivity.
  - fold (seen_key (key r) seen).
    destruct (seen_key (key r) seen) eqn:Hr.
    + rewrite IH. destruct (seen_key k seen) eqn:Hk; [reflexivity|].
      destruct (key_eqb (key r) k) eqn:E; [|reflexivity].
      apply key_eqb_eq in E. congruence.
    + simpl. destruct (key_eqb (key r) k) eqn:E.
      * apply key_eqb_eq in E. subst k. rewrite Hr. reflexivity.
      * rewrite IH. unfold seen_key at 1. simpl. rewrite key_eqb_sym, E. reflexivity.
Qed.

Lemma drop_duplicates_from_In r : forall df seen,
  In r (drop_duplicates_from seen df) -> In r df /\ seen_key (key r) seen = false.
Proof.
  induction df as [|x rest IH]; intros seen; simpl; [contradiction|].
  fold (seen_key (key x) seen).
  destruct (seen_key (key x) seen) eqn:Hx.
  - intros H. destruct (IH _ H). auto.
  - intros [->|H]; [auto|].
    destruct (IH _ H) as [Hin Hs]. split; [auto|].
    unfold seen_key in Hs. simpl in Hs. apply orb_false_iff in Hs as [_ Hs]. exact Hs.
Qed.

Lemma drop_duplicates_from_NoDup : forall df seen,
  NoDup (map key (drop_duplicates_from seen df)).
Proof.
  induction df as [|x rest IH]; intros seen; simpl; [constructor|].
  destruct (existsb (key_eqb (key x)) seen); [apply IH|].
  simpl. constructor; [|apply IH].
  intros Hin. apply in_map_iff in Hin as (r & Hk & Hr).
  apply drop_duplicates_from_In in Hr as [_ Hs].
  unfold seen_key in Hs. simpl in Hs. rewrite Hk, key_eqb_refl in Hs. discriminate.
Qed.

Lemma first_with_key_app k df1 df2 r :
  In r df1 -> key r = k ->
  exists r', first_with_key k (df1 ++ df2) = Some r' /\ In r' df1 /\ key r' = k.
Proof.
  intros Hin Hk. induction df1 as [|x rest IH]; simpl; [contradiction|].
  destruct (key_eqb (key x) k) eqn:E.
  - exists x. apply key_eqb_eq in E. auto.
  - destruct Hin as [->|Hin]; [rewrite Hk, key_eqb_refl in E; discriminate|].
    destruct (IH Hin) as (r' & H1 & H2 & H3). exists r'. auto.
Qed.

Lemma first_with_key_unique k df r :
  NoDup (map key df) -> In r df -> key r = k -> first_with_key k df = Some r.
Proof.
  intros Hnd Hin Hk. induction df as [|x rest IH]; simpl; [contradiction|].
  inversion Hnd as [|? ? Hx Hrest]; subst.
  destruct Hin as [->|Hin]; [rewrite key_eqb_refl; reflexivity|].
  destruct (key_eqb (key x) (key r)) eqn:E; [|apply IH; assumption].
  apply key_eqb_eq in E. exfalso. apply Hx. rewrite E. apply in_map. assumption.
Qed.

Lemma tag_source file df r : In r (tag file df) -> source_file r = file.
Proof. unfold tag. rewrite in_map_iff. intros (x & <- & _). reflexivity. Qed.

Lemma merge_csv_files_Some csv_files merged :
  merge_csv_files csv_files = Some merged ->
  merged = drop_duplicates (List.concat (load csv_files)).
Proof.
  unfold merge_csv_files. destruct csv_files; [discriminate|].
  destruct (load _); [discriminate|]. intros [= <-]. reflexivity.
Qed.

Lemma load_app files1 files2 : load (files1 ++ files2) = load files1 ++ load files2.
Proof.
  induction files1 as [|[file [df|]] rest IH]; simpl; [reflexivity| |assumption].
  rewrite IH. reflexivity.
Qed.

Lemma first_with_key_skip k df1 df2 :
  (forall r, In r df1 -> key r <> k) ->
  first_with_key k (df1 ++ df2) = first_with_key k df2.
Proof.
  intros Hno. induction df1 as [|x rest IH]; simpl; [reflexivity|].
  destruct (key_eqb (key x) k) eqn:E.
  - apply key_eqb_eq in E. exfalso. apply (Hno x); [left; reflexivity|assumption].
  - apply IH. intros r Hr. apply Hno. right. assumption.
Qed.

Lemma first_with_key_Some k df r :
  first_with_key k df = Some r -> In r df /\ key r = k.
Proof.
  unfold first_with_key. intros H. apply find_some in H as [Hin Hk].
  apply key_eqb_eq in Hk. auto.
Qed.

(** C5. The merged frame has one row for each key, and for every key it
    is the first row of the concatenated inputs with that key.  So when a
    file holds a row with some headline and date and no file supplied
    before it does, the merged frame keeps exactly one row with that key,
    it carries the name of that file, and the rows of the later files with
    the same key are gone. *)
Theorem merge_keeps_first_occurrence csv_files merged :
  merge_csv_files csv_files = Some merged ->
  NoDup (map key merged) /\
  (forall k, first_with_key k merged = first_with_key k (List.concat (load csv_files))) /\
  (forall r, In r merged -> In r (List.concat (load csv_files))) /\
  (forall earlier file_a df_a later row_a,
      csv_files = earlier ++ (file_a, Some df_a) :: later ->
      (forall r, In r (List.concat (load earlier)) ->
                 key r <> (headline row_a, date row_a)) ->
      In row_a df_a ->
      exists kept,
        In kept merged /\
        key kept = (headline row_a, date row_a) /\
        source_file kept = file_a /\
        forall r, In r merged -> key r = key kept -> r = kept).
Proof.
  intros Hm. apply merge_csv_files_Some in Hm. subst merged. unfold drop_duplicates.
  split; [apply drop_duplicates_from_NoDup|].
  split; [intros k; apply drop_duplicates_from_first|].
  split; [intros r Hr; apply drop_duplicates_from_In in Hr; tauto|].
  intros earlier file_a df_a later row_a -> Hearlier Ha.
  set (k := (headline row_a, date row_a)) in *.
  set (ta := {| row := row_a; source_file := file_a |}).
  assert (Hta : In ta (tag file_a df_a)).
  { unfold tag. apply in_map_iff. exists row_a. split; [reflexivity|assumption]. }
  assert (Hframe : exists kept, first_with_key k
                     (List.concat (load (earlier ++ (file_a, Some df_a) :: later))) = Some kept
                   /\ In kept (tag file_a df_a)).
  { rewrite load_app, concat_app. cbn [load List.concat].
    rewrite (first_with_key_skip _ _ _ Hearlier).
    destruct (first_with_key_app k (tag file_a df_a) (List.concat (load later)) ta Hta eq_refl)
      as (kept & H1 & H2 & _).
    exists kept. auto. }
  destruct Hframe as (kept & Hfirst & Hsrc).
  assert (Hdd := drop_duplicates_from_first k
                   (List.concat (load (earlier ++ (file_a, Some df_a) :: later))) []).
  cbn [seen_key existsb] in Hdd. rewrite Hfirst in Hdd. clear Hfirst. rename Hdd into Hfirst.
  destruct (first_with_key_Some _ _ _ Hfirst) as [Hin Hk].
  exists kept. split; [assumption|]. split; [assumption|].
  split; [apply (tag_source _ _ _ Hsrc)|].
  intros r Hr Hkr.
  pose proof (first_with_key_unique k _ r (drop_duplicates_from_NoDup _ []) Hr
                ltac:(congruence)) as Hu.
  congruence.
Qed.

(** Rows whose keys were all passed already leave nothing. *)
Lemma drop_duplicates_from_absorb : forall df1 seen df2,
  (forall r, In r df2 -> seen_key (key r) (map key df1 ++ seen) = true) ->
  drop_duplicates_from seen (df1 ++ df2) = drop_duplicates_from seen df1.
Proof.
  induction df1 as [|x rest IH]; intros seen df2 Hall; simpl.
  - simpl in Hall. induction df2 as [|y df2 IH2]; simpl; [reflexivity|].
    fold (seen_key (key y) seen). rewrite (Hall y) by (left; reflexivity).
    apply IH2. intros r Hr. apply Hall. right. assumption.
  - fold (seen_key (key x) seen).
    destruct (seen_key (key x) seen) eqn:Hx.
    + apply IH. intros r Hr. specialize (Hall r Hr).
      apply seen_key_In in Hall. apply seen_key_In.
      simpl in Hall. destruct Hall as [<-|Hall]; [|assumption].
      apply in_or_app. right. apply seen_key_In. assumption.
    + f_equal. apply IH. intros r Hr. specialize (Hall r Hr).
      apply seen_key_In in Hall. apply seen_key_In.
      simpl in Hall. rewrite in_app_iff in *. simpl. tauto.
Qed.

(** C6. Merging a dataset supplied twice gives the rows, and so the
    number of rows, of merging it once. *)
Theorem merge_twice_same_count file1 file2 (df : list Row) :
  option_map (@List.length MergedRow) (merge_csv_files [(file1, Some df); (file2, Some df)])
  = option_map (@List.length MergedRow) (merge_csv_files [(file1, Some df)]) /\
  merge_csv_files [(file1, Some df); (file2, Some df)] = merge_csv_files [(file1, Some df)].
Proof.
  assert (H : merge_csv_files [(file1, Some df); (file2, Some df)]
              = merge_csv_files [(file1, Some df)]).
  { unfold merge_csv_files, drop_duplicates. cbn [load List.concat].
    rewrite !app_nil_r. f_equal. apply drop_duplicates_from_absorb.
    intros r Hr. apply seen_key_In. rewrite app_nil_r.
    unfold tag in *. apply in_map_iff in Hr as (x & <- & Hx).
    apply in_map_iff. exists {| row := x; source_file := file1 |}.
    split; [reflexivity|]. apply in_map_iff. eauto. }
  rewrite H. split; reflexivity.
Qed.

Lemma merge_keeps_first_occurrence_witness :
  exists kept,
    In kept (drop_duplicates (tag "run1.csv" [monsoon] ++ tag "run2.csv" [monsoon_again])) /\
    key kept = ("Monsoon arrives early", "2024-06-01T08:00:00") /\
    source_file kept = "run1.csv".
Proof.
  destruct (merge_keeps_first_occurrence
              [("run1.csv", Some [monsoon]); ("run2.csv", Some [monsoon_again])]
              (drop_duplicates (tag "run1.csv" [monsoon] ++ tag "run2.csv" [monsoon_again]))
              eq_refl) as (_ & _ & _ & H).
  destruct (H [] "run1.csv" [monsoon] [("run2.csv", Some [monsoon_again])] monsoon eq_refl)
    as (kept & H1 & H2 & H3 & _).
  - intros r [].
  - left. reflexivity.
  - exists kept. auto.
Defined.

End MergeFacts.

(* ================================================================== *)
(** * Texts: case, white space, digits and words *)
(* ================================================================== *)

Module StringFacts.

Import PyStr Props.

Lemma truthy_true s : truthy s = true <-> s <> "".
Proof.
  unfold truthy. rewrite negb_true_iff. split.
  - intros H E. subst. discriminate.
  - intros H. destruct (s =? "")%string eqn:E; [|reflexivity].
    apply String.eqb_eq in E. contradiction.
Qed.

(** ** [lower] and [in] *)

Lemma to_lower_idempotent c : to_lower (to_lower c) = to_lower c.
Proof. destruct c as [[] [] [] [] [] [] [] []]; reflexivity. Qed.

Lemma lower_idempotent s : lower (lower s) = lower s.
Proof.
  induction s as [|c s IH]; simpl; [reflexivity|].
  now rewrite to_lower_idempotent, IH.
Qed.

Lemma lower_app s t : lower (s ++ t) = (lower s ++ lower t)%string.
Proof. induction s as [|c s IH]; simpl; [reflexivity|]. now rewrite IH. Qed.

Lemma starts_with_app sub s t :
  starts_with sub s = true -> starts_with sub (s ++ t)%string = true.
Proof.
  revert s. induction sub as [|a sub IH]; intros [|b s]; simpl;
    try reflexivity; try discriminate.
  intros H. apply andb_true_iff in H as [H1 H2]. rewrite H1. simpl. now apply IH.
Qed.

Lemma contains_app_r sub s t : contains sub s = true -> contains sub (s ++ t)%string = true.
Proof.
  induction s as [|c s IH]; simpl.
  - rewrite orb_false_r. intros H. destruct sub; [|discriminate].
    destruct t; reflexivity.
  - intros H. apply orb_true_iff in H as [H|H].
    + change (String c (s ++ t)%string) with (String c s ++ t)%string.
      rewrite (starts_with_app _ _ _ H). reflexivity.
    + rewrite (IH H). apply orb_true_r.
Qed.

Lemma contains_app_l sub s t : contains sub t = true -> contains sub (s ++ t)%string = true.
Proof.
  induction s as [|c s IH]; simpl; [trivial|].
  intros H. rewrite (IH H). apply orb_true_r.
Qed.

(** ** [strip] *)

Lemma rstrip_idempotent s : rstrip (rstrip s) = rstrip s.
Proof.
  induction s as [|c s IH]; simpl; [reflexivity|].
  destruct (is_space c && (rstrip s =? "")%string) eqn:E; simpl; [reflexivity|].
  rewrite IH, E. reflexivity.
Qed.

Lemma lstrip_length s : (String.length (lstrip s) <= String.length s)%nat.
Proof.
  induction s as [|c s IH]; simpl; [lia|]. destruct (is_space c); simpl; lia.
Qed.

Lemma lstrip_idempotent s : lstrip (lstrip s) = lstrip s.
Proof.
  induction s as [|c s IH]; simpl; [reflexivity|].
  destruct (is_space c) eqn:E; [assumption|]. simpl. now rewrite E.
Qed.

(** Trimming the right end of a text that starts with a character that
    is not white space leaves that character in place. *)
Lemma lstrip_rstrip_fixed s : lstrip s = s -> lstrip (rstrip s) = rstrip s.
Proof.
  destruct s as [|c s]; simpl; [reflexivity|].
  destruct (is_space c) eqn:E.
  - intros H. exfalso. pose proof (lstrip_length s) as L.
    rewrite H in L. simpl in L. lia.
  - intros _. simpl. rewrite E. reflexivity.
Qed.

Lemma strip_idempotent s : strip (strip s) = strip s.
Proof.
  unfold strip.
  rewrite (lstrip_rstrip_fixed (lstrip s) (lstrip_idempotent s)).
  apply rstrip_idempotent.
Qed.

(** ** Digits *)

Lemma remove_char_app c s t :
  remove_char c (s ++ t) = (remove_char c s ++ remove_char c t)%string.
Proof.
  induction s as [|a s IH]; simpl; [reflexivity|].
  destruct (Ascii.eqb a c); simpl; now rewrite IH.
Qed.

Lemma no_digit_remove_char c s : no_digit s = true -> no_digit (remove_char c s) = true.
Proof.
  induction s as [|a s IH]; simpl; [trivial|].
  intros H. apply andb_true_iff in H as [H1 H2].
  destruct (Ascii.eqb a c); simpl; [auto|]. rewrite H1. simpl. auto.
Qed.

Lemma no_digit_remove_comma s : no_digit (remove_char "," s) = no_digit s.
Proof.
  induction s as [|a s IH]; simpl; [reflexivity|].
  destruct (Ascii.eqb a ",") eqn:E; simpl; rewrite IH; [|reflexivity].
  apply Ascii.eqb_eq in E. subst a. reflexivity.
Qed.

Lemma search_digits_none s : search_digits s = None <-> no_digit s = true.
Proof.
  induction s as [|c s IH]; simpl; [tauto|].
  destruct (is_digit c); simpl; [split; discriminate|exact IH].
Qed.

Lemma search_digits_skip pre s :
  no_digit pre = true -> search_digits (pre ++ s)%string = search_digits s.
Proof.
  induction pre as [|c pre IH]; simpl; [reflexivity|].
  intros H. apply andb_true_iff in H as [H1 H2].
  apply negb_true_iff in H1. rewrite H1. auto.
Qed.

Lemma take_digits_all d post :
  all_digits d = true -> no_leading_digit post = true -> take_digits (d ++ post)%string = d.
Proof.
  induction d as [|c d IH]; simpl.
  - intros _. destruct post as [|a post]; simpl; [reflexivity|].
    intros H. apply negb_true_iff in H. now rewrite H.
  - intros H Hp. apply andb_true_iff in H as [H1 H2].
    rewrite H1, IH by assumption. reflexivity.
Qed.

Lemma search_digits_all d post :
  d <> "" -> all_digits d = true -> no_leading_digit post = true ->
  search_digits (d ++ post)%string = Some d.
Proof.
  intros Hne Hd Hp. destruct d as [|c d]; [contradiction|].
  pose proof (take_digits_all _ _ Hd Hp) as T.
  simpl in Hd. apply andb_true_iff in Hd as [H1 H2].
  simpl. rewrite H1. simpl in T. rewrite H1 in T. now rewrite T.
Qed.

Lemma take_digits_all_digits s : all_digits (take_digits s) = true.
Proof.
  induction s as [|c s IH]; simpl; [reflexivity|].
  destruct (is_digit c) eqn:E; simpl; [now rewrite E|reflexivity].
Qed.

Lemma search_digits_all_digits s d : search_digits s = Some d -> all_digits d = true.
Proof.
  induction s as [|c s IH]; simpl; [discriminate|].
  destruct (is_digit c) eqn:E; [|assumption].
  intros [= <-]. simpl. rewrite E. apply take_digits_all_digits.
Qed.

Lemma digit_value_range c : is_digit c = true -> 0 <= digit_value c <= 9.
Proof.
  unfold is_digit, digit_value. cbv zeta. intros H.
  apply andb_true_iff in H as [H1 H2].
  apply Nat.leb_le in H1. apply Nat.leb_le in H2.
  revert H1 H2. generalize (nat_of_ascii c). intros n H1 H2. lia.
Qed.

Lemma int_of_digits_from_nonneg s : forall acc,
  all_digits s = true -> 0 <= acc -> 0 <= int_of_digits_from acc s.
Proof.
  induction s as [|c s IH]; intros acc; cbn [all_digits int_of_digits_from]; [trivial|].
  intros H Hacc. apply andb_true_iff in H as [H1 H2].
  apply IH; [assumption|]. pose proof (digit_value_range c H1). lia.
Qed.

(** ** [int] of a decimal numeral *)

Lemma string_of_uint_digits d : all_digits (NilEmpty.string_of_uint d) = true.
Proof. induction d; simpl; auto. Qed.

Lemma int_of_digits_from_acc d : forall acc,
  int_of_digits_from (Z.pos acc) (NilEmpty.string_of_uint d) = Z.pos (Pos.of_uint_acc d acc).
Proof.
  induction d; intros acc; cbn [NilEmpty.string_of_uint int_of_digits_from Pos.of_uint_acc];
    [reflexivity| | | | | | | | | |];
    rewrite <- IHd; f_equal; unfold digit_value;
    match goal with
    | |- context [nat_of_ascii ?c] =>
        let v := eval vm_compute in (Z.of_nat (nat_of_ascii c)) in
        change (Z.of_nat (nat_of_ascii c)) with v
    end; lia.
Qed.

Lemma int_of_digits_of_uint d :
  int_of_digits (NilEmpty.string_of_uint d) = Z.of_N (N.of_uint d).
Proof.
  unfold int_of_digits, N.of_uint.
  induction d; simpl; [reflexivity|exact IHd| | | | | | | | |];
    match goal with
    | |- int_of_digits_from ?z _ = _ =>
        let v := eval vm_compute in z in change z with v
    end; apply int_of_digits_from_acc.
Qed.

Lemma to_uint_not_nil n : N.to_uint n <> Decimal.Nil.
Proof.
  destruct n as [|p]; simpl; [discriminate|].
  intros H. pose proof (DecimalN.Unsigned.of_to (N.pos p)) as R.
  simpl in R. rewrite H in R. discriminate.
Qed.

Lemma str_of_int_eq n : str_of_int n = NilEmpty.string_of_uint (N.to_uint (Z.to_N n)).
Proof.
  unfold str_of_int. pose proof (to_uint_not_nil (Z.to_N n)) as H.
  destruct (N.to_uint (Z.to_N n)); [contradiction|..]; reflexivity.
Qed.

Lemma str_of_int_digits n : all_digits (str_of_int n) = true /\ str_of_int n <> "".
Proof.
  rewrite str_of_int_eq. split; [apply string_of_uint_digits|].
  pose proof (to_uint_not_nil (Z.to_N n)) as H.
  destruct (N.to_uint (Z.to_N n)); [contradiction|..]; discriminate.
Qed.

Lemma int_of_str_of_int n : 0 <= n -> int_of_digits (str_of_int n) = n.
Proof.
  intros Hn. rewrite str_of_int_eq, int_of_digits_of_uint, DecimalN.Unsigned.of_to.
  apply Z2N.id. assumption.
Qed.

(** ** [split] and [join] *)

Lemma split_from_space cur a c b :
  is_space c = true ->
  split_from cur (a ++ String c b)%string = split_from cur a ++ split b.
Proof.
  intros Hc. revert cur. induction a as [|x a IH]; intros cur; simpl.
  - rewrite Hc. destruct (cur =? "")%string; reflexivity.
  - destruct (is_space x).
    + destruct (cur =? "")%string; simpl; now rewrite IH.
    + apply IH.
Qed.

Lemma split_join l : split (join " " l) = List.concat (map split l).
Proof.
  induction l as [|x l IH]; [reflexivity|].
  destruct l as [|y l].
  - simpl. now rewrite app_nil_r.
  - change (join " " (x :: y :: l)) with (x ++ String " " (join " " (y :: l)))%string.
    unfold split at 1. rewrite split_from_space by reflexivity.
    rewrite IH. reflexivity.
Qed.

Lemma length_concat_split l :
  List.length (List.concat (map split l)) = list_sum (map count_words l).
Proof.
  induction l as [|x l IH]; simpl; [reflexivity|].
  rewrite length_app, IH. reflexivity.
Qed.

End StringFacts.

(* ================================================================== *)
(** * The extractors of the fields *)
(* ================================================================== *)

Module ExtractorFacts.

Import PyStr PyNum Html Env Scraper Props Fixtures StringFacts.

(** ** [is_valid_article_url] *)

(** X1. The check of a link does not depend on the case of its letters,
    and a text that holds a rejected link is rejected. *)
Theorem is_valid_article_url_case_and_context :
  (forall url, is_valid_article_url (lower url) = is_valid_article_url url) /\
  (forall pre url post,
      is_valid_article_url url = false ->
      is_valid_article_url (pre ++ url ++ post)%string = false).
Proof.
  split.
  - intros url. unfold is_valid_article_url. now rewrite lower_idempotent.
  - intros pre url post. unfold is_valid_article_url.
    rewrite !negb_false_iff, !existsb_exists.
    intros (pattern & Hin & Hc). exists pattern. split; [assumption|].
    rewrite !lower_app. apply contains_app_l, contains_app_r. assumption.
Qed.

Lemma is_valid_article_url_case_and_context_witness :
  is_valid_article_url "https://example.org/?next=MAILTO:desk@example.org&src=rss" = false.
Proof.
  exact (proj2 is_valid_article_url_case_and_context
           "https://example.org/?next=" "MAILTO:desk@example.org" "&src=rss" eq_refl).
Defined.

(** ** [extract_headline] *)

Lemma first_headline_stripped soup selectors :
  strip (first_headline soup selectors) = first_headline soup selectors.
Proof.
  induction selectors as [|selector rest IH]; simpl; [reflexivity|].
  destruct (select_one soup selector) as [element|]; [|assumption].
  destruct (truthy (strip (get_text element))); [apply strip_idempotent|assumption].
Qed.

Lemma first_headline_empty soup selectors :
  first_headline soup selectors = "" <->
  forall selector, In selector selectors -> blank_at soup selector.
Proof.
  unfold blank_at. induction selectors as [|selector rest IH]; simpl.
  - split; [intros _ ? []|reflexivity].
  - destruct (select_one soup selector) as [element|] eqn:E.
    + destruct (truthy (strip (get_text element))) eqn:T.
      * apply truthy_true in T. split; [contradiction|].
        intros H. specialize (H selector (or_introl eq_refl)). rewrite E in H. contradiction.
      * apply ScraperFacts.truthy_false in T. rewrite IH. split.
        -- intros H s [<-|Hin]; [rewrite E; exact T|apply H; assumption].
        -- intros H s Hin. apply H. right. assumption.
    + rewrite IH. split.
      * intros H s [<-|Hin]; [now rewrite E|apply H; assumption].
      * intros H s Hin. apply H. right. assumption.
Qed.

Lemma first_headline_first soup pre selector post element :
  (forall s, In s pre -> blank_at soup s) ->
  select_one soup selector = Some element ->
  strip (get_text element) <> "" ->
  first_headline soup (pre ++ selector :: post) = strip (get_text element).
Proof.
  intros Hpre Hsel Hne. induction pre as [|s pre IH]; simpl.
  - rewrite Hsel. apply truthy_true in Hne. now rewrite Hne.
  - pose proof (Hpre s (or_introl eq_refl)) as Hs. unfold blank_at in Hs.
    destruct (select_one soup s) as [e|].
    + rewrite Hs. simpl. apply IH. intros s' Hin. apply Hpre. now right.
    + apply IH. intros s' Hin. apply Hpre. now right.
Qed.

(** X2. The headline has no white space at either end.  On a page whose
    headline texts are in the ASCII range, it is the trimmed text of the
    first element of the first selector, in the order of the list, whose
    first element has text that is not blank, and it is empty exactly
    when every selector finds nothing or a blank first element. *)
Theorem extract_headline_first_nonblank soup :
  strip (extract_headline soup) = extract_headline soup /\
  ((forall selector element,
       In selector headline_selectors -> select_one soup selector = Some element ->
       is_ascii (get_text element) = true) ->
   (extract_headline soup = "" <->
    forall selector, In selector headline_selectors -> blank_at soup selector)) /\
  (forall pre selector post element,
      headline_selectors = pre ++ selector :: post ->
      (forall s, In s pre -> blank_at soup s) ->
      select_one soup selector = Some element ->
      is_ascii (get_text element) = true ->
      strip (get_text element) <> "" ->
      extract_headline soup = strip (get_text element)).
Proof.
  split; [apply first_headline_stripped|].
  split; [intros _; apply first_headline_empty|].
  intros pre selector post element Hsel Hpre Hone _ Hne.
  unfold extract_headline. rewrite Hsel. now apply first_headline_first.
Qed.

Lemma extract_headline_first_nonblank_witness :
  extract_headline blank_heading_page = "Rain at last".
Proof.
  refine (proj2 (proj2 (extract_headline_first_nonblank blank_heading_page))
            [ "h1.article-title"; "h1.headline"; "h1"; ".title h1"; ".article-headline" ]
            "title" [] (text_tag " Rain at last ") eq_refl _ eq_refl eq_refl _).
  - intros s Hin. unfold blank_at. simpl in Hin.
    destruct Hin as [<-|[<-|[<-|[<-|[<-|[]]]]]]; reflexivity.
  - discriminate.
Defined.

(** ** [extract_date] *)

Lemma get_or_empty_truthy element name :
  truthy (get_or_empty element name) = true ->
  get element name = Some (get_or_empty element name) /\ get_or_empty element name <> "".
Proof.
  intros H. apply truthy_true in H. split; [|assumption].
  unfold get_or_empty in *. destruct (get element name); [reflexivity|contradiction].
Qed.

Lemma first_date_sources soup selectors w :
  first_date soup selectors w = now_isoformat w \/
  exists selector element d,
    In selector selectors /\ select_one soup selector = Some element /\ d <> "" /\
    (get element "datetime" = Some d \/ get element "data-date" = Some d) /\
    first_date soup selectors w = (d, w).
Proof.
  induction selectors as [|selector rest IH]; simpl; [now left|].
  assert (K : first_date soup rest w = now_isoformat w \/
              exists selector0 element d,
                (selector = selector0 \/ In selector0 rest) /\
                select_one soup selector0 = Some element /\ d <> "" /\
                (get element "datetime" = Some d \/ get element "data-date" = Some d) /\
                first_date soup rest w = (d, w)).
  { destruct IH as [IH|(s & e & d & Hin & IH)]; [now left|].
    right. exists s, e, d. split; [now right|assumption]. }
  destruct (select_one soup selector) as [element|] eqn:E; [|exact K].
  destruct (truthy (get_or_empty element "datetime")) eqn:T1.
  { apply get_or_empty_truthy in T1 as [G N]. right.
    exists selector, element, (get_or_empty element "datetime"). auto 6. }
  destruct (truthy (get_or_empty element "data-date")) eqn:T2.
  { apply get_or_empty_truthy in T2 as [G N]. right.
    exists selector, element, (get_or_empty element "data-date"). auto 6. }
  destruct (truthy (strip (get_text element))); [|exact K].
  left. apply ScraperFacts.parse_with_now.
Qed.

(** X3. The date of a record is the [datetime] or [data-date] attribute
    of an element of the page, taken as it stands and without reading the
    clock, or else the reading of the clock: the text of a date element
    never reaches the record.  A [time] element with a [datetime]
    attribute decides before every other source. *)
Theorem extract_date_attribute_or_now soup w :
  (extract_date soup w = now_isoformat w \/
   exists selector element d,
     In selector date_selectors /\ select_one soup selector = Some element /\ d <> "" /\
     (get element "datetime" = Some d \/ get element "data-date" = Some d) /\
     extract_date soup w = (d, w)) /\
  (forall element d,
      select_one soup "time[datetime]" = Some element ->
      get element "datetime" = Some d -> d <> "" ->
      extract_date soup w = (d, w)).
Proof.
  split; [apply first_date_sources|].
  intros element d Hsel Hget Hne. unfold extract_date. simpl. rewrite Hsel.
  unfold get_or_empty. rewrite Hget.
  apply truthy_true in Hne. rewrite Hne. reflexivity.
Qed.

Lemma extract_date_attribute_or_now_witness :
  extract_date dated_page still_world = ("1 June 2024", still_world).
Proof.
  refine (proj2 (extract_date_attribute_or_now dated_page still_world)
            {| get_text := "2 days ago"; attrs := [("datetime", "1 June 2024")] |}
            "1 June 2024" eq_refl eq_refl _).
  discriminate.
Defined.

(** ** [extract_location] *)

Lemma first_keyword_in mapping text value :
  first_keyword mapping text = Some value -> In value (map snd mapping).
Proof.
  induction mapping as [|[k v] rest IH]; simpl; [discriminate|].
  destruct (contains k text); [intros [= <-]; now left|auto].
Qed.

Lemma dict_get_in mapping k value :
  dict_get mapping k = Some value -> In value (map snd mapping).
Proof.
  induction mapping as [|[k' v] rest IH]; simpl; [discriminate|].
  destruct (k' =? k)%string; [intros [= <-]; now left|auto].
Qed.

Lemma first_location_in mapping soup selectors value :
  first_location mapping soup selectors = Some value -> In value (map snd mapping).
Proof.
  induction selectors as [|selector rest IH]; simpl; [discriminate|].
  destruct (select_one soup selector) as [element|]; [|assumption].
  destruct (first_keyword _ _) as [v|] eqn:E; [|assumption].
  intros [= <-]. exact (first_keyword_in _ _ _ E).
Qed.

Lemma extract_location_in self soup category :
  In (extract_location self soup category) ("Kerala/General" :: map snd (location_mapping self)).
Proof.
  unfold extract_location.
  destruct (first_location _ _ _) as [v|] eqn:E.
  - right. exact (first_location_in _ _ _ _ E).
  - destruct (dict_get _ _) as [v|] eqn:G; [right; exact (dict_get_in _ _ _ G)|now left].
Qed.

Lemma first_location_app mapping soup pre rest :
  first_location mapping soup pre = None ->
  first_location mapping soup (pre ++ rest) = first_location mapping soup rest.
Proof.
  induction pre as [|s pre IH]; simpl; [reflexivity|].
  destruct (select_one soup s) as [element|]; [|assumption].
  destruct (first_keyword _ _); [discriminate|assumption].
Qed.

(** X4. The location of a record is a value of the location mapping or
    the default: the text of the page never reaches it.  The first
    location element that names a known place decides, and an element
    that names none is passed over. *)
Theorem extract_location_in_vocabulary self soup category :
  In (extract_location self soup category)
     ("Kerala/General" :: map snd (location_mapping self)) /\
  (forall pre selector post element value,
      location_selectors = pre ++ selector :: post ->
      first_location (location_mapping self) soup pre = None ->
      select_one soup selector = Some element ->
      first_keyword (location_mapping self) (lower (strip (get_text element))) = Some value ->
      extract_location self soup category = value).
Proof.
  split; [apply extract_location_in|].
  intros pre selector post element value Hsel Hpre Hone Hkey.
  unfold extract_location. rewrite Hsel, first_location_app by assumption.
  simpl. rewrite Hone, Hkey. reflexivity.
Qed.

Lemma extract_location_in_vocabulary_witness :
  extract_location scraper dateline_page "sports" = "Kerala/Ernakulam".
Proof.
  exact (proj2 (extract_location_in_vocabulary scraper dateline_page "sports")
           [".location"; ".region"] ".dateline" [".article-location"]
           (text_tag " KOCHI, Friday ") "Kerala/Ernakulam"
           eq_refl eq_refl eq_refl eq_refl).
Defined.

(** ** The counts *)

Lemma parse_count_nonneg text n : parse_count text = Some n -> 0 <= n.
Proof.
  unfold parse_count. destruct (search_digits _) as [d|] eqn:E; [|discriminate].
  intros [= <-]. apply int_of_digits_from_nonneg; [|lia].
  exact (search_digits_all_digits _ _ E).
Qed.

Lemma first_count_nonneg attribute soup selectors n :
  first_count attribute soup selectors = Some n -> 0 <= n.
Proof.
  induction selectors as [|selector rest IH]; simpl; [discriminate|].
  destruct (select_one soup selector) as [element|]; [|assumption].
  destruct (parse_count _) as [m|] eqn:E; [|assumption].
  intros [= <-]. exact (parse_count_nonneg _ _ E).
Qed.

Lemma simulated_range_ordered f :
  0 <= fst (simulated_range f) <= snd (simulated_range f) /\ snd (simulated_range f) <= 50000.
Proof. destruct f; simpl; lia. Qed.

(** X5. A count is never negative: it is a number read from the page,
    and then nothing is drawn, or one draw from the range of its field. *)
Theorem extract_count_nonneg f soup w :
  0 <= fst (extract_count f soup w) /\
  match first_count (count_attribute f) soup (count_selectors f) with
  | Some n => extract_count f soup w = (n, w)
  | None =>
      fst (simulated_range f) <= fst (extract_count f soup w) <= snd (simulated_range f) /\
      draws (snd (extract_count f soup w)) = S (draws w)
  end.
Proof.
  unfold extract_count.
  destruct (first_count _ _ _) as [n|] eqn:E.
  - split; [|reflexivity]. simpl. exact (first_count_nonneg _ _ _ _ E).
  - destruct (simulated_range_ordered f) as [R _].
    pose proof (ScraperFacts.randint_range _ _ w (proj2 R)) as H.
    split; [lia|]. split; [exact H|reflexivity].
Qed.

(** X6. On a text in the ASCII range of at most 4300 characters, no
    count is read exactly when the text has no digit.  A count written in
    decimal with at most 4300 characters is read back, whatever ASCII
    text without a digit stands before it and whatever ASCII text follows
    it that does not go on with a digit; commas inside the number, as
    thousands separators, are dropped. *)
Theorem parse_count_reads_decimal :
  (forall text,
      plain_text text ->
      (parse_count text = None <-> no_digit text = true)) /\
  (forall n pre numeral post,
      0 <= n ->
      is_ascii (pre ++ numeral ++ post)%string = true ->
      (String.length numeral <= max_str_digits)%nat ->
      no_digit pre = true ->
      remove_char "," numeral = str_of_int n ->
      no_leading_digit (remove_char "," post) = true ->
      parse_count (pre ++ numeral ++ post)%string = Some n).
Proof.
  split.
  - intros text _. unfold parse_count.
    rewrite <- no_digit_remove_comma, <- search_digits_none.
    destruct (search_digits _); simpl; split; try reflexivity; discriminate.
  - intros n pre numeral post Hn _ _ Hpre Hnum Hpost. unfold parse_count.
    rewrite !remove_char_app, Hnum.
    rewrite search_digits_skip by (apply no_digit_remove_char; assumption).
    destruct (str_of_int_digits n) as [Hd Hne].
    rewrite search_digits_all by assumption.
    simpl. now rewrite int_of_str_of_int.
Qed.

Lemma parse_count_reads_decimal_witness :
  parse_count "Views: 1,23,456 today" = Some 123456.
Proof.
  refine (proj2 parse_count_reads_decimal 123456 "Views: " "1,23,456" " today"
            ltac:(lia) eq_refl _ eq_refl eq_refl eq_refl).
  unfold max_str_digits. simpl. lia.
Defined.

(** ** [extract_content_length] *)

Lemma first_content_first soup pre selector post element :
  (forall s, In s pre -> select soup s = []) ->
  select_one soup selector = Some element ->
  first_content soup (pre ++ selector :: post) = get_text element.
Proof.
  intros Hpre Hsel. induction pre as [|s pre IH]; simpl.
  - now rewrite Hsel.
  - unfold select_one at 1. rewrite (Hpre s (or_introl eq_refl)). simpl.
    apply IH. intros s' Hin. apply Hpre. now right.
Qed.

(** X7. On texts in the ASCII range, the content length is the number
    of words of the first container found, and the later containers are
    not looked at; when no container is found, or the first one found has
    empty text, it is the sum of the numbers of words of the
    paragraphs. *)
Theorem extract_content_length_words soup :
  (forall p, In p (find_all soup "p") -> is_ascii (get_text p) = true) ->
  ((forall s, In s content_selectors -> select soup s = []) ->
   extract_content_length soup
   = Z.of_nat (list_sum (map (fun p => count_words (get_text p)) (find_all soup "p")))) /\
  (forall pre selector post element,
      content_selectors = pre ++ selector :: post ->
      (forall s, In s pre -> select soup s = []) ->
      select_one soup selector = Some element ->
      is_ascii (get_text element) = true ->
      extract_content_length soup
      = Z.of_nat (if truthy (get_text element) then count_words (get_text element)
                  else list_sum (map (fun p => count_words (get_text p))
                                   (find_all soup "p")))).
Proof.
  intros _.
  assert (P : Z.of_nat (List.length (split (join " " (map get_text (find_all soup "p")))))
              = Z.of_nat (list_sum (map (fun p => count_words (get_text p))
                                      (find_all soup "p")))).
  { rewrite split_join, length_concat_split, map_map. reflexivity. }
  split.
  - intros Hnone. unfold extract_content_length.
    rewrite ScraperFacts.first_content_none by assumption. exact P.
  - intros pre selector post element Hsel Hpre Hone _.
    unfold extract_content_length. rewrite Hsel.
    rewrite (first_content_first _ _ _ _ _ Hpre Hone).
    destruct (truthy (get_text element)); [reflexivity|exact P].
Qed.

Lemma extract_content_length_words_witness :
  extract_content_length paragraphs_page = 6.
Proof.
  refine (proj2 (extract_content_length_words paragraphs_page _)
            [".article-content"] ".content" [".article-body"; ".post-content"] (text_tag "")
            eq_refl
            ltac:(intros s [<-|[]]; reflexivity) eq_refl eq_refl).
  intros p [<-|[<-|[]]]; reflexivity.
Defined.

End ExtractorFacts.

(* ================================================================== *)
(** * The records of [extract_article_data] *)
(* ================================================================== *)

Module RecordFacts.

Import PyStr PyNum Html Env Scraper Props Fixtures StringFacts ExtractorFacts.

(** ** The two calculators on the values of a page *)

Lemma calculate_engagement_score_range views comments likes shares score :
  0 <= views -> 0 <= comments -> 0 <= likes -> 0 <= shares ->
  calculate_engagement_score views comments likes shares = Some score ->
  in_range score /\ two_decimals score.
Proof.
  intros Hv Hc Hl Hs. unfold calculate_engagement_score.
  assert (T : forall v, two_decimals v -> in_range v /\ two_decimals v).
  { intros v H. split; [apply PyNumFacts.two_decimals_in_range|]; assumption. }
  destruct (views =? 0) eqn:E.
  - intros [= <-]. apply T. right. now left.
  - apply Z.eqb_neq in E.
    destruct (engagement views comments likes shares) as [e|] eqn:G; [|discriminate].
    intros [= <-]. apply T, PyNumFacts.capped_score_two_decimals.
    apply (PyNumFacts.engagement_nonneg views comments likes shares); try assumption. lia.
Qed.

Lemma calculate_read_time_positive word_count wpm minutes :
  calculate_read_time word_count wpm = Some minutes -> 1 <= minutes.
Proof.
  unfold calculate_read_time.
  destruct (int_true_div _ _); [|discriminate].
  destruct (float_round_int _); [|discriminate].
  intros [= <-]. lia.
Qed.

Lemma calculate_read_time_total word_count wpm :
  0 <= word_count < 2 ^ 1023 -> wpm <> 0 ->
  exists minutes, calculate_read_time word_count wpm = Some minutes.
Proof.
  intros Hw Hne. unfold calculate_read_time.
  destruct (PyNumFacts.int_true_div_total word_count wpm Hw Hne) as (q & -> & Hq).
  destruct q; try contradiction; simpl; eauto.
Qed.

(** ** What a call consumes *)

Lemma same_outside_refl w : same_outside w w.
Proof. repeat split. Qed.

Lemma same_outside_trans w1 w2 w3 :
  same_outside w1 w2 -> same_outside w2 w3 -> same_outside w1 w3.
Proof. intros (A & B & C) (A' & B' & C'). repeat split; congruence. Qed.

Lemma spent_trans d1 t1 d2 t2 w1 w2 w3 :
  spent d1 t1 w1 w2 -> spent d2 t2 w2 w3 -> spent (d1 + d2) (t1 + t2) w1 w3.
Proof.
  intros (A & B & C & D) (A' & B' & C' & D').
  split; [eapply same_outside_trans; eauto|]. split; [congruence|]. lia.
Qed.

Lemma extract_count_spent f soup w : spent 1 0 w (snd (extract_count f soup w)).
Proof.
  unfold extract_count. destruct (first_count _ _ _); simpl.
  - split; [apply same_outside_refl|]. split; [reflexivity|lia].
  - split; [repeat split|]. split; [reflexivity|]. simpl. lia.
Qed.

Lemma extract_date_spent soup w : spent 0 1 w (snd (extract_date soup w)).
Proof.
  destruct (first_date_sources soup date_selectors w)
    as [H|(s & e & d & _ & _ & _ & _ & H)]; unfold extract_date; rewrite H; simpl.
  - split; [repeat split|]. split; [reflexivity|]. simpl. lia.
  - split; [apply same_outside_refl|]. split; [reflexivity|lia].
Qed.

Lemma article_of_soup_spent self soup url category w :
  spent 4 1 w (snd (article_of_soup self soup url category w)).
Proof.
  unfold article_of_soup, bind, ret.
  destruct (negb (truthy (extract_headline soup))).
  - simpl. split; [apply same_outside_refl|]. split; [reflexivity|lia].
  - pose proof (extract_date_spent soup w) as Hd.
    destruct (extract_date soup w) as [d w1]. simpl in Hd.
    unfold extract_views, extract_comments, extract_likes, extract_shares.
    pose proof (extract_count_spent Views soup w1) as H1.
    destruct (extract_count Views soup w1) as [v w2]. simpl in H1.
    pose proof (extract_count_spent Comments soup w2) as H2.
    destruct (extract_count Comments soup w2) as [c w3]. simpl in H2.
    pose proof (extract_count_spent Likes soup w3) as H3.
    destruct (extract_count Likes soup w3) as [l w4]. simpl in H3.
    pose proof (extract_count_spent Shares soup w4) as H4.
    destruct (extract_count Shares soup w4) as [s w5]. simpl in H4.
    assert (H : spent 4 1 w w5).
    { exact (spent_trans _ _ _ _ _ _ _ Hd
               (spent_trans _ _ _ _ _ _ _ H1
                  (spent_trans _ _ _ _ _ _ _ H2 (spent_trans _ _ _ _ _ _ _ H3 H4)))). }
    destruct (calculate_read_time _ _); [|exact H].
    destruct (calculate_engagement_score _ _ _ _); exact H.
Qed.

(** ** The two ways of a call: the page arrives, or the request fails *)

Lemma extract_article_data_fetched self url category w soup :
  web w url (requests w) = Some soup ->
  extract_article_data self url category w
  = (match fst (article_of_soup self soup url category (after_fetch w)) with
     | Raised => None
     | Returned article => article
     end,
     snd (article_of_soup self soup url category (after_fetch w))).
Proof.
  intros Hweb. unfold extract_article_data, bind.
  rewrite (ScraperFacts.article_of_page_fetched self url category w soup Hweb).
  destruct (article_of_soup self soup url category (after_fetch w)) as [[|r] w']; reflexivity.
Qed.

Lemma extract_article_data_failed self url category w :
  web w url (requests w) = None ->
  extract_article_data self url category w = (None, after_fetch w).
Proof.
  intros Hweb.
  unfold extract_article_data, article_of_page, bind, random_delay, bind, next_draw, ret,
    http_get.
  cbn [web requests entropy draws clock ticks]. rewrite Hweb. reflexivity.
Qed.

Lemma extract_article_data_world self url category w :
  requests (snd (extract_article_data self url category w)) = S (requests w) /\
  same_outside w (snd (extract_article_data self url category w)) /\
  (S (draws w) <= draws (snd (extract_article_data self url category w)) <= draws w + 5)%nat /\
  (ticks w <= ticks (snd (extract_article_data self url category w)) <= S (ticks w))%nat.
Proof.
  destruct (web w url (requests w)) as [soup|] eqn:Hweb.
  - rewrite (extract_article_data_fetched _ _ _ _ _ Hweb). cbn [snd].
    pose proof (article_of_soup_spent self soup url category (after_fetch w))
      as ((A & B & C) & R & D & T).
    unfold after_fetch in *. cbn [web requests entropy draws clock ticks] in *.
    split; [assumption|]. split; [repeat split; assumption|]. lia.
  - rewrite (extract_article_data_failed _ _ _ _ Hweb). simpl.
    split; [reflexivity|]. split; [repeat split|]. lia.
Qed.

(** ** The fields of a record *)

Lemma extract_count_value f soup w : 0 <= fst (extract_count f soup w).
Proof.
  unfold extract_count.
  destruct (first_count _ _ _) as [n|] eqn:E.
  - exact (first_count_nonneg _ _ _ _ E).
  - destruct (simulated_range_ordered f) as [R _].
    pose proof (ScraperFacts.randint_range _ _ w (proj2 R)) as H. lia.
Qed.

Lemma extract_count_small f soup w :
  within_float_range soup -> 0 <= fst (extract_count f soup w) < 2 ^ 1023.
Proof.
  intros [Hsmall _]. split; [apply extract_count_value|].
  unfold extract_count.
  destruct (first_count _ _ _) as [n|] eqn:E; [exact (Hsmall f n E)|].
  destruct (simulated_range_ordered f) as [R U].
  pose proof (ScraperFacts.randint_range _ _ w (proj2 R)) as H.
  apply (ScraperFacts.small_count (fst (randint (fst (simulated_range f))
                                          (snd (simulated_range f)) w))).
  lia.
Qed.

Lemma article_of_soup_well_formed self soup url category w a w' :
  article_of_soup self soup url category w = (Returned (Some a), w') ->
  well_formed self a /\ Scraper.url a = url /\ Scraper.category a = category /\
  headline a = extract_headline soup /\
  location a = extract_location self soup category /\
  content_length a = extract_content_length soup.
Proof.
  unfold article_of_soup, bind, ret.
  destruct (truthy (extract_headline soup)) eqn:Hh; cbn [negb]; [|discriminate].
  destruct (extract_date soup w) as [d w1].
  pose proof (extract_count_value Views soup w1) as Hv.
  pose proof (fun w => extract_count_value Comments soup w) as Hc.
  pose proof (fun w => extract_count_value Likes soup w) as Hl.
  pose proof (fun w => extract_count_value Shares soup w) as Hs.
  unfold extract_views, extract_comments, extract_likes, extract_shares.
  destruct (extract_count Views soup w1) as [v w2].
  specialize (Hc w2). destruct (extract_count Comments soup w2) as [c w3].
  specialize (Hl w3). destruct (extract_count Likes soup w3) as [l w4].
  specialize (Hs w4). destruct (extract_count Shares soup w4) as [s w5].
  simpl in Hv, Hc, Hl, Hs.
  destruct (calculate_read_time _ _) as [minutes|] eqn:R; [|discriminate].
  destruct (calculate_engagement_score _ _ _ _) as [score|] eqn:G; [|discriminate].
  intros [= <- <-]. unfold well_formed.
  cbn [headline location views comments likes shares engagement_score read_minutes
       Scraper.category Scraper.url content_length].
  destruct (calculate_engagement_score_range _ _ _ _ _ Hv Hc Hl Hs G) as [G1 G2].
  apply truthy_true in Hh.
  repeat split; try assumption; try reflexivity.
  - apply first_headline_stripped.
  - apply extract_location_in.
  - unfold extract_content_length. lia.
  - exact (calculate_read_time_positive _ _ _ R).
Qed.

Lemma article_of_soup_total self soup url category w :
  extract_headline soup <> "" -> within_float_range soup ->
  exists a, fst (article_of_soup self soup url category w) = Returned (Some a).
Proof.
  intros Hh Hsmall. unfold article_of_soup, bind, ret.
  apply truthy_true in Hh. rewrite Hh. cbn [negb].
  destruct (extract_date soup w) as [d w1].
  pose proof (extract_count_small Views soup w1 Hsmall) as Hv.
  pose proof (fun w => extract_count_small Comments soup w Hsmall) as Hc.
  pose proof (fun w => extract_count_small Likes soup w Hsmall) as Hl.
  pose proof (fun w => extract_count_small Shares soup w Hsmall) as Hs.
  unfold extract_views, extract_comments, extract_likes, extract_shares.
  destruct (extract_count Views soup w1) as [v w2].
  specialize (Hc w2). destruct (extract_count Comments soup w2) as [c w3].
  specialize (Hl w3). destruct (extract_count Likes soup w3) as [l w4].
  specialize (Hs w4). destruct (extract_count Shares soup w4) as [s w5].
  cbn [fst] in Hv, Hc, Hl, Hs.
  destruct (calculate_read_time_total (extract_content_length soup) default_wpm)
    as [minutes ->]; [|discriminate|].
  { split; [unfold extract_content_length; lia|exact (proj2 Hsmall)]. }
  destruct (ScraperFacts.calculate_engagement_score_total v c l s Hv Hc Hl Hs) as [score ->].
  eexists. reflexivity.
Qed.

Lemma extract_article_data_some self url category w a :
  fst (extract_article_data self url category w) = Some a ->
  well_formed self a /\ Scraper.url a = url /\ Scraper.category a = category.
Proof.
  destruct (web w url (requests w)) as [soup|] eqn:Hweb.
  - rewrite (extract_article_data_fetched _ _ _ _ _ Hweb). cbn [fst].
    destruct (article_of_soup self soup url category (after_fetch w)) as [[|[r|]] w'] eqn:E;
      cbn [fst]; try discriminate.
    intros [= ->].
    destruct (article_of_soup_well_formed _ _ _ _ _ _ _ E) as (H1 & H2 & H3 & _).
    auto.
  - rewrite (extract_article_data_failed _ _ _ _ Hweb). discriminate.
Qed.

(** X8. Every record that [extract_article_data] returns carries the
    address and the category it was asked for and is well formed: the
    headline is trimmed and not empty, the location is a value of the
    mapping or the default, the counts and the content length are not
    negative, the read time is at least one minute, and the engagement
    score is the one of the counts, within 0 and 100, with two decimals. *)
Theorem extract_article_data_well_formed self url category w a :
  fst (extract_article_data self url category w) = Some a ->
  well_formed self a /\ Scraper.url a = url /\ Scraper.category a = category /\
  exists soup,
    web w url (requests w) = Some soup /\
    headline a = extract_headline soup /\
    location a = extract_location self soup category /\
    content_length a = extract_content_length soup.
Proof.
  destruct (web w url (requests w)) as [soup|] eqn:Hweb.
  - rewrite (extract_article_data_fetched _ _ _ _ _ Hweb). cbn [fst].
    destruct (article_of_soup self soup url category (after_fetch w)) as [[|[r|]] w'] eqn:E;
      cbn [fst]; try discriminate.
    intros [= ->].
    destruct (article_of_soup_well_formed _ _ _ _ _ _ _ E) as (H1 & H2 & H3 & H4 & H5 & H6).
    split; [assumption|]. split; [assumption|]. split; [assumption|].
    exists soup. auto.
  - rewrite (extract_article_data_failed _ _ _ _ Hweb). discriminate.
Qed.

Lemma extract_article_data_well_formed_witness :
  exists a,
    fst (extract_article_data scraper "https://www.manoramaonline.com/news/story.html"
           "kerala" site_world) = Some a /\
    well_formed scraper a /\ Scraper.category a = "kerala".
Proof.
  destruct (extract_article_data scraper "https://www.manoramaonline.com/news/story.html"
              "kerala" site_world) as [[a|] w'] eqn:E.
  - exists a. split; [reflexivity|].
    destruct (extract_article_data_well_formed scraper
                "https://www.manoramaonline.com/news/story.html" "kerala" site_world a)
      as (H1 & _ & H3 & _).
    + rewrite E. reflexivity.
    + split; assumption.
  - vm_compute in E. discriminate.
Defined.

(** X9. A page that arrives, has a headline, and whose numbers are in
    the range of [float], always gives a record, when its headline texts
    are in the ASCII range and its count texts are in the ASCII range
    and of at most 4300 characters: nothing else in the extraction can
    fail. *)
Theorem extract_article_data_total self url category w soup :
  web w url (requests w) = Some soup ->
  plain_page soup ->
  extract_headline soup <> "" ->
  within_float_range soup ->
  exists a, fst (extract_article_data self url category w) = Some a.
Proof.
  intros Hweb _ Hh Hsmall.
  rewrite (extract_article_data_fetched _ _ _ _ _ Hweb). cbn [fst].
  destruct (article_of_soup_total self soup url category (after_fetch w) Hh Hsmall) as [a ->].
  exists a. reflexivity.
Qed.

Lemma article_page_within_float_range : within_float_range article_page.
Proof.
  destruct ScraperFacts.site_world_article_only_headline as [Hb Hp].
  split.
  - intros f n. rewrite ScraperFacts.first_count_none; [discriminate|].
    intros css Hin. apply Hb. destruct f; simpl in Hin; unfold headline_selectors; simpl;
      intuition (subst; discriminate).
  - rewrite (ScraperFacts.extract_content_length_none article_page (conj Hb Hp)).
    reflexivity.
Qed.

Lemma article_page_plain : plain_page article_page.
Proof.
  split.
  - intros selector element Hin. unfold select_one, article_page, soup_with. simpl.
    destruct (selector =? "h1")%string; simpl; [|discriminate].
    intros [= <-]. reflexivity.
  - intros f selector element Hin. unfold select_one, article_page, soup_with. simpl.
    destruct f; simpl in Hin;
      repeat (destruct Hin as [<-|Hin]; [simpl; discriminate|]); destruct Hin.
Qed.

Lemma extract_article_data_total_witness :
  exists a,
    fst (extract_article_data scraper "https://www.manoramaonline.com/news/story.html"
           "kerala" site_world) = Some a.
Proof.
  apply (extract_article_data_total scraper "https://www.manoramaonline.com/news/story.html"
           "kerala" site_world article_page eq_refl).
  - exact article_page_plain.
  - discriminate.
  - exact article_page_within_float_range.
Defined.

(** X10. A call of [extract_article_data] makes exactly one request and
    never repeats it; it draws between one and five random numbers and
    reads the clock at most once; a request that fails gives no record. *)
Theorem extract_article_data_one_request self url category w :
  requests (snd (extract_article_data self url category w)) = S (requests w) /\
  same_outside w (snd (extract_article_data self url category w)) /\
  (S (draws w) <= draws (snd (extract_article_data self url category w)) <= draws w + 5)%nat /\
  (ticks w <= ticks (snd (extract_article_data self url category w)) <= S (ticks w))%nat /\
  (web w url (requests w) = None ->
   extract_article_data self url category w = (None, after_fetch w)).
Proof.
  destruct (web w url (requests w)) as [soup|] eqn:Hweb.
  - rewrite (extract_article_data_fetched _ _ _ _ _ Hweb). cbn [snd].
    pose proof (article_of_soup_spent self soup url category (after_fetch w))
      as ((A & B & C) & R & D & T).
    unfold after_fetch in *. cbn [web requests entropy draws clock ticks] in *.
    split; [assumption|]. split; [repeat split; assumption|].
    split; [lia|]. split; [lia|discriminate].
  - rewrite (extract_article_data_failed _ _ _ _ Hweb). simpl.
    split; [reflexivity|]. split; [repeat split|].
    split; [lia|]. split; [lia|reflexivity].
Qed.

Lemma extract_article_data_one_request_witness :
  extract_article_data scraper "https://www.manoramaonline.com/news/story.html" "kerala"
    still_world
  = (None, after_fetch still_world).
Proof.
  exact (proj2 (proj2 (proj2 (proj2
           (extract_article_data_one_request scraper
              "https://www.manoramaonline.com/news/story.html" "kerala" still_world))))
           eq_refl).
Defined.

End RecordFacts.

(* ================================================================== *)
(** * The links of a category page *)
(* ================================================================== *)

Module CollectFacts.

Import PyStr PyNum Html Env Scraper Props Fixtures StringFacts.

(** ** Subsequences *)

Lemma subsequence_refl {A} (l : list A) : subsequence l l.
Proof. induction l; constructor; assumption. Qed.

Lemma subsequence_nil_l {A} (l : list A) : subsequence [] l.
Proof. induction l; constructor; assumption. Qed.

Lemma subsequence_app {A} (l1 l2 l3 l4 : list A) :
  subsequence l1 l2 -> subsequence l3 l4 -> subsequence (l1 ++ l3) (l2 ++ l4).
Proof. intros H1 H2. induction H1; simpl; [assumption| |]; constructor; assumption. Qed.

Lemma subsequence_length {A} (l1 l2 : list A) :
  subsequence l1 l2 -> (List.length l1 <= List.length l2)%nat.
Proof. induction 1; simpl; lia. Qed.

Lemma subsequence_In {A} (l1 l2 : list A) x : subsequence l1 l2 -> In x l1 -> In x l2.
Proof. induction 1; simpl; intuition. Qed.

Lemma subsequence_NoDup {A} (l1 l2 : list A) : subsequence l1 l2 -> NoDup l2 -> NoDup l1.
Proof.
  induction 1; intros Hnd; [constructor| |].
  - inversion Hnd; subst. constructor; [|auto].
    intros Hin. eapply subsequence_In in Hin; eauto.
  - inversion Hnd; subst. auto.
Qed.

Lemma subsequence_trans {A} (l1 l2 l3 : list A) :
  subsequence l1 l2 -> subsequence l2 l3 -> subsequence l1 l3.
Proof.
  intros H12 H23. revert l1 H12. induction H23; intros l0 H12.
  - assumption.
  - inversion H12; subst; constructor; auto.
  - constructor. auto.
Qed.

Lemma subsequence_prefix {A} (l r : list A) : subsequence l (l ++ r).
Proof.
  rewrite <- (app_nil_r l) at 1. apply subsequence_app; [apply subsequence_refl|].
  apply subsequence_nil_l.
Qed.

Section CollectFacts.

Variable urljoin : string -> string -> string.

(** ** The two loops of [extract_article_links] as one *)





(** X12. When the base address, the address of the category and the
    references of its page are in the ASCII range and without brackets,
    so that [urljoin] returns on each of them, the links of a category
    are the first links collected from its page, in the order in which
    they were found: as many as the share of the category when the share
    is not negative, and all but the last [- share] of them when it is
    negative.  A request that fails gives no link.  With the nine
    categories of the scraper the share is the cap divided by nine,
    rounded down. *)
Theorem extract_article_links_slice self category_url w :
  joinable (base_url self) = true ->
  joinable category_url = true ->
  match web w (urljoin (base_url self) category_url) (requests w) with
  | None => fst (extract_article_links urljoin self category_url w) = []
  | Some soup =>
      joinable_page soup ->
      exists dropped,
        collect_links urljoin self soup
        = fst (extract_article_links urljoin self category_url w) ++ dropped /\
        Z.of_nat (List.length (fst (extract_article_links urljoin self category_url w)))
        = if 0 <=? share self
          then Z.min (share self) (Z.of_nat (List.length (collect_links urljoin self soup)))
          else Z.max 0 (Z.of_nat (List.length (collect_links urljoin self soup)) + share self)
  end /\
  (forall base cap, share (init base cap) = cap / 9).
Proof.
  intros _ _. split; [|reflexivity].
  unfold extract_article_links, bind, http_get, ret, share. cbn [web requests].
  destruct (web w _ _) as [soup|]; [|reflexivity].
  intros _.
  destruct (categories self) as [|c cs] eqn:Hc.
  - cbn [fst]. exists (collect_links urljoin self soup). split; [reflexivity|].
    simpl. rewrite Z.div_0_r. simpl. lia.
  - cbn [fst]. unfold slice_to.
    set (k := max_articles self / Z.of_nat (List.length (c :: cs))).
    set (l := collect_links urljoin self soup).
    destruct (0 <=? k) eqn:Hk.
    + exists (skipn (Z.to_nat k) l). split; [symmetry; apply firstn_skipn|].
      apply Z.leb_le in Hk. rewrite length_firstn. lia.
    + exists (skipn (Z.to_nat (Z.of_nat (List.length l) + k)) l).
      split; [symmetry; apply firstn_skipn|].
      apply Z.leb_gt in Hk. rewrite length_firstn. lia.
Qed.

End CollectFacts.


Lemma busy_page_joinable : joinable_page busy_page.
Proof.
  intros selector tag href Hs Ht. unfold busy_page, soup_with in Ht. cbn [select] in Ht.
  destruct (selector =? hd "" link_selectors)%string; [|destruct Ht].
  simpl in Ht. destruct Ht as [<-|[<-|[<-|[]]]]; intros [= <-]; reflexivity.
Qed.


Lemma extract_article_links_slice_witness :
  exists dropped,
    collect_links plain_urljoin scraper busy_page
    = fst (extract_article_links plain_urljoin scraper "/news/kerala.html" busy_world)
      ++ dropped.
Proof.
  assert (H : joinable_page busy_page ->
              exists dropped,
                collect_links plain_urljoin scraper busy_page
                = fst (extract_article_links plain_urljoin scraper "/news/kerala.html"
                         busy_world) ++ dropped /\
                Z.of_nat (List.length (fst (extract_article_links plain_urljoin scraper
                                              "/news/kerala.html" busy_world)))
                = if 0 <=? share scraper
                  then Z.min (share scraper)
                         (Z.of_nat (List.length (collect_links plain_urljoin scraper busy_page)))
                  else Z.max 0 (Z.of_nat (List.length
                                            (collect_links plain_urljoin scraper busy_page))
                                + share scraper)).
  { exact (proj1 (extract_article_links_slice plain_urljoin scraper "/news/kerala.html"
                    busy_world eq_refl eq_refl)). }
  destruct (H busy_page_joinable) as (dropped & Heq & _).
  exists dropped. exact Heq.
Defined.

Lemma busy_world_links :
  fst (extract_article_links plain_urljoin scraper "/news/kerala.html" busy_world)
  = [ "https://www.manoramaonline.com/news/story-1.html";
      "https://www.manoramaonline.com/news/story-2.html";
      "https://www.manoramaonline.com/news/story-3.html" ] /\
  fst (extract_article_links plain_urljoin (init default_base_url 20) "/news/kerala.html"
         busy_world)
  = [ "https://www.manoramaonline.com/news/story-1.html";
      "https://www.manoramaonline.com/news/story-2.html" ] /\
  fst (extract_article_links plain_urljoin (init default_base_url (-1)) "/news/kerala.html"
         busy_world)
  = [ "https://www.manoramaonline.com/news/story-1.html";
      "https://www.manoramaonline.com/news/story-2.html" ].
Proof. vm_compute. repeat split. Qed.

End CollectFacts.

(* ================================================================== *)
(** * The collection cycle, link by link *)
(* ================================================================== *)

Module CycleFacts.

Import PyStr PyNum Html Env Scraper Props Fixtures RecordFacts CollectFacts.

(** ** Traces *)

Lemma visited_app t1 t2 : visited (t1 ++ t2) = visited t1 ++ visited t2.
Proof. induction t1 as [|[] t1 IH]; simpl; [reflexivity|assumption|now rewrite IH]. Qed.

Lemma listed_app t1 t2 : listed (t1 ++ t2) = listed t1 ++ listed t2.
Proof.
  induction t1 as [|[] t1 IH]; simpl; [reflexivity| |assumption].
  now rewrite IH, app_assoc.
Qed.

Lemma fetched_app t1 t2 : fetched (t1 ++ t2) = fetched t1 ++ fetched t2.
Proof. induction t1 as [|[] t1 IH]; simpl; [reflexivity|now rewrite IH|assumption]. Qed.

Lemma listed_fetched trace category link :
  In (category, link) (listed trace) -> In category (fetched trace).
Proof.
  induction trace as [|[c links|] trace IH]; simpl; [trivial| |assumption].
  intros H. apply in_app_iff in H as [H|H]; [|right; auto].
  apply in_map_iff in H as (l & [= -> _] & _). now left.
Qed.

Lemma NoDup_map_pair (category : string) (links : list string) :
  NoDup links -> NoDup (map (pair category) links).
Proof.
  induction 1 as [|l links Hn Hnd IH]; simpl; constructor; [|assumption].
  intros Hin. apply in_map_iff in Hin as (l' & [= ->] & Hin). contradiction.
Qed.

Lemma NoDup_app_disjoint {A} (l1 l2 : list A) :
  NoDup l1 -> NoDup l2 -> (forall x, In x l1 -> ~ In x l2) -> NoDup (l1 ++ l2).
Proof.
  induction 1 as [|x l1 Hn Hnd IH]; intros H2 Hdis; simpl; [assumption|].
  constructor.
  - intros Hin. apply in_app_iff in Hin as [Hin|Hin]; [contradiction|].
    apply (Hdis x); [now left|assumption].
  - apply IH; [assumption|]. intros y Hy. apply Hdis. now right.
Qed.

(** ** The loop over the links of a category *)

Lemma scrape_links_run self category links : forall all_articles w all_articles' trace w',
  scrape_links self category links all_articles w = (all_articles', trace, w') ->
  exists new,
    all_articles' = all_articles ++ new /\
    Forall (fun a => well_formed self a /\ Scraper.category a = category) new /\
    subsequence (map cat_url new) (visited trace) /\
    (exists skipped, map (pair category) links = visited trace ++ skipped) /\
    listed trace = [] /\ fetched trace = [] /\
    requests w' = (requests w + List.length (visited trace))%nat /\
    same_outside w w' /\
    (max_articles self <= Z.of_nat (List.length all_articles) ->
     (List.length (visited trace) <= 1)%nat) /\
    (Z.of_nat (List.length all_articles) + Z.of_nat (List.length links) <= max_articles self ->
     visited trace = map (pair category) links).
Proof.
  induction links as [|link rest IH]; intros all_articles w all2 trace w' Hrun; simpl in Hrun.
  - unfold ret in Hrun. injection Hrun as <- <- <-. exists [].
    rewrite app_nil_r. simpl.
    repeat split; try reflexivity; try constructor; try lia.
    exists []. reflexivity.
  - unfold bind at 1 in Hrun.
    pose proof (extract_article_data_some self link category w) as Hrec.
    pose proof (extract_article_data_world self link category w) as (Hreq & Hout & _ & _).
    destruct (extract_article_data self link category w) as [article w1].
    cbn [fst snd] in Hrec, Hreq, Hout.
    set (all1 := match article with Some a => all_articles ++ [a] | None => all_articles end) in *.
    set (first := match article with Some a => [a] | None => [] end).
    assert (Hall1 : all1 = all_articles ++ first).
    { subst all1 first. destruct article; [reflexivity|now rewrite app_nil_r]. }
    assert (Hfirst : Forall (fun a => well_formed self a /\ Scraper.category a = category) first).
    { subst first. destruct article as [a|]; [|constructor].
      destruct (Hrec a eq_refl) as (H1 & _ & H3). constructor; [auto|constructor]. }
    assert (Hsub : subsequence (map cat_url first) [(category, link)]).
    { subst first. destruct article as [a|]; simpl.
      - destruct (Hrec a eq_refl) as (_ & H2 & H3). unfold cat_url. rewrite H2, H3.
        repeat constructor.
      - repeat constructor. }
    assert (Hlen : (List.length first <= 1)%nat).
    { subst first. destruct article; simpl; lia. }
    destruct (Z.of_nat (List.length all1) >=? max_articles self) eqn:Hge.
    + unfold ret in Hrun. injection Hrun as <- <- <-. exists first. simpl.
      split; [assumption|]. split; [assumption|]. split; [assumption|].
      split; [exists (map (pair category) rest); reflexivity|].
      split; [reflexivity|]. split; [reflexivity|].
      split; [lia|]. split; [assumption|]. split; [lia|].
      intros Hbudget. rewrite Z.geb_leb in Hge. apply Z.leb_le in Hge.
      rewrite Hall1, length_app in Hge.
      destruct rest; [reflexivity|]. simpl List.length in *. lia.
    + unfold bind, ret in Hrun.
      destruct (scrape_links self category rest all1 w1) as [[all3 tr] w2] eqn:Hrest.
      cbn [fst snd] in Hrun. injection Hrun as <- <- <-.
      destruct (IH all1 w1 all3 tr w2 Hrest)
        as (new & H1 & H2 & H3 & (skipped & H4) & H5 & H6 & H7 & H8 & H9 & H10).
      rewrite Z.geb_leb in Hge. apply Z.leb_gt in Hge.
      exists (first ++ new). simpl.
      split; [rewrite H1, Hall1, app_assoc; reflexivity|].
      split; [apply Forall_app; split; assumption|].
      split; [rewrite map_app; exact (subsequence_app _ _ _ _ Hsub H3)|].
      split; [exists skipped; rewrite H4; reflexivity|].
      split; [assumption|]. split; [assumption|].
      split; [lia|]. split; [eapply same_outside_trans; eassumption|].
      split.
      * intros Hneg. exfalso. rewrite Hall1, length_app in Hge. lia.
      * intros Hbudget. rewrite H10; [reflexivity|].
        rewrite Hall1, length_app. lia.
Qed.

(** ** The check of the cap *)

Lemma break_respected_app cap t1 t2 :
  break_respected cap t1 -> break_respected cap t2 -> starts_with_links t2 ->
  break_respected cap (t1 ++ t2).
Proof.
  intros H1 H2 Hs. induction t1 as [|e t1 IH]; [exact H2|].
  destruct H1 as [He H1]. cbn [app break_respected]. split; [|apply IH; assumption].
  destruct e as [|link category before after]; [exact I|].
  destruct t1 as [|e1 t1]; [|exact He].
  cbn [app]. destruct t2 as [|[] t2]; [exact I|exact I|destruct Hs].
Qed.

Lemma break_respected_split cap pre :
  forall trace link category before after link' category' before' after' post,
    break_respected cap trace ->
    trace = pre ++ ArticleExtracted link category before after
                :: ArticleExtracted link' category' before' after' :: post ->
    Z.of_nat after < cap.
Proof.
  induction pre as [|e pre IH]; intros trace l c b a l' c' b' a' post H ->.
  - destruct H as [H _]. exact H.
  - destruct H as [_ H]. eapply IH; [exact H|reflexivity].
Qed.

Lemma scrape_links_trace self category links : forall all_articles w all_articles' trace w',
  scrape_links self category links all_articles w = (all_articles', trace, w') ->
  break_respected (max_articles self) trace.
Proof.
  induction links as [|link rest IH]; intros all_articles w all2 trace w' Hrun; simpl in Hrun.
  - unfold ret in Hrun. injection Hrun as <- <- <-. exact I.
  - unfold bind at 1 in Hrun.
    destruct (extract_article_data self link category w) as [article w1].
    set (all1 := match article with Some a => all_articles ++ [a] | None => all_articles end) in *.
    destruct (Z.of_nat (List.length all1) >=? max_articles self) eqn:Hge.
    + unfold ret in Hrun. injection Hrun as <- <- <-. split; exact I.
    + unfold bind, ret in Hrun.
      destruct (scrape_links self category rest all1 w1) as [[all3 tr] w2] eqn:Hrest.
      cbn [fst snd] in Hrun. injection Hrun as <- <- <-.
      rewrite Z.geb_leb in Hge. apply Z.leb_gt in Hge.
      split; [|exact (IH _ _ _ _ _ Hrest)].
      destruct tr as [|[] tr]; [exact I|exact I|exact Hge].
Qed.

Section CycleFacts.

Variable urljoin : string -> string -> string.

Lemma extract_article_links_run self category_url w :
  NoDup (fst (extract_article_links urljoin self category_url w)) /\
  requests (snd (extract_article_links urljoin self category_url w)) = S (requests w) /\
  same_outside w (snd (extract_article_links urljoin self category_url w)) /\
  (0 <= max_articles self ->
   Z.of_nat (List.length (fst (extract_article_links urljoin self category_url w)))
   <= share self).
Proof.
  split; [|split; [|split]].
  - unfold extract_article_links, bind, http_get, ret. cbn [web requests].
    destruct (web w _ _) as [soup|]; [|constructor].
    destruct (categories self); [constructor|]. cbn [fst].
    unfold slice_to.
    destruct (_ <=? _); apply ScraperFacts.NoDup_firstn, ScraperFacts.collect_links_invariant.
  - unfold extract_article_links, bind, http_get, ret. cbn [web requests].
    destruct (web w _ _); [destruct (categories self)|]; reflexivity.
  - unfold extract_article_links, bind, http_get, ret. cbn [web requests].
    destruct (web w _ _); [destruct (categories self)|]; repeat split.
  - apply ScraperFacts.extract_article_links_length.
Qed.

Lemma share_nonneg self : 0 <= max_articles self -> 0 <= share self.
Proof.
  intros Hmax. unfold share.
  destruct (categories self) as [|c cs]; [simpl; rewrite Z.div_0_r; lia|].
  apply Z.div_pos; [assumption|]. simpl List.length. lia.
Qed.

Lemma share_total self :
  0 <= max_articles self ->
  share self * Z.of_nat (List.length (categories self)) <= max_articles self.
Proof.
  intros Hmax. unfold share.
  destruct (categories self) as [|c cs]; [simpl; lia|].
  pose proof (Z.mul_div_le (max_articles self) (Z.of_nat (List.length (c :: cs)))
                ltac:(simpl List.length; lia)).
  lia.
Qed.

(** ** The loop over the categories *)

Lemma scrape_categories_run self cats : forall all_articles w all_articles' trace w',
  scrape_categories urljoin self cats all_articles w = (all_articles', trace, w') ->
  exists new,
    all_articles' = all_articles ++ new /\
    Forall (fun a => well_formed self a /\ In (Scraper.category a) (map fst cats)) new /\
    subsequence (map cat_url new) (visited trace) /\
    subsequence (visited trace) (listed trace) /\
    fetched trace = map fst cats /\
    requests w' = (requests w + List.length cats + List.length (visited trace))%nat /\
    same_outside w w' /\
    (NoDup (map fst cats) -> NoDup (listed trace)) /\
    (0 <= max_articles self ->
     Z.of_nat (List.length (listed trace)) <= share self * Z.of_nat (List.length cats)) /\
    (max_articles self < 0 -> (List.length (visited trace) <= List.length cats)%nat) /\
    (0 <= max_articles self ->
     Z.of_nat (List.length all_articles) + share self * Z.of_nat (List.length cats)
       <= max_articles self ->
     visited trace = listed trace).
Proof.
  induction cats as [|[category category_url] rest IH];
    intros all_articles w all2 trace w' Hrun; simpl in Hrun.
  - unfold ret in Hrun. injection Hrun as <- <- <-. exists [].
    rewrite app_nil_r. simpl.
    repeat split; try reflexivity; try constructor; try lia.
  - unfold bind at 1 in Hrun.
    pose proof (extract_article_links_run self category_url w) as (Lnd & Lreq & Lout & Llen).
    destruct (extract_article_links urljoin self category_url w) as [links w1].
    cbn [fst snd] in Lnd, Lreq, Lout, Llen.
    unfold bind at 1 in Hrun.
    destruct (scrape_links self category links all_articles w1) as [[all1 tr1] w2] eqn:Hin.
    unfold bind, ret in Hrun. cbn [fst snd] in Hrun.
    destruct (scrape_categories urljoin self rest all1 w2) as [[all3 tr2] w3] eqn:Hout.
    cbn [fst snd] in Hrun. injection Hrun as <- <- <-.
    destruct (scrape_links_run self category links all_articles w1 all1 tr1 w2 Hin)
      as (new1 & A1 & A2 & A3 & (skipped & A4) & A5 & A6 & A7 & A8 & A9 & A10).
    destruct (IH all1 w2 all3 tr2 w3 Hout)
      as (new2 & B1 & B2 & B3 & B4 & B5 & B6 & B7 & B8 & B9 & B10 & B11).
    exists (new1 ++ new2).
    cbn [visited listed fetched map fst List.length].
    rewrite !visited_app, !listed_app, !fetched_app, A5, A6. cbn [app].
    split; [rewrite B1, A1, app_assoc; reflexivity|].
    split.
    { apply Forall_app. split.
      - eapply Forall_impl; [|exact A2]. intros a [Ha Hc]. split; [assumption|now left].
      - eapply Forall_impl; [|exact B2]. intros a [Ha Hc]. split; [assumption|now right]. }
    split; [rewrite map_app; apply subsequence_app; assumption|].
    split.
    { apply subsequence_app; [|assumption]. rewrite A4. apply subsequence_prefix. }
    split; [rewrite B5; reflexivity|].
    split; [rewrite length_app; lia|].
    split; [eapply same_outside_trans; [exact Lout|];
            eapply same_outside_trans; eassumption|].
    split.
    { intros Hnd. inversion Hnd as [|c cs Hnotin Hnd']; subst.
      apply NoDup_app_disjoint; [apply NoDup_map_pair; assumption|auto|].
      intros [c l] Hl Hr. apply in_map_iff in Hl as (l' & [= <- <-] & _).
      apply listed_fetched in Hr. rewrite B5 in Hr. contradiction. }
    split.
    { intros Hmax. rewrite length_app, length_map.
      specialize (Llen Hmax). specialize (B9 Hmax). lia. }
    split.
    { intros Hneg. rewrite length_app. specialize (B10 Hneg).
      assert ((List.length (visited tr1) <= 1)%nat).
      { apply A9. pose proof (Zle_0_nat (List.length all_articles)). lia. }
      lia. }
    intros Hmax Hbudget. specialize (Llen Hmax).
    pose proof (share_nonneg self Hmax) as Hk.
    assert (V1 : visited tr1 = map (pair category) links) by (apply A10; nia).
    rewrite V1. f_equal. apply B11; [assumption|].
    rewrite A1, length_app.
    pose proof (subsequence_length _ _ A3) as L1.
    rewrite V1, !length_map in L1. nia.
Qed.

Lemma scrape_all_categories_result self w :
  scrape_all_categories urljoin self w
  = (fst (fst (scrape_all_categories_traced urljoin self w)),
     snd (scrape_all_categories_traced urljoin self w)).
Proof.
  unfold scrape_all_categories, bind, ret.
  destruct (scrape_all_categories_traced urljoin self w) as [[all_articles trace] w'].
  reflexivity.
Qed.

Lemma scrape_categories_trace self cats : forall all_articles w all_articles' trace w',
  scrape_categories urljoin self cats all_articles w = (all_articles', trace, w') ->
  break_respected (max_articles self) trace /\ starts_with_links trace.
Proof.
  induction cats as [|[category category_url] rest IH];
    intros all_articles w all2 trace w' Hrun; simpl in Hrun.
  - unfold ret in Hrun. injection Hrun as <- <- <-. split; exact I.
  - unfold bind at 1 in Hrun.
    destruct (extract_article_links urljoin self category_url w) as [links w1].
    unfold bind at 1 in Hrun.
    destruct (scrape_links self category links all_articles w1) as [[all1 tr1] w2] eqn:Hin.
    unfold bind, ret in Hrun. cbn [fst snd] in Hrun.
    destruct (scrape_categories urljoin self rest all1 w2) as [[all3 tr2] w3] eqn:Hout.
    cbn [fst snd] in Hrun. injection Hrun as <- <- <-.
    destruct (IH _ _ _ _ _ Hout) as [B2 S2].
    split; [|exact I]. split; [exact I|].
    apply break_respected_app; [exact (scrape_links_trace _ _ _ _ _ _ _ _ Hin)| |]; assumption.
Qed.

(** C2, as the code has it.  The check of the cap leaves the loop over
    the links of the current category: a call of [extract_article_data]
    that leaves the count at the cap or above it is never followed by
    another call for the same category.  With a cap that is not negative,
    the list returned holds at most [max_articles] records, every call of
    [extract_article_data] is made while the count is below the cap, and
    the call that brings the count to the cap is the last thing the
    cycle does. *)
Theorem scrape_all_categories_cap_by_category self w all_articles trace w' :
  scrape_all_categories_traced urljoin self w = (all_articles, trace, w') ->
  fst (scrape_all_categories urljoin self w) = all_articles /\
  (forall pre link category before after link' category' before' after' post,
      trace = pre ++ ArticleExtracted link category before after
                  :: ArticleExtracted link' category' before' after' :: post ->
      Z.of_nat after < max_articles self) /\
  (0 <= max_articles self ->
   Z.of_nat (List.length all_articles) <= max_articles self /\
   (forall link category before after,
       In (ArticleExtracted link category before after) trace ->
       Z.of_nat before < max_articles self) /\
   (forall pre link category before after post,
       trace = pre ++ ArticleExtracted link category before after :: post ->
       max_articles self <= Z.of_nat after -> post = [])).
Proof.
  intros Hrun. split; [rewrite scrape_all_categories_result, Hrun; reflexivity|].
  unfold scrape_all_categories_traced in Hrun. split.
  - destruct (scrape_categories_trace self (categories self) [] w all_articles trace w' Hrun)
      as [B _].
    intros pre l c b a l' c' b' a' post Heq.
    exact (break_respected_split _ pre _ _ _ _ _ _ _ _ _ _ B Heq).
  - intros Hmax.
    assert (Hcap : Z.of_nat (List.length (@nil NewsArticle))
                   + max_articles self / Z.of_nat (List.length (categories self))
                     * Z.of_nat (List.length (categories self))
                   <= max_articles self).
    { simpl List.length at 1. pose proof (share_total self Hmax) as T.
      unfold share in T. lia. }
    destruct (ScraperFacts.scrape_categories_capped urljoin self (categories self) [] w
                all_articles trace w' Hmax Hcap Hrun) as (H1 & H2 & H3).
    split; [assumption|]. split.
    + intros link category before after Hin. apply (H3 _ _ _ _ Hin).
    + intros pre link category before after post Heq Hge.
      apply (ScraperFacts.quiet_after_cap_split _ _ _ _ _ _ _ _ H2 Heq Hge).
Qed.

(** X13. With a cap that is not negative, a cycle collects at most
    [len(categories) * (max_articles // len(categories))] records, which
    is at most the cap: the cap itself can be reached only when it is a
    multiple of the number of categories, and with the nine categories of
    the scraper and the default cap of 100 a cycle stops at 99 records. *)
Theorem scrape_all_categories_share_bound self w :
  0 <= max_articles self ->
  Z.of_nat (List.length (fst (scrape_all_categories urljoin self w)))
    <= share self * Z.of_nat (List.length (categories self))
    <= max_articles self.
Proof.
  intros Hmax. split; [|apply share_total; assumption].
  rewrite scrape_all_categories_result. cbn [fst].
  unfold scrape_all_categories_traced.
  destruct (scrape_categories urljoin self (categories self) [] w) as [[all_articles trace] w']
    eqn:Hrun.
  destruct (scrape_categories_run self (categories self) [] w all_articles trace w' Hrun)
    as (new & H1 & _ & H3 & H4 & _ & _ & _ & _ & H9 & _).
  cbn [fst]. simpl in H1. subst all_articles.
  pose proof (subsequence_length _ _ H3) as L1. rewrite length_map in L1.
  pose proof (subsequence_length _ _ H4) as L2.
  specialize (H9 Hmax). lia.
Qed.



(** X16. Every record of a cycle is well formed and has the key of a
    configured category; when the keys of the categories are pairwise
    distinct, no two records of a cycle have both the same category and
    the same address. *)
Theorem scrape_all_categories_records self w :
  Forall (fun a => well_formed self a /\ In (Scraper.category a) (map fst (categories self)))
         (fst (scrape_all_categories urljoin self w)) /\
  (NoDup (map fst (categories self)) ->
   NoDup (map cat_url (fst (scrape_all_categories urljoin self w)))).
Proof.
  rewrite scrape_all_categories_result. cbn [fst].
  unfold scrape_all_categories_traced.
  destruct (scrape_categories urljoin self (categories self) [] w) as [[all_articles trace] w']
    eqn:Hrun.
  destruct (scrape_categories_run self (categories self) [] w all_articles trace w' Hrun)
    as (new & H1 & H2 & H3 & H4 & _ & _ & _ & H8 & _).
  cbn [fst]. simpl in H1. subst all_articles.
  split; [assumption|]. intros Hnd.
  apply (subsequence_NoDup _ _ (subsequence_trans _ _ _ H3 H4)). auto.
Qed.

(** X17. With a negative cap, a cycle asks for at most one article of
    each category, the first link returned for it, and so collects at
    most as many records as there are categories. *)
Theorem scrape_all_categories_negative_cap self w :
  max_articles self < 0 ->
  (List.length (fst (scrape_all_categories urljoin self w))
   <= List.length (visited (snd (fst (scrape_all_categories_traced urljoin self w))))
   <= List.length (categories self))%nat.
Proof.
  intros Hneg. rewrite scrape_all_categories_result. cbn [fst].
  unfold scrape_all_categories_traced.
  destruct (scrape_categories urljoin self (categories self) [] w) as [[all_articles trace] w']
    eqn:Hrun.
  destruct (scrape_categories_run self (categories self) [] w all_articles trace w' Hrun)
    as (new & H1 & _ & H3 & _ & _ & _ & _ & _ & _ & H10 & _).
  cbn [fst snd]. simpl in H1. subst all_articles.
  pose proof (subsequence_length _ _ H3) as L1. rewrite length_map in L1.
  specialize (H10 Hneg). lia.
Qed.

End CycleFacts.

Lemma init_categories_distinct base cap : NoDup (map fst (categories (init base cap))).
Proof.
  simpl. repeat constructor; simpl; intuition discriminate.
Qed.

Lemma scrape_all_categories_cap_by_category_witness :
  Z.of_nat (List.length (fst (scrape_all_categories plain_urljoin (init default_base_url 9)
                               site_world))) <= 9.
Proof.
  destruct (scrape_all_categories_traced plain_urljoin (init default_base_url 9) site_world)
    as [[all_articles trace] w'] eqn:Hrun.
  destruct (scrape_all_categories_cap_by_category plain_urljoin (init default_base_url 9)
              site_world all_articles trace w' Hrun) as (H1 & _ & H3).
  rewrite H1. exact (proj1 (H3 ltac:(discriminate))).
Defined.

(** With a cap of -1 the site with three stories on every category page
    gives nine records, one call of [extract_article_data] for each
    category, all of them made with the count at the cap or above it;
    with a cap of 0, which the count has reached before the cycle starts,
    the nine category pages are still requested. *)
Lemma scrape_all_categories_exceeds_negative_cap :
  max_articles (init default_base_url (-1)) = -1 /\
  List.length (fst (scrape_all_categories plain_urljoin (init default_base_url (-1))
                      busy_world)) = 9%nat /\
  visited (snd (fst (scrape_all_categories_traced plain_urljoin (init default_base_url (-1))
                       busy_world)))
  = map (fun category => (category, "https://www.manoramaonline.com/news/story-1.html"))
        (map fst (categories (init default_base_url (-1)))) /\
  fst (scrape_all_categories plain_urljoin (init default_base_url 0) busy_world) = [] /\
  requests (snd (scrape_all_categories plain_urljoin (init default_base_url 0) busy_world))
  = 9%nat.
Proof. vm_compute. repeat split. Qed.

Lemma scrape_all_categories_share_bound_witness :
  Z.of_nat (List.length (fst (scrape_all_categories plain_urljoin scraper busy_world))) <= 99.
Proof.
  exact (proj1 (scrape_all_categories_share_bound plain_urljoin scraper busy_world
                  ltac:(discriminate))).
Defined.



Lemma scrape_all_categories_records_witness :
  NoDup (map cat_url (fst (scrape_all_categories plain_urljoin scraper busy_world))).
Proof.
  exact (proj2 (scrape_all_categories_records plain_urljoin scraper busy_world)
           (init_categories_distinct default_base_url 100)).
Defined.

Lemma scrape_all_categories_negative_cap_witness :
  (List.length (fst (scrape_all_categories plain_urljoin (init default_base_url (-1))
                       busy_world)) <= 9)%nat.
Proof.
  pose proof (scrape_all_categories_negative_cap plain_urljoin (init default_base_url (-1))
                busy_world ltac:(reflexivity)) as H.
  exact (Nat.le_trans _ _ _ (proj1 H) (proj2 H)).
Defined.

(** The site with three stories on every category page: 27 records with
    the default cap, 18 with a cap of 20, one of each category with a cap
    of -1, none with a cap of 8. *)
Lemma busy_world_runs :
  map (fun cap => List.length (fst (scrape_all_categories plain_urljoin
                                      (init default_base_url cap) busy_world)))
      [100; 20; -1; 8]
  = [27; 18; 9; 0]%nat.
Proof. vm_compute. reflexivity. Qed.

End CycleFacts.

(* ================================================================== *)
(** * The two calculators on ordinary articles *)
(* ================================================================== *)

Module CalculatorFacts.

Import PyNum Scraper Props PyNumFacts.

Lemma float_of_int_0 : float_of_int 0 = Some (S754_zero false).
Proof. reflexivity. Qed.

(** X18. An article that has views and no comment, like or share scores
    0.0. *)
Theorem engagement_score_without_interactions views :
  0 < views < 2 ^ 1023 ->
  calculate_engagement_score views 0 0 0 = Some (PyFloat (S754_zero false)).
Proof.
  intros [Hpos Hlt]. unfold calculate_engagement_score.
  assert (E : (views =? 0) = false) by (apply Z.eqb_neq; lia). rewrite E.
  unfold engagement. rewrite float_of_int_0.
  destruct (float_of_int_total views ltac:(lia)) as (v & Hv).
  destruct (float_of_int_pos views v Hpos Hv) as (m & e & ->).
  rewrite Hv, float_of_int_100.
  destruct literal_values as [-> ->]. reflexivity.
Qed.

Lemma engagement_score_without_interactions_witness :
  calculate_engagement_score 50000 0 0 0 = Some (PyFloat (S754_zero false)).
Proof.
  apply engagement_score_without_interactions. split; [reflexivity|].
  apply Z.lt_trans with (2 ^ 16); [reflexivity|].
  apply Z.pow_lt_mono_r; lia.
Defined.

(** ** The read time as the text grows *)

Lemma read_time_exact word_count :
  0 <= word_count <= 10000 ->
  calculate_read_time word_count default_wpm
  = Some (Z.max 1 (round_half_even_div word_count default_wpm)).
Proof.
  intros [Hw Hle].
  pose proof read_time_table as H. rewrite forallb_forall in H.
  specialize (H (Z.to_nat word_count)). rewrite Z2Nat.id in H by assumption.
  assert (Hin : In (Z.to_nat word_count) (seq 0 (Pos.to_nat 10001))) by (apply in_seq; lia).
  apply H in Hin.
  destruct (calculate_read_time word_count default_wpm) as [m|]; [|discriminate].
  apply Z.eqb_eq in Hin. congruence.
Qed.

Lemma round_half_even_div_near a b :
  0 < b ->
  2 * b * round_half_even_div a b - b <= 2 * a <= 2 * b * round_half_even_div a b + b.
Proof.
  intros Hb. unfold round_half_even_div. cbv zeta.
  pose proof (Z.div_mod a b ltac:(lia)) as D.
  pose proof (Z.mod_pos_bound a b Hb) as M.
  destruct (2 * (a mod b) ?= b) eqn:C;
    [apply Z.compare_eq in C|rewrite Z.compare_lt_iff in C|rewrite Z.compare_gt_iff in C].
  - destruct (Z.even (a / b)); nia.
  - nia.
  - nia.
Qed.

Lemma round_half_even_div_monotone a a' b :
  0 < b -> a <= a' -> round_half_even_div a b <= round_half_even_div a' b.
Proof.
  intros Hb Hle.
  destruct (Z.eq_dec (a / b) (a' / b)) as [Q|Q].
  - unfold round_half_even_div. rewrite <- Q.
    pose proof (Z.div_mod a b ltac:(lia)) as D.
    pose proof (Z.div_mod a' b ltac:(lia)) as D'.
    rewrite <- Q in D'.
    assert (R : a mod b <= a' mod b) by lia.
    destruct (2 * (a mod b) ?= b) eqn:C; destruct (2 * (a' mod b) ?= b) eqn:C';
      try apply Z.compare_eq in C; try apply Z.compare_eq in C';
      try rewrite Z.compare_lt_iff in C; try rewrite Z.compare_lt_iff in C';
      try rewrite Z.compare_gt_iff in C; try rewrite Z.compare_gt_iff in C';
      destruct (Z.even (a / b)); lia.
  - assert (L : a / b < a' / b).
    { pose proof (Z.div_le_mono a a' b Hb Hle). lia. }
    assert (U : round_half_even_div a b <= a / b + 1).
    { unfold round_half_even_div.
      destruct (2 * (a mod b) ?= b); [destruct (Z.even (a / b))| |]; lia. }
    assert (V : a' / b <= round_half_even_div a' b).
    { unfold round_half_even_div.
      destruct (2 * (a' mod b) ?= b); [destruct (Z.even (a' / b))| |]; lia. }
    lia.
Qed.

(** X19. Up to ten thousand words, at 200 words per minute, the read
    time does not decrease when the text gets longer, and from 100 words
    on it is within half a minute of the length divided by 200. *)
Theorem read_time_monotone shorter longer :
  0 <= shorter <= longer -> longer <= 10000 ->
  exists m m',
    calculate_read_time shorter default_wpm = Some m /\
    calculate_read_time longer default_wpm = Some m' /\
    m <= m' /\
    (100 <= longer -> 200 * m' - 100 <= longer <= 200 * m' + 100).
Proof.
  intros [H0 Hle] Hmax.
  exists (Z.max 1 (round_half_even_div shorter default_wpm)),
         (Z.max 1 (round_half_even_div longer default_wpm)).
  split; [apply read_time_exact; lia|]. split; [apply read_time_exact; lia|].
  pose proof (round_half_even_div_monotone shorter longer default_wpm eq_refl Hle) as M.
  split; [lia|]. intros H100.
  pose proof (round_half_even_div_near longer default_wpm eq_refl) as S.
  unfold default_wpm in *. lia.
Qed.

Lemma read_time_monotone_witness :
  exists m m',
    calculate_read_time 299 default_wpm = Some m /\
    calculate_read_time 300 default_wpm = Some m' /\ m <= m'.
Proof.
  destruct (read_time_monotone 299 300 ltac:(lia) ltac:(lia)) as (m & m' & H1 & H2 & H3 & _).
  exists m, m'. auto.
Defined.

End CalculatorFacts.

(* ================================================================== *)
(** * The merge: what is lost, what stays, and the order of the files *)
(* ================================================================== *)

Module MergeOrderFacts.

Import Merge Props Fixtures MergeFacts CollectFacts.

Lemma load_nil csv_files :
  load csv_files = [] <-> forall file df, In (file, df) csv_files -> df = None.
Proof.
  induction csv_files as [|[file [df|]] rest IH]; simpl.
  - split; [intros _ ? ? []|reflexivity].
  - split; [discriminate|]. intros H. specialize (H file (Some df) (or_introl eq_refl)).
    discriminate.
  - rewrite IH. split.
    + intros H f d [[= <- <-]|Hin]; [reflexivity|eauto].
    + intros H f d Hin. eapply H. right. eassumption.
Qed.

Lemma merge_csv_files_eq csv_files :
  merge_csv_files csv_files
  = match load csv_files with
    | [] => None
    | dfs => Some (drop_duplicates (List.concat dfs))
    end.
Proof. destruct csv_files; reflexivity. Qed.

(** X20. The merge gives up, and writes nothing, exactly when no file
    could be loaded: when the folder holds no CSV file or every file
    fails to load.  A file that fails to load changes nothing in the
    result. *)
Theorem merge_csv_files_none csv_files :
  (merge_csv_files csv_files = None <->
   forall file df, In (file, df) csv_files -> df = None) /\
  (forall earlier file later,
      csv_files = earlier ++ (file, None) :: later ->
      merge_csv_files csv_files = merge_csv_files (earlier ++ later)).
Proof.
  split.
  - rewrite merge_csv_files_eq, <- load_nil.
    destruct (load csv_files); split; try reflexivity; discriminate.
  - intros earlier file later ->. rewrite !merge_csv_files_eq, !load_app. reflexivity.
Qed.

Lemma merge_csv_files_none_witness :
  merge_csv_files [("run1.csv", Some [monsoon]); ("broken.csv", None);
                   ("run2.csv", Some [monsoon_again])]
  = merge_csv_files [("run1.csv", Some [monsoon]); ("run2.csv", Some [monsoon_again])].
Proof.
  exact (proj2 (merge_csv_files_none _) [("run1.csv", Some [monsoon])] "broken.csv"
           [("run2.csv", Some [monsoon_again])] eq_refl).
Defined.

Lemma drop_duplicates_from_subsequence : forall df seen,
  subsequence (drop_duplicates_from seen df) df.
Proof.
  induction df as [|r df IH]; intros seen; simpl; [constructor|].
  destruct (existsb _ seen); constructor; apply IH.
Qed.

Lemma seen_key_cons k k' seen :
  seen_key k (k' :: seen) = key_eqb k k' || seen_key k seen.
Proof. reflexivity. Qed.

Lemma drop_duplicates_from_keys k : forall df seen,
  In k (map key (drop_duplicates_from seen df)) <->
  In k (map key df) /\ seen_key k seen = false.
Proof.
  induction df as [|r df IH]; intros seen; cbn [drop_duplicates_from map In]; [tauto|].
  fold (seen_key (key r) seen).
  destruct (seen_key (key r) seen) eqn:E.
  - rewrite IH. split.
    + intros [H1 H2]. auto.
    + intros [[H1|H1] H2]; [congruence|auto].
  - cbn [map In]. rewrite IH, seen_key_cons. split.
    + intros [H|[H1 H2]]; [subst; auto|].
      apply orb_false_iff in H2 as [_ H2]. auto.
    + intros [[H|H] H2]; [now left|].
      destruct (key_eqb k (key r)) eqn:K.
      * left. apply key_eqb_eq in K. congruence.
      * right. split; [assumption|]. exact H2.
Qed.

(** X21. The merged frame is the concatenation of the loaded files with
    some rows left out: the rows that stay are unchanged and in their
    order, and every key of the input is the key of a row that stays. *)
Theorem merge_csv_files_subsequence csv_files merged :
  merge_csv_files csv_files = Some merged ->
  subsequence merged (List.concat (load csv_files)) /\
  (forall k, In k (map key merged) <-> In k (map key (List.concat (load csv_files)))) /\
  (List.length merged <= List.length (List.concat (load csv_files)))%nat.
Proof.
  intros H. apply merge_csv_files_Some in H. subst merged. unfold drop_duplicates.
  pose proof (drop_duplicates_from_subsequence (List.concat (load csv_files)) []) as S.
  split; [exact S|]. split; [|exact (subsequence_length _ _ S)].
  intros k. rewrite drop_duplicates_from_keys. simpl. tauto.
Qed.

Lemma merge_csv_files_subsequence_witness :
  subsequence
    [ {| row := monsoon; source_file := "run1.csv" |} ]
    (List.concat (load [("run1.csv", Some [monsoon]); ("run2.csv", Some [monsoon_again])])).
Proof.
  exact (proj1 (merge_csv_files_subsequence
                  [("run1.csv", Some [monsoon]); ("run2.csv", Some [monsoon_again])]
                  _ eq_refl)).
Defined.

Lemma drop_duplicates_from_fixed : forall df seen,
  NoDup (map key df) ->
  (forall r, In r df -> seen_key (key r) seen = false) ->
  drop_duplicates_from seen df = df.
Proof.
  induction df as [|r df IH]; intros seen Hnd Hseen; simpl; [reflexivity|].
  fold (seen_key (key r) seen). rewrite (Hseen r (or_introl eq_refl)).
  simpl in Hnd. inversion Hnd as [|k ks Hnotin Hnd']; subst.
  f_equal. apply IH; [assumption|].
  intros r' Hin. unfold seen_key. simpl. fold (seen_key (key r') seen).
  rewrite (Hseen r' (or_intror Hin)), orb_false_r.
  destruct (key_eqb (key r') (key r)) eqn:K; [|reflexivity].
  apply key_eqb_eq in K. exfalso. apply Hnotin. rewrite <- K. now apply in_map.
Qed.

(** X22. When no two rows of the loaded files have the same headline and
    date, the merge keeps every row: the merged frame is the
    concatenation of the files, each row with the name of its file. *)
Theorem merge_csv_files_without_duplicates csv_files :
  load csv_files <> [] ->
  NoDup (map key (List.concat (load csv_files))) ->
  merge_csv_files csv_files = Some (List.concat (load csv_files)).
Proof.
  intros Hne Hnd. rewrite merge_csv_files_eq.
  destruct (load csv_files) as [|d dfs] eqn:E; [contradiction|].
  unfold drop_duplicates. rewrite drop_duplicates_from_fixed; auto.
Qed.

Lemma merge_csv_files_without_duplicates_witness :
  merge_csv_files [("run1.csv", Some [monsoon; harvest]); ("run2.csv", Some [monsoon_later])]
  = Some [ {| row := monsoon; source_file := "run1.csv" |};
           {| row := harvest; source_file := "run1.csv" |};
           {| row := monsoon_later; source_file := "run2.csv" |} ].
Proof.
  apply (merge_csv_files_without_duplicates
           [("run1.csv", Some [monsoon; harvest]); ("run2.csv", Some [monsoon_later])]).
  - discriminate.
  - simpl. repeat constructor; simpl; intuition discriminate.
Defined.

Lemma In_concat_load r csv_files :
  In r (List.concat (load csv_files)) <->
  exists file df, In (file, Some df) csv_files /\ In r (tag file df).
Proof.
  induction csv_files as [|[file [df|]] rest IH]; simpl.
  - split; [intros []|intros (? & ? & [] & _)].
  - rewrite in_app_iff, IH. split.
    + intros [H|(f & d & H1 & H2)]; [exists file, df; auto|exists f, d; auto].
    + intros (f & d & [[= <- <-]|H1] & H2); [now left|right; exists f, d; auto].
  - rewrite IH. split.
    + intros (f & d & H1 & H2). exists f, d; auto.
    + intros (f & d & [[=]|H1] & H2). exists f, d; auto.
Qed.

Lemma keys_concat_load k csv_files :
  In k (map key (List.concat (load csv_files))) <->
  exists file df r, In (file, Some df) csv_files /\ In r df /\ k = (headline r, date r).
Proof.
  rewrite in_map_iff. split.
  - intros (m & <- & Hin). apply In_concat_load in Hin as (file & df & H1 & H2).
    unfold tag in H2. apply in_map_iff in H2 as (r & <- & H2).
    exists file, df, r. auto.
  - intros (file & df & r & H1 & H2 & ->).
    exists {| row := r; source_file := file |}. split; [reflexivity|].
    apply In_concat_load. exists file, df. split; [assumption|].
    unfold tag. apply in_map_iff. exists r. auto.
Qed.

(** X23. The order in which the files are listed decides only which of
    the rows with the same key stays: two listings of the same files give
    merged frames with the same keys and the same number of rows. *)
Theorem merge_csv_files_order csv_files csv_files' merged merged' :
  Permutation csv_files csv_files' ->
  merge_csv_files csv_files = Some merged ->
  merge_csv_files csv_files' = Some merged' ->
  (forall k, In k (map key merged) <-> In k (map key merged')) /\
  List.length merged = List.length merged'.
Proof.
  intros Hp H H'.
  apply merge_csv_files_Some in H. apply merge_csv_files_Some in H'. subst.
  unfold drop_duplicates.
  assert (K : forall k, In k (map key (drop_duplicates_from [] (List.concat (load csv_files))))
                        <-> In k (map key (drop_duplicates_from []
                                             (List.concat (load csv_files'))))).
  { intros k. rewrite !drop_duplicates_from_keys, !keys_concat_load. simpl.
    split; intros [(file & df & r & H1 & H2) E]; (split; [|assumption]);
      exists file, df, r; (split; [|assumption]).
    - eapply Permutation_in; eassumption.
    - eapply Permutation_in; [apply Permutation_sym|]; eassumption. }
  split; [exact K|].
  rewrite <- (length_map key (drop_duplicates_from [] (List.concat (load csv_files)))).
  rewrite <- (length_map key (drop_duplicates_from [] (List.concat (load csv_files')))).
  apply Permutation_length, NoDup_Permutation; try apply drop_duplicates_from_NoDup.
  exact K.
Qed.

Lemma merge_csv_files_order_witness :
  List.length (drop_duplicates (tag "run1.csv" [monsoon] ++ tag "run2.csv" [monsoon_again]))
  = List.length (drop_duplicates (tag "run2.csv" [monsoon_again] ++ tag "run1.csv" [monsoon])).
Proof.
  exact (proj2 (merge_csv_files_order
                  [("run1.csv", Some [monsoon]); ("run2.csv", Some [monsoon_again])]
                  [("run2.csv", Some [monsoon_again]); ("run1.csv", Some [monsoon])]
                  _ _ (perm_swap _ _ []) eq_refl eq_refl)).
Defined.

End MergeOrderFacts.
